(** * YouTube transcript server: cache / fetch coordination layer

    A shallow embedding of [youtube_transcript_server.py] and the
    properties of its specification.

    Conventions of the model.
    - Python [str] values are Rocq [string]s (sequences of 8-bit
      characters); ASCII text is written literally.
    - A Python exception is an [exn_class] with its message; code that can
      raise returns an [Outcome].
    - Stateful code ([TranscriptCache], the cache directory, the calls made
      to the two providers and to [ctx]) runs in the state-and-exception
      monad [M] over the record [World].
    - Library code the server calls is either transcribed from CPython 3.11
      ([urllib.parse]: [urlsplit], [urlparse], [parse_qs], [unquote]) or,
      where it reaches outside the program (Unicode tables, [ipaddress],
      [json], the network, the file system permissions, the working
      directory), taken as a field of the records [UrlLib] and [Host].
    - The file system is a POSIX one without links, with names compared
      character by character: a path names the file that its components
      lead to from the working directory or from the root
      ([PosixFile.resolve]), files hold text, and a file opened for
      reading in text mode is read with universal newlines
      ([PosixFile.universal_newlines]); a text is written as it is
      ([os.linesep] is the line feed). *)

From Stdlib Require Import String Ascii List Bool Arith NArith ZArith Lia.
From Stdlib Require Import QArith Qround Lqa.
From Stdlib Require Import DecimalString DecimalZ DecimalFacts.
Import ListNotations.
Local Open Scope string_scope.

Set Implicit Arguments.

(* ================================================================== *)
(** * Exceptions *)

(** The exception classes that the server and its libraries raise.
    [JSONDecodeError] and [UnicodeDecodeError] are subclasses of
    [ValueError]; [ProviderError] stands for whatever the transcript
    library raises, [TransportError] for what the HTTP client raises. *)
Inductive exn_class : Type :=
| ValueError
| JSONDecodeError
| UnicodeDecodeError
| IndexError
| KeyError
| AttributeError
| OSError
| TransportError
| ProviderError.

Definition is_ValueError (c : exn_class) : bool :=
  match c with
  | ValueError | JSONDecodeError | UnicodeDecodeError => true
  | _ => false
  end.

Inductive Outcome (A : Type) : Type :=
| Ok (a : A)
| Raise (c : exn_class) (msg : string).

Arguments Ok {A} a.
Arguments Raise {A} c msg.

Definition obind {A B} (o : Outcome A) (k : A -> Outcome B) : Outcome B :=
  match o with
  | Ok a => k a
  | Raise c m => Raise c m
  end.

Definition omap {A B} (f : A -> B) (o : Outcome A) : Outcome B :=
  obind o (fun a => Ok (f a)).

(* ================================================================== *)
(** * Python string operations *)

Module PyStr.

Definition TAB : ascii := ascii_of_nat 9.
Definition LF : ascii := ascii_of_nat 10.
Definition CR : ascii := ascii_of_nat 13.

Definition code (c : ascii) : N := N_of_ascii c.

Definition between (lo hi c : ascii) : bool :=
  ((code lo <=? code c) && (code c <=? code hi))%N.

Definition is_ascii (c : ascii) : bool := (code c <? 128)%N.
Definition is_lower (c : ascii) : bool := between "a" "z" c.
Definition is_upper (c : ascii) : bool := between "A" "Z" c.
Definition is_digit (c : ascii) : bool := between "0" "9" c.
Definition is_ascii_alpha (c : ascii) : bool := is_lower c || is_upper c.

(** [c in "..."] for a one-character [c]. *)
Fixpoint mem (c : ascii) (s : string) : bool :=
  match s with
  | EmptyString => false
  | String d s' => Ascii.eqb c d || mem c s'
  end.

(** [needle in s]. *)
Fixpoint contains (needle s : string) : bool :=
  String.prefix needle s ||
  match s with
  | EmptyString => false
  | String _ s' => contains needle s'
  end.

Definition startswith (p s : string) : bool := String.prefix p s.

(** [s.endswith(suffix)]. *)
Fixpoint endswith (suffix s : string) : bool :=
  String.eqb s suffix ||
  match s with
  | EmptyString => false
  | String _ s' => endswith suffix s'
  end.

(** [s.lstrip(chars)] and [s.rstrip(chars)], [chars] given as a test. *)
Fixpoint lstrip (p : ascii -> bool) (s : string) : string :=
  match s with
  | EmptyString => EmptyString
  | String c s' => if p c then lstrip p s' else s
  end.

Fixpoint rstrip (p : ascii -> bool) (s : string) : string :=
  match s with
  | EmptyString => EmptyString
  | String c s' =>
      match rstrip p s' with
      | EmptyString => if p c then EmptyString else String c EmptyString
      | r => String c r
      end
  end.

(** [s.strip(chars)]. *)
Definition strip (chars : string) (s : string) : string :=
  rstrip (fun c => mem c chars) (lstrip (fun c => mem c chars) s).

(** [s.replace(c, "")] for a one-character [c]. *)
Fixpoint remove (c : ascii) (s : string) : string :=
  match s with
  | EmptyString => EmptyString
  | String d s' => if Ascii.eqb d c then remove c s' else String d (remove c s')
  end.

(** [s.replace(c, d)] for one-character [c] and [d]. *)
Fixpoint replace_char (c d : ascii) (s : string) : string :=
  match s with
  | EmptyString => EmptyString
  | String e s' => String (if Ascii.eqb e c then d else e) (replace_char c d s')
  end.

(** [s.replace(old, new)] for a non-empty [old]: occurrences are
    replaced from the left and do not overlap.  [skip] counts the
    characters of a replaced occurrence still to be dropped. *)
Fixpoint replace_from (old new : string) (skip : nat) (s : string) : string :=
  match s with
  | EmptyString => EmptyString
  | String c s' =>
      match skip with
      | S k => replace_from old new k s'
      | O =>
          if String.prefix old s
          then new ++ replace_from old new (String.length old - 1) s'
          else String c (replace_from old new 0 s')
      end
  end.

Definition replace (old new s : string) : string := replace_from old new 0 s.

(** [s.partition(c)]: [Some (before, after)] at the first [c]. *)
Fixpoint partition (c : ascii) (s : string) : option (string * string) :=
  match s with
  | EmptyString => None
  | String d s' =>
      if Ascii.eqb d c then Some (EmptyString, s')
      else match partition c s' with
           | Some (a, b) => Some (String d a, b)
           | None => None
           end
  end.

(** [s.split(c)]. *)
Fixpoint split (c : ascii) (s : string) : list string :=
  match s with
  | EmptyString => [EmptyString]
  | String d s' =>
      if Ascii.eqb d c then EmptyString :: split c s'
      else match split c s' with
           | h :: t => String d h :: t
           | [] => [String d EmptyString]
           end
  end.

(** The longest prefix of characters failing [stop], and the rest. *)
Fixpoint span_until (stop : ascii -> bool) (s : string) : string * string :=
  match s with
  | EmptyString => (EmptyString, EmptyString)
  | String c s' =>
      if stop c then (EmptyString, s)
      else let (a, b) := span_until stop s' in (String c a, b)
  end.

(** Split at the last ["/"]: [Some (s[:i+1], s[i+1:])] for [i = s.rfind("/")]. *)
Fixpoint rpartition_slash (s : string) : option (string * string) :=
  match s with
  | EmptyString => None
  | String c s' =>
      match rpartition_slash s' with
      | Some (h, t) => Some (String c h, t)
      | None => if Ascii.eqb c "/" then Some (String c EmptyString, s') else None
      end
  end.

Definition lower_char (c : ascii) : ascii :=
  if is_upper c then ascii_of_N (code c + 32) else c.

Fixpoint lower (s : string) : string :=
  match s with
  | EmptyString => EmptyString
  | String c s' => String (lower_char c) (lower s')
  end.

Fixpoint forallb (p : ascii -> bool) (s : string) : bool :=
  match s with
  | EmptyString => true
  | String c s' => p c && forallb p s'
  end.

Definition truthy (s : string) : bool :=
  match s with EmptyString => false | _ => true end.

End PyStr.

(* ================================================================== *)
(** * [urllib.parse] *)

(** What [urllib.parse] takes from other modules: the check of a
    bracketed host ([_check_bracketed_netloc], through [ipaddress]), the
    NFKC check of a non-ASCII host ([_checknetloc], through [unicodedata])
    -- each gives the message of the [ValueError] it raises, if it raises
    -- and [bytes.decode("utf-8", "replace")]. *)
Record UrlLib : Type := {
  bracketed_netloc_error : string -> option string;
  nfkc_netloc_error : string -> option string;
  utf8_decode : string -> string
}.

Record SplitResult : Type := {
  sr_scheme : string;
  sr_netloc : string;
  sr_path : string;
  sr_query : string;
  sr_fragment : string
}.

Record ParseResult : Type := {
  scheme : string;
  netloc : string;
  path : string;
  params : string;
  query : string;
  fragment : string
}.

(** A Python [dict] with string keys: association list in insertion order. *)
Fixpoint dict_get {V} (k : string) (d : list (string * V)) : option V :=
  match d with
  | [] => None
  | (k', v) :: d' => if String.eqb k' k then Some v else dict_get k d'
  end.

(** [d[k] = v]: an existing key keeps its place, a new key goes last. *)
Fixpoint dict_set {V} (k : string) (v : V) (d : list (string * V)) : list (string * V) :=
  match d with
  | [] => [(k, v)]
  | (k', v') :: d' =>
      if String.eqb k' k then (k, v) :: d' else (k', v') :: dict_set k v d'
  end.

Module UrlParse.
Import PyStr.

Section WithLib.
Variable L : UrlLib.

Definition c0_control_or_space (c : ascii) : bool := (code c <=? 32)%N.

Definition scheme_char (c : ascii) : bool :=
  is_lower c || is_upper c || is_digit c || mem c "+-.".

Definition uses_params : list string :=
  [""; "ftp"; "hdl"; "prospero"; "http"; "imap"; "https"; "shttp"; "rtsp";
   "rtspu"; "sip"; "sips"; "mms"; "sftp"; "tel"].

(** The scheme test of [urlsplit]: [i = url.find(":")], [i > 0], the
    first character an ASCII letter, [url[:i]] made of scheme
    characters. *)
Definition split_scheme (url : string) : string * string :=
  match partition ":" url with
  | Some (String c0 _ as head, tail) =>
      if is_ascii c0 && is_ascii_alpha c0 && forallb scheme_char head
      then (lower head, tail)
      else (EmptyString, url)
  | _ => (EmptyString, url)
  end.

(** [_splitnetloc(url, 2)] for a [url] that starts with ["//"]. *)
Definition splitnetloc (url : string) : string * string :=
  match url with
  | String _ (String _ rest) => span_until (fun c => mem c "/?#") rest
  | _ => (EmptyString, url)
  end.

Definition check_brackets (netloc : string) : Outcome unit :=
  let has_open := mem "[" netloc in
  let has_close := mem "]" netloc in
  if (has_open && negb has_close) || (has_close && negb has_open)
  then Raise ValueError "Invalid IPv6 URL"
  else if has_open && has_close
  then match bracketed_netloc_error L netloc with
       | Some msg => Raise ValueError msg
       | None => Ok tt
       end
  else Ok tt.

Definition checknetloc (netloc : string) : Outcome unit :=
  if negb (truthy netloc) || forallb is_ascii netloc then Ok tt
  else match nfkc_netloc_error L netloc with
       | Some msg => Raise ValueError msg
       | None => Ok tt
       end.

Definition urlsplit (url : string) : Outcome SplitResult :=
  let url := lstrip c0_control_or_space url in
  let url := remove LF (remove CR (remove TAB url)) in
  let (scheme, url) := split_scheme url in
  obind (if startswith "//" url
         then let (netloc, rest) := splitnetloc url in
              obind (check_brackets netloc) (fun _ => Ok (netloc, rest))
         else Ok (EmptyString, url))
    (fun '(netloc, url) =>
       let (url, fragment) :=
         match partition "#" url with
         | Some (a, b) => (a, b)
         | None => (url, EmptyString)
         end in
       let (url, query) :=
         match partition "?" url with
         | Some (a, b) => (a, b)
         | None => (url, EmptyString)
         end in
       obind (checknetloc netloc) (fun _ =>
         Ok {| sr_scheme := scheme; sr_netloc := netloc; sr_path := url;
               sr_query := query; sr_fragment := fragment |})).

(** [_splitparams]: the parameters follow the first [";"] of the last
    path segment. *)
Definition splitparams (url : string) : string * string :=
  match rpartition_slash url with
  | Some (h, t) =>
      match partition ";" t with
      | Some (a, b) => (h ++ a, b)
      | None => (url, EmptyString)
      end
  | None =>
      match partition ";" url with
      | Some (a, b) => (a, b)
      | None => (url, EmptyString)
      end
  end.

Definition urlparse (url : string) : Outcome ParseResult :=
  obind (urlsplit url) (fun s =>
    let (url, params) :=
      if existsb (String.eqb (sr_scheme s)) uses_params && mem ";" (sr_path s)
      then splitparams (sr_path s)
      else (sr_path s, EmptyString) in
    Ok {| scheme := sr_scheme s; netloc := sr_netloc s; path := url;
          params := params; query := sr_query s;
          fragment := sr_fragment s |}).

(** ** Percent decoding *)

Definition hex_value (c : ascii) : option N :=
  if is_digit c then Some (code c - code "0")%N
  else if between "a" "f" c then Some (code c - code "a" + 10)%N
  else if between "A" "F" c then Some (code c - code "A" + 10)%N
  else None.

Definition hex_pair (a b : ascii) : option ascii :=
  match hex_value a, hex_value b with
  | Some x, Some y => Some (ascii_of_N (16 * x + y))
  | _, _ => None
  end.

(** [unquote_to_bytes]: ["%XY"] with two hexadecimal digits becomes
    one byte, any other ["%"] stays. *)
Fixpoint unquote_to_bytes (s : string) : string :=
  match s with
  | EmptyString => EmptyString
  | String c s1 =>
      if Ascii.eqb c "%" then
        match s1 with
        | String a (String b s3) =>
            match hex_pair a b with
            | Some x => String x (unquote_to_bytes s3)
            | None => String c (unquote_to_bytes s1)
            end
        | _ => String c (unquote_to_bytes s1)
        end
      else String c (unquote_to_bytes s1)
  end.

(** The maximal runs of ASCII and of non-ASCII characters of [s]. *)
Fixpoint runs (s : string) : list (bool * string) :=
  match s with
  | EmptyString => []
  | String c s' =>
      let a := is_ascii c in
      match runs s' with
      | (b, r) :: t =>
          if Bool.eqb a b then (a, String c r) :: t
          else (a, String c EmptyString) :: (b, r) :: t
      | [] => [(a, String c EmptyString)]
      end
  end.

(** [unquote(s)]: unchanged without ["%"]; else every ASCII run is
    percent-decoded and decoded as UTF-8. *)
Definition unquote (s : string) : string :=
  if negb (mem "%" s) then s
  else String.concat EmptyString
         (map (fun '(a, r) => if a : bool then utf8_decode L (unquote_to_bytes r) else r)
              (runs s)).

(** ** Query strings *)

Definition parse_field (name_value : string) : option (string * string) :=
  match partition "=" name_value with
  | Some (n, v) =>
      if truthy v
      then Some (unquote (replace_char "+" " " n), unquote (replace_char "+" " " v))
      else None
  | None => None
  end.

Fixpoint filter_map {A B} (f : A -> option B) (l : list A) : list B :=
  match l with
  | [] => []
  | a :: l' => match f a with
               | Some b => b :: filter_map f l'
               | None => filter_map f l'
               end
  end.

(** [parse_qsl(qs)] with its defaults: blank values dropped, fields
    without ["="] skipped. *)
Definition parse_qsl (qs : string) : list (string * string) :=
  if truthy qs then filter_map parse_field (split "&" qs) else [].

Definition dict_append (d : list (string * list string)) (nv : string * string)
  : list (string * list string) :=
  match dict_get (fst nv) d with
  | Some vs => dict_set (fst nv) (vs ++ [snd nv])%list d
  | None => dict_set (fst nv) [snd nv] d
  end.

Definition parse_qs (qs : string) : list (string * list string) :=
  fold_left dict_append (parse_qsl qs) [].

End WithLib.
End UrlParse.

(* ================================================================== *)
(** * Identifier extraction *)

Section Extractor.
Import PyStr UrlParse.
Variable L : UrlLib.

(** The character class [[a-zA-Z0-9_-]]. *)
Definition id_char (c : ascii) : bool :=
  is_lower c || is_upper c || is_digit c || mem c "_-".

(** Consume [n] characters of the class; the rest of the string. *)
Fixpoint match_id_chars (n : nat) (s : string) : option string :=
  match n with
  | O => Some s
  | S n' =>
      match s with
      | String c s' => if id_char c then match_id_chars n' s' else None
      | EmptyString => None
      end
  end.

(** [re.match(r'^[a-zA-Z0-9_-]{11}$', url)]: [$] matches at the end of
    the string and before a newline that ends it. *)
Definition re_match_video_id (url : string) : bool :=
  match match_id_chars 11 url with
  | Some rest => String.eqb rest EmptyString || String.eqb rest (String LF EmptyString)
  | None => false
  end.

Definition main_site_hosts : list string :=
  ["youtube.com"; "www.youtube.com"; "m.youtube.com"].

Definition extract_video_id (url : string) : Outcome string :=
  if contains "youtu.be" url then
    obind (urlparse L url) (fun parsed => Ok (strip "/" (path parsed)))
  else
    obind (urlparse L url) (fun parsed_url =>
      if existsb (String.eqb (netloc parsed_url)) main_site_hosts then
        let query_params := parse_qs L (query parsed_url) in
        match dict_get "v" query_params with
        | Some (v :: _) => Ok v
        | Some [] => Raise IndexError "list index out of range"
        | None => Ok EmptyString
        end
      else if re_match_video_id url then Ok url
      else Raise ValueError ("Could not extract YouTube video ID from " ++ url)).

End Extractor.

(* ================================================================== *)
(** * Paths and files *)

Module PosixFile.
Import PyStr.

(** [os.path.join(a, b)] of [posixpath]. *)
Definition join (a b : string) : string :=
  if startswith "/" b then b
  else if negb (truthy a) || endswith "/" a then a ++ b
  else a ++ "/" ++ b.

(** The place of a file: the names of the directories that lead to it
    from the root, and its own name. *)
Definition place : Type := list string.

(** One component of a path, followed from the directory [dir]: an
    empty component and ["."] stay, [".."] goes to the parent (the root
    is its own parent), a name goes down. *)
Definition step (dir : place) (c : string) : place :=
  if String.eqb c "" || String.eqb c "." then dir
  else if String.eqb c ".." then removelast dir
  else (dir ++ [c])%list.

Definition walk (dir : place) (components : list string) : place :=
  fold_left step components dir.

(** The place that the operating system makes of the path [p] in the
    working directory [cwd]. *)
Definition resolve (cwd : place) (p : string) : place :=
  walk (if startswith "/" p then [] else cwd) (split "/" p).

Fixpoint place_eqb (p q : place) : bool :=
  match p, q with
  | [], [] => true
  | a :: p', b :: q' => String.eqb a b && place_eqb p' q'
  | _, _ => false
  end.

(** The regular files, by place. *)
Definition files : Type := list (place * string).

Fixpoint file_get (p : place) (d : files) : option string :=
  match d with
  | [] => None
  | (q, content) :: d' => if place_eqb q p then Some content else file_get p d'
  end.

(** A file that exists keeps its position in the listings, a new file
    goes last. *)
Fixpoint file_set (p : place) (content : string) (d : files) : files :=
  match d with
  | [] => [(p, content)]
  | (q, c) :: d' =>
      if place_eqb q p then (p, content) :: d' else (q, c) :: file_set p content d'
  end.

(** The entry of the directory [dir] that leads to the place [p], when
    [p] is below [dir]. *)
Fixpoint child_of (dir p : place) : option string :=
  match dir, p with
  | [], c :: _ => Some c
  | d :: dir', x :: p' => if String.eqb d x then child_of dir' p' else None
  | _, _ => None
  end.

Definition add_name (c : string) (names : list string) : list string :=
  if existsb (String.eqb c) names then names else (names ++ [c])%list.

(** The names of the entries of the directory [dir]: its files and its
    subdirectories. *)
Definition children (dir : place) (d : files) : list string :=
  fold_left (fun names kv =>
               match child_of dir (fst kv) with
               | Some c => add_name c names
               | None => names
               end) d [].

(** A file is at [p], or [p] is a directory that holds a file. *)
Definition exists_at (p : place) (d : files) : bool :=
  existsb (fun kv => place_eqb (fst kv) p
                     || match child_of p (fst kv) with Some _ => true | None => false end) d.

(** What reading in text mode makes of the text of a file: ["\r\n"]
    and ["\r"] become ["\n"]. *)
Fixpoint universal_newlines (s : string) : string :=
  match s with
  | EmptyString => EmptyString
  | String c rest =>
      if Ascii.eqb c CR then
        match rest with
        | String d rest' =>
            if Ascii.eqb d LF then String LF (universal_newlines rest')
            else String LF (universal_newlines rest)
        | EmptyString => String LF EmptyString
        end
      else String c (universal_newlines rest)
  end.

End PosixFile.

(* ================================================================== *)
(** * Data model *)

Record VideoInfo : Type := {
  vi_video_id : string;
  title : string;
  channel : string
}.

Record TranscriptInfo : Type := {
  video_id : string;
  video_info : option VideoInfo;
  text : option string
}.

(** A caption segment, [entry['start']] and [entry['text']].  A start
    offset is the exact rational value of the binary64 number; the
    timestamp of the exact operations is the one of the rounded operations
    for every offset below [2^53] seconds
    ([Binary64Facts.timestamp_rounded_exact]). *)
Record Entry : Type := {
  entry_start : Q;
  entry_text : string
}.

(** What [json.load] makes of a text: it raises, or gives an object (its
    string members), or gives a value that is not an object. *)
Inductive json_doc : Type :=
| JsonRaises (c : exn_class) (msg : string)
| JsonObject (members : list (string * string))
| JsonOther.

(** What [client.get(url)] gives: the client raises, or a response. *)
Inductive http_reply : Type :=
| HttpRaises (msg : string)
| HttpResponse (status_code : nat) (body : string).

(** The collaborators outside the program.  The two providers answer by
    call number, so that they may answer differently from one call to the
    next; [open_error path] is the message of the [OSError] that opening
    the path [path] for writing raises, if it raises; [cwd] is the
    working directory of the process. *)
Record Host : Type := {
  youtube_get_transcript : nat -> string -> Outcome (list Entry);
  http_get : nat -> string -> http_reply;
  json_load : string -> json_doc;
  json_dump : list (string * string) -> string;
  open_error : string -> option string;
  cwd : string
}.

Definition TRANSCRIPT_CACHE_DIR : string := "transcript_cache".

(** The place of the path [p], as the process of [H] opens it. *)
Definition place_of (H : Host) (p : string) : PosixFile.place :=
  PosixFile.resolve (PosixFile.resolve [] (cwd H)) p.

(** The path and the place of the file of the cache directory that is
    named [name]. *)
Definition cache_path (name : string) : string :=
  PosixFile.join TRANSCRIPT_CACHE_DIR name.

Definition cache_file (H : Host) (name : string) : PosixFile.place :=
  place_of H (cache_path name).

(** The place of the cache directory. *)
Definition cache_dir (H : Host) : PosixFile.place := place_of H TRANSCRIPT_CACHE_DIR.

Inductive log_level : Type := INFO | ERROR.

(** The state the server runs in: the [transcripts] dict of the
    [TranscriptCache], the files of the file system by place (in the
    order in which [os.listdir] gives those of a directory), the number of
    calls made to each provider, and the messages passed to [ctx]. *)
Record World : Type := {
  transcripts : list (string * TranscriptInfo);
  disk : PosixFile.files;
  api_calls : nat;
  http_calls : nat;
  ctx_log : list (log_level * string)
}.

(* ================================================================== *)
(** * The state-and-exception monad *)

Definition M (A : Type) : Type := World -> Outcome A * World.

Definition ret {A} (a : A) : M A := fun w => (Ok a, w).

Definition raise {A} (c : exn_class) (msg : string) : M A :=
  fun w => (Raise c msg, w).

Definition bind {A B} (m : M A) (k : A -> M B) : M B :=
  fun w =>
    match m w with
    | (Ok a, w') => k a w'
    | (Raise c msg, w') => (Raise c msg, w')
    end.

Definition lift {A} (o : Outcome A) : M A := fun w => (o, w).

(** [try: body except <classes> as e: handler]. *)
Definition try_except {A} (body : M A) (caught : exn_class -> bool)
  (handler : string -> M A) : M A :=
  fun w =>
    match body w with
    | (Ok a, w') => (Ok a, w')
    | (Raise c msg, w') =>
        if caught c then handler msg w' else (Raise c msg, w')
    end.

Declare Scope monad_scope.
Delimit Scope monad_scope with monad.
Notation "x <- m ;; k" := (bind m (fun x => k))
  (at level 61, m at next level, right associativity) : monad_scope.
Notation "m ;;; k" := (bind m (fun _ => k))
  (at level 61, right associativity) : monad_scope.
Local Open Scope monad_scope.

(** [for x in l: body x]. *)
Fixpoint for_each {A} (l : list A) (body : A -> M unit) : M unit :=
  match l with
  | [] => ret tt
  | x :: l' => body x ;;; for_each l' body
  end.

Definition ctx_info (msg : string) : M unit :=
  fun w => (Ok tt, {| transcripts := transcripts w; disk := disk w;
                      api_calls := api_calls w; http_calls := http_calls w;
                      ctx_log := (ctx_log w ++ [(INFO, msg)])%list |}).

Definition ctx_error (msg : string) : M unit :=
  fun w => (Ok tt, {| transcripts := transcripts w; disk := disk w;
                      api_calls := api_calls w; http_calls := http_calls w;
                      ctx_log := (ctx_log w ++ [(ERROR, msg)])%list |}).

(* ================================================================== *)
(** * The cache store *)

Module TranscriptCache.
Import PyStr.

Section WithHost.
Variable H : Host.

Definition set_transcripts (t : list (string * TranscriptInfo)) : M unit :=
  fun w => (Ok tt, {| transcripts := t; disk := disk w;
                      api_calls := api_calls w; http_calls := http_calls w;
                      ctx_log := ctx_log w |}).

Definition set_disk (d : PosixFile.files) : M unit :=
  fun w => (Ok tt, {| transcripts := transcripts w; disk := d;
                      api_calls := api_calls w; http_calls := http_calls w;
                      ctx_log := ctx_log w |}).

(** [with open(path, "w", encoding="utf-8") as f: f.write(content)]. *)
Definition write_file (path content : string) : M unit :=
  fun w =>
    match open_error H path with
    | Some msg => (Raise OSError msg, w)
    | None => set_disk (PosixFile.file_set (place_of H path) content (disk w)) w
    end.

(** [with open(path, "r", encoding="utf-8") as f: f.read()]. *)
Definition read_file (path : string) : M string :=
  fun w =>
    match PosixFile.file_get (place_of H path) (disk w) with
    | Some content => (Ok (PosixFile.universal_newlines content), w)
    | None => (Raise OSError ("No such file or directory: " ++ path), w)
    end.

(** [os.path.exists(path)]. *)
Definition path_exists (path : string) : M bool :=
  fun w => (Ok (PosixFile.exists_at (place_of H path) (disk w)), w).

(** [os.listdir(path)]. *)
Definition listdir (path : string) : M (list string) :=
  fun w => (Ok (PosixFile.children (place_of H path) (disk w)), w).

Definition get (video_id : string) : M (option TranscriptInfo) :=
  fun w => (Ok (dict_get video_id (transcripts w)), w).

Definition text_truthy (info : TranscriptInfo) : bool :=
  match text info with
  | Some t => truthy t
  | None => false
  end.

Definition _save_to_disk (info : TranscriptInfo) : M unit :=
  match text info with
  | Some t =>
      if truthy t then
        let file_path :=
          PosixFile.join TRANSCRIPT_CACHE_DIR (video_id info ++ ".txt") in
        write_file file_path t ;;;
        match video_info info with
        | Some vi =>
            let meta_path :=
              PosixFile.join TRANSCRIPT_CACHE_DIR (video_id info ++ "_meta.json") in
            write_file meta_path
              (json_dump H [("title", title vi); ("channel", channel vi)])
        | None => ret tt
        end
      else ret tt
  | None => ret tt
  end.

Definition add (info : TranscriptInfo) : M unit :=
  (fun w => set_transcripts (dict_set (video_id info) info (transcripts w)) w) ;;;
  _save_to_disk info.

Definition list_all : M (list TranscriptInfo) :=
  fun w => (Ok (map snd (transcripts w)), w).

(** [meta.get(key, default)] on what [json.load] returned. *)
Definition meta_get (meta : json_doc) (key default : string) : M string :=
  match meta with
  | JsonObject members =>
      ret (match dict_get key members with Some v => v | None => default end)
  | JsonOther => raise AttributeError "object has no attribute 'get'"
  | JsonRaises c msg => raise c msg
  end.

Definition load_metadata (video_id meta_path : string) : M (option VideoInfo) :=
  try_except
    (content <- read_file meta_path ;;
     match json_load H content with
     | JsonRaises c msg => raise c msg
     | meta =>
         t <- meta_get meta "title" "Unknown Title" ;;
         c <- meta_get meta "channel" "Unknown Channel" ;;
         ret (Some {| vi_video_id := video_id; title := t; channel := c |})
     end)
    (fun c => match c with JSONDecodeError | KeyError => true | _ => false end)
    (fun _ => ret None).

Definition load_one (filename : string) : M unit :=
  if endswith ".txt" filename && negb (endswith "_meta.txt" filename) then
    let video_id := replace ".txt" "" filename in
    let file_path := PosixFile.join TRANSCRIPT_CACHE_DIR filename in
    text <- read_file file_path ;;
    let meta_path := PosixFile.join TRANSCRIPT_CACHE_DIR (video_id ++ "_meta.json") in
    has_meta <- path_exists meta_path ;;
    video_info <- (if has_meta : bool then load_metadata video_id meta_path
                   else ret None) ;;
    let info := {| video_id := video_id; video_info := video_info;
                   text := Some text |} in
    fun w => set_transcripts (dict_set video_id info (transcripts w)) w
  else ret tt.

(** [os.path.exists(TRANSCRIPT_CACHE_DIR)]: the directory is made when
    the module is loaded. *)
Definition cache_dir_exists : M bool := ret true.

Definition load_from_disk : M unit :=
  present <- cache_dir_exists ;;
  if negb present then ret tt
  else
    names <- listdir TRANSCRIPT_CACHE_DIR ;;
    for_each names load_one.

End WithHost.
End TranscriptCache.

(** [TranscriptCache()] over the files already in the cache directory. *)
Definition fresh_cache (w : World) : World :=
  {| transcripts := []; disk := disk w; api_calls := api_calls w;
     http_calls := http_calls w; ctx_log := ctx_log w |}.

(** [app_lifespan]: a new cache, filled from the cache directory. *)
Definition app_lifespan (H : Host) (w : World) : Outcome unit * World :=
  TranscriptCache.load_from_disk H (fresh_cache w).

(* ================================================================== *)
(** * Formatting *)

Module Format.

(** [str(n)] for an integer [n]. *)
Definition decimal (n : Z) : string := NilZero.string_of_int (Z.to_int n).

Fixpoint zeros (n : nat) : string :=
  match n with
  | O => EmptyString
  | S n' => String "0" (zeros n')
  end.

(** [format(n, "0<width>d")]: the zeros go between the sign and the
    digits, up to [width] characters in all. *)
Definition zero_padded (width : nat) (n : Z) : string :=
  let sign := if (n <? 0)%Z then "-" else EmptyString in
  let digits := decimal (Z.abs n) in
  sign ++ zeros (width - String.length sign - String.length digits) ++ digits.

(** [x // y] and [x % y] on floats, by exact value. *)
Definition floordiv (x y : Q) : Q := inject_Z (Qfloor (x / y)).
Definition modulo (x y : Q) : Q := x - y * inject_Z (Qfloor (x / y)).

(** [int(x)]: truncation towards zero. *)
Definition int (x : Q) : Z :=
  if Qle_bool 0 x then Qfloor x else Qceiling x.

Definition timestamp (start : Q) : string :=
  let minutes := int (floordiv start 60) in
  let seconds := int (modulo start 60) in
  "[" ++ zero_padded 2 minutes ++ ":" ++ zero_padded 2 seconds ++ "]".

Definition format_entry (entry : Entry) : string :=
  timestamp (entry_start entry) ++ " " ++ entry_text entry ++ String PyStr.LF EmptyString.

Definition format_entries (transcript_list : list Entry) : string :=
  fold_left (fun acc entry => acc ++ format_entry entry) transcript_list EmptyString.

Definition header (vi : VideoInfo) (video_id : string) : string :=
  let nl := String PyStr.LF EmptyString in
  ("Title: " ++ title vi ++ nl)
  ++ ("Channel: " ++ channel vi ++ nl)
  ++ ("Video ID: " ++ video_id ++ nl ++ nl)
  ++ ("TRANSCRIPT:" ++ nl).

End Format.

(** ** Binary64 arithmetic

    CPython's float [//] and [%] ([_float_div_mod] and [float_rem] of
    [floatobject.c]) over an arithmetic that rounds its results with [rnd];
    [fmod] of C is exact. *)
Module Binary64.
Import Format.

Section Rounded.
Variable rnd : Q -> Q.

Definition Qlt_bool (x y : Q) : bool := negb (Qle_bool y x).

Definition fmod (x y : Q) : Q := x - y * inject_Z (int (x / y)).

Definition float_rem (vx wx : Q) : Q :=
  let r := fmod vx wx in
  if negb (Qeq_bool r 0) then
    if xorb (Qlt_bool wx 0) (Qlt_bool r 0) then rnd (r + wx) else r
  else 0.

Definition float_floor_div (vx wx : Q) : Q :=
  let r := fmod vx wx in
  let div := rnd (rnd (vx - r) / wx) in
  let div :=
    if negb (Qeq_bool r 0) && xorb (Qlt_bool wx 0) (Qlt_bool r 0)
    then rnd (div - 1) else div in
  if negb (Qeq_bool div 0) then
    let floordiv := inject_Z (Qfloor div) in
    if Qlt_bool (1 # 2) (rnd (div - floordiv)) then rnd (floordiv + 1) else floordiv
  else 0.

Definition timestamp_rounded (start : Q) : string :=
  let minutes := int (float_floor_div start 60) in
  let seconds := int (float_rem start 60) in
  ("[" ++ zero_padded 2 minutes ++ ":" ++ zero_padded 2 seconds ++ "]")%string.

End Rounded.

(** Integers up to [2^53] are binary64 numbers: no operation rounds them. *)
Definition exact_on_integers (rnd : Q -> Q) : Prop :=
  forall (q : Q) (n : Z),
    q == inject_Z n -> (Z.abs n <= 2 ^ 53)%Z -> rnd q == inject_Z n.

End Binary64.


(* ================================================================== *)
(** * Providers and pipeline *)

Section Server.
Variable L : UrlLib.
Variable H : Host.

(** [YouTubeTranscriptApi.get_transcript(video_id)]. *)
Definition fetch_transcript (video_id : string) : M (list Entry) :=
  fun w =>
    (youtube_get_transcript H (api_calls w) video_id,
     {| transcripts := transcripts w; disk := disk w;
        api_calls := S (api_calls w); http_calls := http_calls w;
        ctx_log := ctx_log w |}).

(** [await client.get(url)]. *)
Definition client_get (url : string) : M http_reply :=
  fun w =>
    (Ok (http_get H (http_calls w) url),
     {| transcripts := transcripts w; disk := disk w;
        api_calls := api_calls w; http_calls := S (http_calls w);
        ctx_log := ctx_log w |}).

Definition oembed_url (video_id : string) : string :=
  "https://www.youtube.com/oembed?url=https://www.youtube.com/watch?v="
  ++ video_id ++ "&format=json".

Definition get_video_info (video_id : string) : M VideoInfo :=
  let url := oembed_url video_id in
  response <- client_get url ;;
  match response with
  | HttpRaises msg => raise TransportError msg
  | HttpResponse status_code body =>
      if Nat.eqb status_code 200 then
        let data := json_load H body in
        t <- TranscriptCache.meta_get data "title" "Unknown Title" ;;
        c <- TranscriptCache.meta_get data "author_name" "Unknown Channel" ;;
        ret {| vi_video_id := video_id; title := t; channel := c |}
      else
        ret {| vi_video_id := video_id; title := "Unknown"; channel := "Unknown" |}
  end.

(** The body of the [try] of [get_transcript]. *)
Definition download_and_cache (video_id : string) : M string :=
  transcript_list <- fetch_transcript video_id ;;
  let formatted_transcript := Format.format_entries transcript_list in
  video_info <- get_video_info video_id ;;
  let full_transcript := Format.header video_info video_id ++ formatted_transcript in
  let info := {| video_id := video_id; video_info := Some video_info;
                 text := Some full_transcript |} in
  TranscriptCache.add H info ;;;
  ret full_transcript.

(** The text of a cached record that can be served. *)
Definition servable (cached_info : option TranscriptInfo) : option string :=
  match cached_info with
  | Some info =>
      match text info with
      | Some t => if PyStr.truthy t then Some t else None
      | None => None
      end
  | None => None
  end.

Definition get_transcript (video_id : string) : M string :=
  cached_info <- TranscriptCache.get video_id ;;
  match servable cached_info with
  | Some t =>
      ctx_info ("Returning cached transcript for video " ++ video_id) ;;;
      ret t
  | None =>
      ctx_info ("Downloading transcript for video " ++ video_id) ;;;
      try_except (download_and_cache video_id) (fun _ => true)
        (fun e =>
           let error_msg := "Error retrieving transcript: " ++ e in
           ctx_error error_msg ;;;
           ret error_msg)
  end.

Definition download_transcript (youtube_url : string) : M string :=
  try_except
    (video_id <- lift (extract_video_id L youtube_url) ;;
     get_transcript video_id)
    is_ValueError
    (fun e =>
       ctx_error ("Invalid YouTube URL: " ++ e) ;;;
       ret ("Error: " ++ e)).

(** The resource [transcript://{video_id}]. *)
Definition get_transcript_resource (video_id : string) : M string :=
  get_transcript video_id.

End Server.

(* ================================================================== *)
(** * Listing *)

(** The lines that [list_available_transcripts] adds for the record
    numbered [i]. *)
Definition listing_entry (i : nat) (info : TranscriptInfo) : string :=
  let nl := String PyStr.LF EmptyString in
  let title := match video_info info with
               | Some vi => title vi
               | None => "Unknown Title"
               end in
  let channel := match video_info info with
                 | Some vi => channel vi
                 | None => "Unknown Channel"
                 end in
  (Format.decimal (Z.of_nat i) ++ ". " ++ title ++ nl)
  ++ ("   Channel: " ++ channel ++ nl)
  ++ ("   ID: " ++ video_id info ++ nl).

(** [for i, info in enumerate(transcripts, i): result += ...]. *)
Fixpoint listing_from (i : nat) (transcripts : list TranscriptInfo) (result : string)
  : string :=
  match transcripts with
  | [] => result
  | info :: rest => listing_from (S i) rest (result ++ listing_entry i info)
  end.

Definition list_available_transcripts : M string :=
  transcripts <- TranscriptCache.list_all ;;
  match transcripts with
  | [] => ret "No transcripts have been downloaded yet."
  | _ =>
      ret (listing_from 1 transcripts
             ("Available Transcripts:" ++ String PyStr.LF (String PyStr.LF EmptyString)))
  end.

(** The resource [transcripts://list]. *)
Definition list_transcripts_resource : M string := list_available_transcripts.

(* ================================================================== *)
(** * Concrete collaborators, for examples *)

Module Demo.
Import PyStr.

(** A [urllib.parse] without the checks that need other modules. *)
Definition lib : UrlLib :=
  {| bracketed_netloc_error := fun _ => None;
     nfkc_netloc_error := fun _ => None;
     utf8_decode := fun s => s |}.

(** The character U+2100 (account of) in UTF-8; NFKC makes ["a/c"] of
    it. *)
Definition account_of : string :=
  String (ascii_of_nat 226) (String (ascii_of_nat 132)
    (String (ascii_of_nat 128) EmptyString)).

(** A [urllib.parse] whose NFKC check knows this character. *)
Definition nfkc_lib : UrlLib :=
  {| bracketed_netloc_error := fun _ => None;
     nfkc_netloc_error :=
       fun netloc =>
         if contains account_of netloc
         then Some ("netloc '" ++ netloc
                    ++ "' contains invalid characters under NFKC normalization")
         else None;
     utf8_decode := fun s => s |}.

Definition dq : string := String (ascii_of_nat 34) EmptyString.

(** [json.dump] of a flat object whose strings need no escape. *)
Definition dump (members : list (string * string)) : string :=
  "{" ++ String.concat ", "
           (map (fun kv => dq ++ fst kv ++ dq ++ ": " ++ dq ++ snd kv ++ dq) members)
      ++ "}".

Definition quoted (s : string) : option (string * string) :=
  match s with
  | String c rest => if Ascii.eqb c (ascii_of_nat 34) then partition (ascii_of_nat 34) rest else None
  | EmptyString => None
  end.

Definition after (p s : string) : option string :=
  if String.prefix p s
  then Some (String.substring (String.length p) (String.length s - String.length p) s)
  else None.

Fixpoint members_of (fuel : nat) (s : string) : option (list (string * string)) :=
  match fuel with
  | O => None
  | S fuel' =>
      match quoted s with
      | Some (k, s1) =>
          match after ": " s1 with
          | Some s2 =>
              match quoted s2 with
              | Some (v, s3) =>
                  if String.eqb s3 "}" then Some [(k, v)]
                  else match after ", " s3 with
                       | Some s4 =>
                           match members_of fuel' s4 with
                           | Some l => Some ((k, v) :: l)
                           | None => None
                           end
                       | None => None
                       end
              | None => None
              end
          | None => None
          end
      | None => None
      end
  end.

(** [json.load] for the texts of the examples: flat objects of plain
    strings, and the values [[]] and [null]. *)
Definition load (s : string) : json_doc :=
  if String.eqb s "{}" then JsonObject []
  else if String.eqb s "[]" || String.eqb s "null" then JsonOther
  else match after "{" s with
       | Some r =>
           match members_of (String.length s) r with
           | Some l => JsonObject l
           | None => JsonRaises JSONDecodeError "Expecting property name"
           end
       | None => JsonRaises JSONDecodeError "Expecting value"
       end.

(** The working directory of the examples, and their cache directory. *)
Definition working_directory : string := "/srv/app".

Definition cache_dir : PosixFile.place := ["srv"; "app"; "transcript_cache"].

Definition segments : list Entry :=
  [ {| entry_start := 0; entry_text := "Hello" |};
    {| entry_start := 65; entry_text := "World" |} ].

Definition oembed_body : string :=
  dump [("title", "Some Video"); ("author_name", "Some Channel")].

(** Both providers answer, every file can be written. *)
Definition host : Host :=
  {| youtube_get_transcript := fun _ _ => Ok segments;
     http_get := fun _ _ => HttpResponse 200 oembed_body;
     json_load := load;
     json_dump := dump;
     open_error := fun _ => None;
     cwd := working_directory |}.

(** The transcript provider has no captions. *)
Definition no_captions : Host :=
  {| youtube_get_transcript := fun _ _ => Raise ProviderError "no captions";
     http_get := http_get host;
     json_load := load;
     json_dump := dump;
     open_error := fun _ => None;
     cwd := working_directory |}.

(** The transcript provider fails on its first call only. *)
Definition flaky : Host :=
  {| youtube_get_transcript :=
       fun n _ => match n with
                  | O => Raise ProviderError "connection reset"
                  | S _ => Ok segments
                  end;
     http_get := http_get host;
     json_load := load;
     json_dump := dump;
     open_error := fun _ => None;
     cwd := working_directory |}.

(** The metadata request cannot reach the network. *)
Definition offline_metadata : Host :=
  {| youtube_get_transcript := fun _ _ => Ok segments;
     http_get := fun _ _ => HttpRaises "connection refused";
     json_load := load;
     json_dump := dump;
     open_error := fun _ => None;
     cwd := working_directory |}.

(** The metadata service answers with an error status. *)
Definition metadata_404 : Host :=
  {| youtube_get_transcript := fun _ _ => Ok segments;
     http_get := fun _ _ => HttpResponse 404 "Not Found";
     json_load := load;
     json_dump := dump;
     open_error := fun _ => None;
     cwd := working_directory |}.

(** The captions hold a carriage return. *)
Definition carriage_return : Host :=
  {| youtube_get_transcript :=
       fun _ _ => Ok [ {| entry_start := 0; entry_text := String CR "Hello" |} ];
     http_get := http_get host;
     json_load := load;
     json_dump := dump;
     open_error := fun _ => None;
     cwd := working_directory |}.

Definition short_link : string := "https://youtu.be/dQw4w9WgXcQ".

Definition empty_world : World :=
  {| transcripts := []; disk := []; api_calls := 0; http_calls := 0; ctx_log := [] |}.

(** No file can be written. *)
Definition read_only : Host :=
  {| youtube_get_transcript := fun _ _ => Ok segments;
     http_get := http_get host;
     json_load := load;
     json_dump := dump;
     open_error := fun _ => Some "Read-only file system";
     cwd := working_directory |}.

(** The text files can be written, the metadata files cannot. *)
Definition metadata_read_only : Host :=
  {| youtube_get_transcript := fun _ _ => Ok segments;
     http_get := http_get host;
     json_load := load;
     json_dump := dump;
     open_error := fun name => if endswith "_meta.json" name
                               then Some "Permission denied" else None;
     cwd := working_directory |}.

Definition record : TranscriptInfo :=
  {| video_id := "dQw4w9WgXcQ";
     video_info := Some {| vi_video_id := "dQw4w9WgXcQ"; title := "T"; channel := "C" |};
     text := Some "Title: T" |}.

(** A session with one cached record and nothing on disk. *)
Definition one_record : World :=
  {| transcripts := [("dQw4w9WgXcQ", record)]; disk := []; api_calls := 0;
     http_calls := 0; ctx_log := [] |}.

(** A file system whose files are the files [files] of the cache
    directory, given by name. *)
Definition directory (files : list (string * string)) : World :=
  {| transcripts := [];
     disk := map (fun kv => ((cache_dir ++ [fst kv])%list, snd kv)) files;
     api_calls := 0; http_calls := 0; ctx_log := [] |}.

End Demo.

(* ================================================================== *)
(** * Statements of the specification *)

Module Spec.
Import PyStr UrlParse.

(** "The query parameter named [v] is absent or empty": no field of the
    query names [v] with a value that is not empty. *)
Definition names_v (L : UrlLib) (name_value : string) : bool :=
  match partition "=" name_value with
  | Some (n, v) => truthy v && String.eqb (unquote L (replace_char "+" " " n)) "v"
  | None => false
  end.

Definition v_absent_or_empty (L : UrlLib) (qs : string) : bool :=
  negb (existsb (names_v L) (split "&" qs)).

(** "Exactly 11 characters drawn from letters, digits, [_], [-]". *)
Definition canonical_id (vid : string) : bool :=
  Nat.eqb (String.length vid) 11 && forallb id_char vid.

(** The standard-link forms: scheme and main-site host, then
    ["/watch?v="] and the identifier. *)
Definition standard_prefixes : list string :=
  ["https://www.youtube.com"; "https://youtube.com"; "https://m.youtube.com";
   "http://www.youtube.com"; "http://youtube.com"; "http://m.youtube.com"].

(** A reference in ASCII without square brackets. *)
Definition plain_char (c : ascii) : bool :=
  is_ascii c && negb (Ascii.eqb c "[") && negb (Ascii.eqb c "]").

Definition plain_url (url : string) : bool := forallb plain_char url.

(** The host text of a reference, as the URL parser takes it: what
    follows ["//"] after the scheme, up to the next ["/"], ["?"] or
    ["#"]; none for a reference without ["//"] there. *)
Definition host_text (url : string) : option string :=
  let url := lstrip c0_control_or_space url in
  let url := remove LF (remove CR (remove TAB url)) in
  let (_, rest) := split_scheme url in
  if startswith "//" rest then Some (fst (splitnetloc rest)) else None.

(** The ways in which the URL parser rejects a host text, with the
    message of its [ValueError]: one square bracket without the other;
    square brackets around what is no IP address; characters outside
    ASCII that the NFKC check refuses. *)
Definition rejected_host (L : UrlLib) (host msg : string) : Prop :=
  (xorb (mem "[" host) (mem "]" host) = true /\ msg = "Invalid IPv6 URL")
  \/ (mem "[" host = true /\ mem "]" host = true
      /\ bracketed_netloc_error L host = Some msg)
  \/ (forallb is_ascii host = false /\ nfkc_netloc_error L host = Some msg).

(** "minutes = floor(start-offset / 60)", "seconds = floor(start-offset
    mod 60)". *)
Definition minutes_of (start : Q) : Z := Qfloor (start / 60).
Definition seconds_of (start : Q) : Z :=
  Qfloor (start - 60 * inject_Z (Qfloor (start / 60))).

Definition digit (d : Z) : ascii := ascii_of_N (48 + Z.to_N d).

(** "Zero-padded to two digits": the tens and the units of a number
    below one hundred. *)
Definition two_digits (n : Z) : string :=
  String (digit (n / 10)) (String (digit (n mod 10)) EmptyString).

(** "[MM:SS]" for a start offset: the minutes and the seconds, each with
    two digits (the minutes with all their digits from one hundred
    on). *)
Definition stamp (start : Q) : string :=
  let mm := minutes_of start in
  let ss := seconds_of start in
  "[" ++ (if (mm <? 100)%Z then two_digits mm else Format.decimal mm)
      ++ ":" ++ two_digits ss ++ "]".

(** What the formatter is to render: for each segment, in order, its
    timestamp, a space, its text and a line feed. *)
Definition line (entry : Entry) : string :=
  stamp (entry_start entry) ++ " " ++ entry_text entry ++ String LF EmptyString.

Fixpoint lines (segments : list Entry) : string :=
  match segments with
  | [] => EmptyString
  | entry :: rest => line entry ++ lines rest
  end.

(** The [try] block of [get_transcript] raises: the call for
    [video_id] ends in the handler, with an error message. *)
Definition fetch_stage_raises (H : Host) (video_id : string) (w : World) : bool :=
  match servable (dict_get video_id (transcripts w)) with
  | Some _ => false
  | None =>
      match fst (download_and_cache H video_id
                   (snd (ctx_info ("Downloading transcript for video " ++ video_id) w))) with
      | Ok _ => false
      | Raise _ _ => true
      end
  end.

(** The cache directory of [H] holds the files [entries] and nothing
    else: its listing gives their names, in this order, and the file
    that each name opens in the cache directory holds the content; what
    lies elsewhere in the file system is free. *)
Definition cache_holds (H : Host) (d : PosixFile.files)
  (entries : list (string * string)) : Prop :=
  PosixFile.children (cache_dir H) d = map fst entries
  /\ forall name content,
       In (name, content) entries ->
       PosixFile.file_get (cache_file H name) d = Some content.

(** The files of [vid] in a cache directory that holds its text file
    and, under [meta], its metadata file, and nothing else. *)
Definition files_of (vid t : string) (meta : option string)
  : list (string * string) :=
  (vid ++ ".txt", t)
  :: match meta with
     | Some content => [(vid ++ "_meta.json", content)]
     | None => []
     end.

(** The state [w] with the records [records] in the in-memory map. *)
Definition loaded (w : World) (records : list (string * TranscriptInfo)) : World :=
  {| transcripts := records; disk := disk w; api_calls := api_calls w;
     http_calls := http_calls w; ctx_log := ctx_log w |}.

Definition member_or (members : list (string * string)) (key default : string) : string :=
  match dict_get key members with Some v => v | None => default end.

(** What rehydration makes of a metadata artifact: the [VideoInfo] of an
    object, no [VideoInfo] for a text that is not JSON, and an exception
    that ends the rehydration otherwise. *)
Definition metadata_of (vid : string) (meta : json_doc) : Outcome (option VideoInfo) :=
  match meta with
  | JsonObject members =>
      Ok (Some {| vi_video_id := vid;
                  title := member_or members "title" "Unknown Title";
                  channel := member_or members "channel" "Unknown Channel" |})
  | JsonRaises c msg =>
      match c with
      | JSONDecodeError | KeyError => Ok None
      | _ => Raise c msg
      end
  | JsonOther => Raise AttributeError "object has no attribute 'get'"
  end.

(** The text of a formatted transcript: header, then one line per
    segment. *)
Definition formatted (t : string) : Prop :=
  exists vi video_id transcript_list,
    t = Format.header vi video_id ++ Format.format_entries transcript_list.

End Spec.

(* ================================================================== *)
(** * Rehydration, read off the directory *)

(** The record that [TranscriptCache.load_one] makes of the directory
    entry [filename] when the file system holds [d]; none for a name that
    it skips. *)
Definition record_of (H : Host) (d : PosixFile.files) (filename : string)
  : Outcome (option (string * TranscriptInfo)) :=
  if PyStr.endswith ".txt" filename && negb (PyStr.endswith "_meta.txt" filename) then
    let vid := PyStr.replace ".txt" "" filename in
    match PosixFile.file_get (cache_file H filename) d with
    | None => Raise OSError ("No such file or directory: " ++ cache_path filename)
    | Some t =>
        omap (fun vi => Some (vid, {| video_id := vid; video_info := vi;
                                      text := Some (PosixFile.universal_newlines t) |}))
          (if PosixFile.exists_at (cache_file H (vid ++ "_meta.json")) d
           then match PosixFile.file_get (cache_file H (vid ++ "_meta.json")) d with
                | Some content =>
                    Spec.metadata_of vid
                      (json_load H (PosixFile.universal_newlines content))
                | None =>
                    Raise OSError ("No such file or directory: "
                                   ++ cache_path (vid ++ "_meta.json"))
                end
           else Ok None)
    end
  else Ok None.

(** The records of the entries [names], in the order of the listing, up
    to the first entry that raises. *)
Fixpoint records_of (H : Host) (d : PosixFile.files) (names : list string)
  : Outcome (list (string * TranscriptInfo)) :=
  match names with
  | [] => Ok []
  | f :: rest =>
      obind (record_of H d f) (fun r =>
        omap (fun l => match r with Some kv => kv :: l | None => l end)
             (records_of H d rest))
  end.

(** [d[k] = v], for the pair [(k, v)]. *)
Definition put {V} (d : list (string * V)) (kv : string * V) : list (string * V) :=
  dict_set (fst kv) (snd kv) d.

(** The value that the assignments [l], made in order, leave at [k]. *)
Fixpoint last_value {V} (l : list (string * V)) (k : string) : option V :=
  match l with
  | [] => None
  | (k', v) :: l' =>
      match last_value l' k with
      | Some x => Some x
      | None => if String.eqb k' k then Some v else None
      end
  end.

(** Links of the main site that carry the identifier in the path. *)
Definition non_watch_prefixes : list string :=
  ["https://www.youtube.com/embed/"; "https://www.youtube.com/shorts/";
   "https://www.youtube.com/live/"; "https://www.youtube.com/v/"].

(* ================================================================== *)
(** * Facts about strings and dicts *)

Section DictFacts.
Context {V : Type}.
Implicit Types (d : list (string * V)) (k : string) (v : V).

Lemma dict_get_set_same k v d : dict_get k (dict_set k v d) = Some v.
Proof.
  induction d as [|[k' v'] d IH]; simpl.
  - now rewrite String.eqb_refl.
  - destruct (String.eqb k' k) eqn:E; simpl.
    + now rewrite String.eqb_refl.
    + now rewrite E.
Qed.

Lemma dict_get_set_other k k' v d :
  k' <> k -> dict_get k (dict_set k' v d) = dict_get k d.
Proof.
  intros Hne. induction d as [|[k0 v0] d IH]; simpl.
  - destruct (String.eqb k' k) eqn:E; [apply String.eqb_eq in E; contradiction | reflexivity].
  - destruct (String.eqb k0 k') eqn:E0; simpl.
    + apply String.eqb_eq in E0; subst k0.
      destruct (String.eqb k' k) eqn:E; [apply String.eqb_eq in E; contradiction | reflexivity].
    + destruct (String.eqb k0 k); [reflexivity | exact IH].
Qed.

Lemma dict_set_Forall (P : string * V -> Prop) k v d :
  P (k, v) -> Forall P d -> Forall P (dict_set k v d).
Proof.
  intros Hkv Hd. induction Hd as [|[k' v'] d Hx Hd IH]; simpl.
  - constructor; [exact Hkv | constructor].
  - destruct (String.eqb k' k); constructor; assumption.
Qed.

Lemma dict_get_Forall (P : string * V -> Prop) k v d :
  Forall P d -> dict_get k d = Some v -> exists k', P (k', v).
Proof.
  induction 1 as [|[k' v'] d Hx Hd IH]; simpl; [discriminate|].
  destruct (String.eqb k' k); [|exact IH].
  intros [= <-]. now exists k'.
Qed.

End DictFacts.

Module PyStrFacts.
Import PyStr.

Section Forallb.
Variable p : ascii -> bool.

Lemma forallb_lstrip q s : forallb p s = true -> forallb p (lstrip q s) = true.
Proof.
  induction s as [|c s IH]; simpl; [reflexivity|].
  intros Hs. apply andb_prop in Hs as [Hc Hs].
  destruct (q c); [auto | simpl; now rewrite Hc, Hs].
Qed.

Lemma forallb_remove c s : forallb p s = true -> forallb p (remove c s) = true.
Proof.
  induction s as [|d s IH]; simpl; [reflexivity|].
  intros Hs. apply andb_prop in Hs as [Hd Hs].
  destruct (Ascii.eqb d c); [auto | simpl; now rewrite Hd, IH].
Qed.

Lemma forallb_partition c s a b :
  partition c s = Some (a, b) -> forallb p s = true ->
  forallb p a = true /\ forallb p b = true.
Proof.
  revert a b. induction s as [|d s IH]; simpl; [discriminate|].
  intros a b Hpart Hs. apply andb_prop in Hs as [Hd Hs].
  destruct (Ascii.eqb d c).
  - injection Hpart as <- <-. auto.
  - destruct (partition c s) as [[a' b']|]; [|discriminate].
    injection Hpart as <- <-.
    destruct (IH a' b' eq_refl Hs) as [Ha Hb].
    simpl. now rewrite Hd, Ha.
Qed.

Lemma forallb_span_until stop s a b :
  span_until stop s = (a, b) -> forallb p s = true ->
  forallb p a = true /\ forallb p b = true.
Proof.
  revert a b. induction s as [|c s IH]; simpl.
  - intros a b [= <- <-]. auto.
  - intros a b Hspan Hs. pose proof Hs as Hcs.
    apply andb_prop in Hs as [Hc Hs].
    destruct (stop c).
    + injection Hspan as <- <-. simpl. now rewrite Hc, Hs.
    + destruct (span_until stop s) as [a' b'].
      injection Hspan as <- <-.
      destruct (IH a' b' eq_refl Hs) as [Ha Hb].
      simpl. now rewrite Hc, Ha.
Qed.

Lemma forallb_mem c s : forallb p s = true -> p c = false -> mem c s = false.
Proof.
  induction s as [|d s IH]; simpl; [reflexivity|].
  intros Hs Hc. apply andb_prop in Hs as [Hd Hs].
  rewrite (IH Hs Hc), orb_false_r.
  destruct (Ascii.eqb c d) eqn:E; [|reflexivity].
  apply Ascii.eqb_eq in E. subst d. congruence.
Qed.

Lemma forallb_weaken (q : ascii -> bool) s :
  (forall c, p c = true -> q c = true) ->
  forallb p s = true -> forallb q s = true.
Proof.
  intros Hpq. induction s as [|c s IH]; simpl; [reflexivity|].
  intros Hs. apply andb_prop in Hs as [Hc Hs].
  now rewrite (Hpq c Hc), IH.
Qed.

End Forallb.

Lemma contains_prefix needle s : String.prefix needle s = true -> contains needle s = true.
Proof. destruct s; simpl; intros ->; reflexivity. Qed.

End PyStrFacts.

Module AppendFacts.
Import PyStr.

Lemma append_assoc (a b c : string) : (a ++ b) ++ c = a ++ (b ++ c).
Proof. induction a as [|x a IH]; simpl; [reflexivity | now rewrite IH]. Qed.

Lemma append_empty (a : string) : a ++ EmptyString = a.
Proof. induction a as [|x a IH]; simpl; [reflexivity | now rewrite IH]. Qed.

Lemma remove_append d a b : remove d (a ++ b) = remove d a ++ remove d b.
Proof.
  induction a as [|c a IH]; simpl; [reflexivity|].
  destruct (Ascii.eqb c d); simpl; now rewrite IH.
Qed.

Lemma forallb_append q a b : forallb q (a ++ b) = forallb q a && forallb q b.
Proof.
  induction a as [|c a IH]; simpl; [reflexivity|]. now rewrite IH, andb_assoc.
Qed.

End AppendFacts.

Module UrlFacts.
Import PyStr UrlParse PyStrFacts Spec.

Section WithLib.
Variable L : UrlLib.

Lemma split_scheme_forallb p url sch rest :
  split_scheme url = (sch, rest) -> forallb p url = true -> forallb p rest = true.
Proof.
  unfold split_scheme. intros Hsplit Hurl.
  destruct (partition ":" url) as [[head tail]|] eqn:Hpart.
  - destruct (forallb_partition p _ _ Hpart Hurl) as [_ Htail].
    destruct head as [|c0 head'].
    + injection Hsplit as <- <-. exact Hurl.
    + destruct (is_ascii c0 && is_ascii_alpha c0 && forallb scheme_char (String c0 head'));
        injection Hsplit as <- <-; assumption.
  - injection Hsplit as <- <-. exact Hurl.
Qed.

Lemma splitnetloc_forallb p url nl rest :
  splitnetloc url = (nl, rest) -> forallb p url = true ->
  forallb p nl = true /\ forallb p rest = true.
Proof.
  unfold splitnetloc. intros Hsplit Hurl.
  destruct url as [|c1 [|c2 url']].
  - injection Hsplit as <- <-. auto.
  - injection Hsplit as <- <-. auto.
  - simpl in Hurl. apply andb_prop in Hurl as [_ Hurl].
    apply andb_prop in Hurl as [_ Hurl].
    eapply forallb_span_until; eassumption.
Qed.

Lemma check_brackets_plain nl : forallb plain_char nl = true -> check_brackets L nl = Ok tt.
Proof.
  intros Hnl. unfold check_brackets.
  rewrite (forallb_mem plain_char "[" nl Hnl) by reflexivity.
  rewrite (forallb_mem plain_char "]" nl Hnl) by reflexivity.
  reflexivity.
Qed.

Lemma checknetloc_plain nl : forallb plain_char nl = true -> checknetloc L nl = Ok tt.
Proof.
  intros Hnl. unfold checknetloc.
  rewrite (forallb_weaken plain_char is_ascii nl); [now rewrite orb_true_r | | exact Hnl].
  intros c Hc. unfold plain_char in Hc.
  apply andb_prop in Hc as [Hc _]. now apply andb_prop in Hc as [Hc _].
Qed.

(** [urlsplit] raises nothing on a reference in ASCII without brackets. *)
Lemma urlsplit_plain url : plain_url url = true -> exists s, urlsplit L url = Ok s.
Proof.
  unfold plain_url, urlsplit. intros Hurl.
  pose proof (forallb_remove plain_char LF _
                (forallb_remove plain_char CR _
                   (forallb_remove plain_char TAB _
                      (forallb_lstrip plain_char c0_control_or_space _ Hurl)))) as Hclean.
  destruct (split_scheme _) as [sch rest] eqn:Hsch.
  pose proof (split_scheme_forallb plain_char _ Hsch Hclean) as Hrest.
  destruct (startswith "//" rest).
  - destruct (splitnetloc rest) as [nl rest'] eqn:Hnl.
    destruct (splitnetloc_forallb plain_char _ Hnl Hrest) as [Hplain _].
    rewrite (check_brackets_plain _ Hplain). simpl.
    destruct (partition "#" rest') as [[? ?]|];
      destruct (partition "?" _) as [[? ?]|];
      rewrite (checknetloc_plain _ Hplain); simpl; eauto.
  - simpl.
    destruct (partition "#" rest) as [[? ?]|];
      destruct (partition "?" _) as [[? ?]|]; simpl; eauto.
Qed.

Lemma urlparse_plain url : plain_url url = true -> exists r, urlparse L url = Ok r.
Proof.
  intros Hurl. destruct (urlsplit_plain url Hurl) as [s Hs].
  unfold urlparse. rewrite Hs. simpl.
  destruct (_ && _); [destruct (splitparams _)|]; eauto.
Qed.

(** Whatever [urlsplit] raises is a [ValueError]. *)
Lemma urlsplit_raises url c msg : urlsplit L url = Raise c msg -> c = ValueError.
Proof.
  unfold urlsplit.
  destruct (split_scheme _) as [sch rest].
  destruct (startswith "//" rest).
  - destruct (splitnetloc rest) as [nl rest'].
    unfold check_brackets, checknetloc.
    destruct (_ || _); simpl; [congruence|].
    destruct (_ && _); simpl.
    + destruct (bracketed_netloc_error L nl); simpl; [congruence|].
      destruct (partition "#" rest') as [[? ?]|];
        destruct (partition "?" _) as [[? ?]|];
        destruct (_ || _); simpl; try congruence;
        destruct (nfkc_netloc_error L nl); simpl; congruence.
    + destruct (partition "#" rest') as [[? ?]|];
        destruct (partition "?" _) as [[? ?]|];
        destruct (_ || _); simpl; try congruence;
        destruct (nfkc_netloc_error L nl); simpl; congruence.
  - simpl.
    destruct (partition "#" rest) as [[? ?]|];
      destruct (partition "?" _) as [[? ?]|]; simpl; congruence.
Qed.

(** [urlsplit] raises for the host text only, in one of three ways. *)
Lemma urlsplit_raises_host url c msg :
  urlsplit L url = Raise c msg ->
  exists host, Spec.host_text url = Some host /\ Spec.rejected_host L host msg.
Proof.
  unfold urlsplit, Spec.host_text, Spec.rejected_host.
  destruct (split_scheme _) as [sch rest].
  destruct (startswith "//" rest).
  - destruct (splitnetloc rest) as [nl rest']. cbn [fst].
    intros Hraise. exists nl. split; [reflexivity|].
    unfold check_brackets, checknetloc in Hraise.
    destruct (mem "[" nl) eqn:Hopen, (mem "]" nl) eqn:Hclose;
      cbn [andb orb negb obind xorb] in *;
      try (left; injection Hraise as <- <-; now split).
    + destruct (bracketed_netloc_error L nl) as [m|] eqn:Hb; cbn [obind] in Hraise.
      * injection Hraise as <- <-. right. left. repeat split; assumption.
      * right. right.
        destruct (partition "#" rest') as [[? ?]|];
          destruct (partition "?" _) as [[? ?]|];
          destruct (negb (truthy nl) || forallb is_ascii nl) eqn:Ha;
          cbn [obind] in Hraise; try discriminate;
          destruct (nfkc_netloc_error L nl) as [m|] eqn:Hn; cbn [obind] in Hraise;
          try discriminate;
          injection Hraise as <- <-;
          apply orb_false_elim in Ha as [_ Ha]; (split; [exact Ha | reflexivity]).
    + right. right.
      destruct (partition "#" rest') as [[? ?]|];
        destruct (partition "?" _) as [[? ?]|];
        destruct (negb (truthy nl) || forallb is_ascii nl) eqn:Ha;
        cbn [obind] in Hraise; try discriminate;
        destruct (nfkc_netloc_error L nl) as [m|] eqn:Hn; cbn [obind] in Hraise;
        try discriminate;
        injection Hraise as <- <-;
        apply orb_false_elim in Ha as [_ Ha]; (split; [exact Ha | reflexivity]).
  - cbn [obind].
    destruct (partition "#" rest) as [[? ?]|];
      destruct (partition "?" _) as [[? ?]|]; cbn; discriminate.
Qed.

(** And it raises for every host text that is rejected. *)
Lemma urlsplit_rejects url host msg :
  Spec.host_text url = Some host -> Spec.rejected_host L host msg ->
  exists msg', urlsplit L url = Raise ValueError msg'.
Proof.
  unfold urlsplit, Spec.host_text, Spec.rejected_host.
  destruct (split_scheme _) as [sch rest].
  destruct (startswith "//" rest); [|discriminate].
  destruct (splitnetloc rest) as [nl rest']. cbn [fst].
  intros [= ->] Hcause. unfold check_brackets, checknetloc.
  destruct (mem "[" host) eqn:Hopen, (mem "]" host) eqn:Hclose;
    cbn [andb orb negb obind xorb] in *;
    try (now exists "Invalid IPv6 URL").
  - destruct (bracketed_netloc_error L host) as [m|] eqn:Hb; cbn [obind];
      [now exists m|].
    destruct Hcause as [[? _]|[(_ & _ & ?)|[Ha Hn]]]; try discriminate.
    rewrite Ha, Hn, orb_false_r.
    assert (Ht : truthy host = true) by (destruct host; [discriminate|reflexivity]).
    rewrite Ht. cbn [negb].
    destruct (partition "#" rest') as [[? ?]|];
      destruct (partition "?" _) as [[? ?]|]; cbn [obind]; now exists msg.
  - destruct Hcause as [[? _]|[(? & _)|[Ha Hn]]]; try discriminate.
    rewrite Ha, Hn, orb_false_r.
    assert (Ht : truthy host = true) by (destruct host; [discriminate|reflexivity]).
    rewrite Ht. cbn [negb].
    destruct (partition "#" rest') as [[? ?]|];
      destruct (partition "?" _) as [[? ?]|]; cbn [obind]; now exists msg.
Qed.

Lemma urlparse_rejects url host msg :
  Spec.host_text url = Some host -> Spec.rejected_host L host msg ->
  exists msg', urlparse L url = Raise ValueError msg'.
Proof.
  intros Hhost Hcause.
  destruct (urlsplit_rejects url Hhost Hcause) as [msg' Hsplit].
  exists msg'. unfold urlparse. now rewrite Hsplit.
Qed.

Lemma urlparse_raises_host url c msg :
  urlparse L url = Raise c msg ->
  exists host, Spec.host_text url = Some host /\ Spec.rejected_host L host msg.
Proof.
  unfold urlparse. destruct (urlsplit L url) as [s|c' msg'] eqn:Hs; cbn [obind].
  - destruct (_ && _); [destruct (splitparams _)|]; discriminate.
  - intros [= <- <-]. eapply urlsplit_raises_host; eassumption.
Qed.

Lemma urlparse_raises url c msg : urlparse L url = Raise c msg -> c = ValueError.
Proof.
  unfold urlparse. destruct (urlsplit L url) as [s|c' msg'] eqn:Hs; simpl.
  - destruct (_ && _); [destruct (splitparams _)|]; discriminate.
  - intros [= <- <-]. eapply urlsplit_raises; eassumption.
Qed.

End WithLib.
End UrlFacts.

Module QueryFacts.
Import PyStr UrlParse Spec.

Section WithLib.
Variable L : UrlLib.

Lemma dict_append_other k d nv :
  fst nv <> k -> dict_get k (dict_append d nv) = dict_get k d.
Proof.
  intros Hne. unfold dict_append.
  destruct (dict_get (fst nv) d); now apply dict_get_set_other.
Qed.

Lemma fold_dict_append_absent k pairs : forall d,
  dict_get k d = None ->
  Forall (fun nv => fst nv <> k) pairs ->
  dict_get k (fold_left dict_append pairs d) = None.
Proof.
  induction pairs as [|nv pairs IH]; simpl; intros d Hd Hall; [exact Hd|].
  inversion Hall as [|? ? Hnv Hrest]; subst.
  apply IH; [|exact Hrest].
  now rewrite dict_append_other.
Qed.

Lemma dict_append_nonempty d nv :
  Forall (fun kv : string * list string => snd kv <> []) d ->
  Forall (fun kv : string * list string => snd kv <> []) (dict_append d nv).
Proof.
  intros Hd. unfold dict_append.
  destruct (dict_get (fst nv) d) as [vs|]; apply dict_set_Forall; simpl; auto.
  - destruct vs; discriminate.
  - discriminate.
Qed.

Lemma fold_dict_append_nonempty pairs : forall d,
  Forall (fun kv : string * list string => snd kv <> []) d ->
  Forall (fun kv : string * list string => snd kv <> [])
         (fold_left dict_append pairs d).
Proof.
  induction pairs as [|nv pairs IH]; simpl; intros d Hd; [exact Hd|].
  apply IH. now apply dict_append_nonempty.
Qed.

(** [parse_qs] never maps a name to an empty list. *)
Lemma parse_qs_nonempty qs k : dict_get k (parse_qs L qs) <> Some [].
Proof.
  intros Hget.
  destruct (dict_get_Forall (P := fun kv : string * list string => snd kv <> [])
              k (d := parse_qs L qs)
              (fold_dict_append_nonempty (parse_qsl L qs) (Forall_nil _)) Hget)
    as [k' Hk'].
  now apply Hk'.
Qed.

Lemma filter_map_names fields :
  existsb (names_v L) fields = false ->
  Forall (fun nv => fst nv <> "v") (filter_map (parse_field L) fields).
Proof.
  induction fields as [|f fields IH]; simpl; intros Hex; [constructor|].
  apply orb_false_elim in Hex as [Hf Hrest].
  unfold parse_field. unfold names_v in Hf.
  destruct (partition "=" f) as [[n v]|]; [|auto].
  destruct (truthy v); [|auto].
  simpl in Hf. constructor; [|auto].
  simpl. intros Heq. rewrite Heq in Hf. discriminate.
Qed.

(** Without a field that names [v] with a value, the dict has no
    key [v]. *)
Lemma parse_qs_v_absent qs :
  v_absent_or_empty L qs = true -> dict_get "v" (parse_qs L qs) = None.
Proof.
  unfold v_absent_or_empty, parse_qs, parse_qsl. intros Habs.
  apply negb_true_iff in Habs.
  destruct (truthy qs); [|reflexivity].
  apply fold_dict_append_absent; [reflexivity|].
  now apply filter_map_names.
Qed.

End WithLib.
End QueryFacts.

(* ================================================================== *)
(** * Identifier extraction: theorems *)

Section ExtractorTheorems.
Import PyStr UrlParse Spec.
Variable L : UrlLib.

(** The extractor raises nothing but [ValueError]. *)
Lemma extract_video_id_raises url c msg :
  extract_video_id L url = Raise c msg -> c = ValueError.
Proof.
  unfold extract_video_id.
  destruct (contains "youtu.be" url).
  - destruct (urlparse L url) as [r|c' m'] eqn:Hp; simpl; [discriminate|].
    intros [= <- <-]. eapply UrlFacts.urlparse_raises; eassumption.
  - destruct (urlparse L url) as [r|c' m'] eqn:Hp; cbn [obind].
    + destruct (existsb (String.eqb (netloc r)) main_site_hosts).
      * destruct (dict_get "v" (parse_qs L (query r))) as [[|v vs]|] eqn:Hv;
          try discriminate.
        now apply QueryFacts.parse_qs_nonempty in Hv.
      * destruct (re_match_video_id url); [discriminate|].
        now intros [= <- <-].
    + intros [= <- <-]. eapply UrlFacts.urlparse_raises; eassumption.
Qed.

(** C10 (amended).  Every reference that contains "youtu.be" takes the
    short-link branch: the result is the path of the parsed reference
    without its leading and trailing slashes, and the branch fails only
    where the URL parser itself rejects the host text of the reference
    by a [ValueError]: for one square bracket without the other, for
    square brackets around what is no IP address, or for characters
    outside ASCII that the NFKC check refuses; a reference in ASCII
    without square brackets never fails.  "https://youtu.be/" gives the
    empty string, and a main-site URL that mentions "youtu.be" in a query
    parameter gives its path. *)
Theorem short_link_branch url :
  contains "youtu.be" url = true ->
  extract_video_id L url = omap (fun r => strip "/" (path r)) (urlparse L url)
  /\ (forall c msg, extract_video_id L url = Raise c msg ->
                    c = ValueError /\ urlparse L url = Raise c msg
                    /\ exists host, Spec.host_text url = Some host
                                    /\ Spec.rejected_host L host msg)
  /\ (forall host msg, Spec.host_text url = Some host ->
                       Spec.rejected_host L host msg ->
                       exists msg', extract_video_id L url = Raise ValueError msg')
  /\ (plain_url url = true ->
      exists r, urlparse L url = Ok r /\ extract_video_id L url = Ok (strip "/" (path r)))
  /\ extract_video_id L "https://youtu.be/" = Ok EmptyString
  /\ extract_video_id L "https://www.youtube.com/watch?v=dQw4w9WgXcQ&feature=youtu.be"
     = Ok "watch".
Proof.
  intros Hin.
  assert (Heq : extract_video_id L url
                = omap (fun r => strip "/" (path r)) (urlparse L url)).
  { unfold extract_video_id. now rewrite Hin. }
  split; [exact Heq|]. split; [|split; [|split; [|split; reflexivity]]].
  - intros c msg Hraise. split; [eapply extract_video_id_raises; eassumption|].
    rewrite Heq in Hraise. destruct (urlparse L url) as [r|c' msg'] eqn:Hparse;
      [discriminate|].
    simpl in Hraise. injection Hraise as <- <-. split; [reflexivity|].
    exact (UrlFacts.urlparse_raises_host L url Hparse).
  - intros host msg Hhost Hcause.
    destruct (@UrlFacts.urlparse_rejects L url host msg Hhost Hcause)
      as [msg' Hparse].
    exists msg'. now rewrite Heq, Hparse.
  - intros Hplain. destruct (UrlFacts.urlparse_plain L url Hplain) as [r Hr].
    exists r. split; [exact Hr|]. now rewrite Heq, Hr.
Qed.

(** C5 (amended).  For a reference that does not contain "youtu.be" and
    whose host is one of the main-site hostnames, if the query parameter
    [v] is absent or empty, the extractor returns the empty string: it
    does not fail. *)
Theorem main_site_without_v url parsed_url :
  contains "youtu.be" url = false ->
  urlparse L url = Ok parsed_url ->
  existsb (String.eqb (netloc parsed_url)) main_site_hosts = true ->
  v_absent_or_empty L (query parsed_url) = true ->
  extract_video_id L url = Ok EmptyString.
Proof.
  intros Hshort Hparse Hhost Habs.
  unfold extract_video_id. rewrite Hshort, Hparse. cbn [obind]. rewrite Hhost.
  now rewrite (QueryFacts.parse_qs_v_absent L _ Habs).
Qed.

(** C6, the failing input.  A standard link whose query mentions
    "youtu.be" is sent to the short-link branch, and the extractor gives
    the path ["watch"] in place of the identifier that the link carries;
    the three scenarios of the specification hold. *)
Theorem standard_link_mentioning_short_host :
  extract_video_id L "https://www.youtube.com/watch?v=dQw4w9WgXcQ&feature=youtu.be"
  = Ok "watch"
  /\ extract_video_id L "https://www.youtube.com/watch?v=dQw4w9WgXcQ" = Ok "dQw4w9WgXcQ"
  /\ extract_video_id L "https://youtu.be/dQw4w9WgXcQ" = Ok "dQw4w9WgXcQ"
  /\ extract_video_id L "https://www.youtube.com/watch?v=dQw4w9WgXcQ&t=30" = Ok "dQw4w9WgXcQ"
  /\ extract_video_id L "not a url"
     = Raise ValueError "Could not extract YouTube video ID from not a url".
Proof. repeat split; reflexivity. Qed.

End ExtractorTheorems.

(* ================================================================== *)
(** * Normalization of the clean forms *)

Module IdCharFacts.
Import PyStr UrlParse.

Lemma id_char_neq c d : id_char c = true -> id_char d = false -> Ascii.eqb c d = false.
Proof.
  intros Hc Hd. destruct (Ascii.eqb c d) eqn:E; [|reflexivity].
  apply Ascii.eqb_eq in E. subst. congruence.
Qed.

Lemma mem_outside d s : forallb id_char s = true -> id_char d = false -> mem d s = false.
Proof. intros Hs Hd. now apply (PyStrFacts.forallb_mem id_char). Qed.

Lemma remove_outside d s : forallb id_char s = true -> id_char d = false -> remove d s = s.
Proof.
  intros Hs Hd. induction s as [|c s' IH]; simpl; [reflexivity|].
  simpl in Hs. apply andb_prop in Hs as [Hc Hs'].
  rewrite (id_char_neq _ _ Hc Hd). now rewrite (IH Hs').
Qed.

Lemma replace_char_outside d e s : forallb id_char s = true -> id_char d = false -> replace_char d e s = s.
Proof.
  intros Hs Hd. induction s as [|c s' IH]; simpl; [reflexivity|].
  simpl in Hs. apply andb_prop in Hs as [Hc Hs'].
  rewrite (id_char_neq _ _ Hc Hd). now rewrite (IH Hs').
Qed.

Lemma partition_outside d s : forallb id_char s = true -> id_char d = false -> partition d s = None.
Proof.
  intros Hs Hd. induction s as [|c s' IH]; simpl; [reflexivity|].
  simpl in Hs. apply andb_prop in Hs as [Hc Hs'].
  rewrite (id_char_neq _ _ Hc Hd). now rewrite (IH Hs').
Qed.

Lemma split_outside d s : forallb id_char s = true -> id_char d = false -> split d s = [s].
Proof.
  intros Hs Hd. induction s as [|c s' IH]; simpl; [reflexivity|].
  simpl in Hs. apply andb_prop in Hs as [Hc Hs'].
  rewrite (id_char_neq _ _ Hc Hd). now rewrite (IH Hs').
Qed.

Lemma lstrip_outside p s : forallb id_char s = true -> (forall c, id_char c = true -> p c = false) -> lstrip p s = s.
Proof.
  intros Hs Hp. destruct s as [|c s']; simpl; [reflexivity|].
  simpl in Hs. apply andb_prop in Hs as [Hc _]. now rewrite (Hp c Hc).
Qed.

Lemma rstrip_outside p s : forallb id_char s = true -> (forall c, id_char c = true -> p c = false) -> rstrip p s = s.
Proof.
  intros Hs Hp. induction s as [|c s' IH]; simpl; [reflexivity|].
  simpl in Hs. apply andb_prop in Hs as [Hc Hs'].
  rewrite (IH Hs'). rewrite (Hp c Hc). now destruct s'.
Qed.

Lemma strip_slash_outside s : forallb id_char s = true -> strip "/" s = s.
Proof.
  intros Hs.
  assert (Hp : forall c, id_char c = true -> mem c "/" = false).
  { intros c Hc. simpl. now rewrite (id_char_neq c "/" Hc eq_refl). }
  unfold strip. rewrite lstrip_outside; [|assumption..]. now apply rstrip_outside.
Qed.

Lemma prefix_forallb q a s :
  String.prefix a s = true -> forallb q s = true -> forallb q a = true.
Proof.
  revert s. induction a as [|c a IH]; intros [|d s]; simpl; try discriminate; auto.
  destruct (ascii_dec c d) as [->|]; [|discriminate].
  intros Hp Hs. apply andb_prop in Hs as [Hd Hs]. rewrite Hd. eauto.
Qed.

Lemma contains_outside needle s :
  forallb id_char s = true -> forallb id_char needle = false -> contains needle s = false.
Proof.
  intros Hs Hn. induction s as [|c s IH].
  - simpl. rewrite orb_false_r. destruct needle; [discriminate|reflexivity].
  - cbn [contains].
    destruct (String.prefix needle (String c s)) eqn:Hp.
    + rewrite (prefix_forallb id_char _ _ Hp Hs) in Hn. discriminate.
    + simpl in Hs. apply andb_prop in Hs as [_ Hs]. now apply IH.
Qed.

End IdCharFacts.

Section Normalization.
Import PyStr UrlParse IdCharFacts.
Variable L : UrlLib.

Ltac outside vid Hvid :=
  repeat match goal with
    | |- context [remove ?d vid] => rewrite (remove_outside d vid Hvid eq_refl)
    | |- context [partition ?d vid] => rewrite (partition_outside d vid Hvid eq_refl)
    | |- context [mem ?d vid] => rewrite (mem_outside d vid Hvid eq_refl)
    | |- context [split ?d vid] => rewrite (split_outside d vid Hvid eq_refl)
    | |- context [replace_char ?d ?e vid] => rewrite (replace_char_outside d e vid Hvid eq_refl)
    | |- context [strip "/" vid] => rewrite (strip_slash_outside vid Hvid)
    end.

Lemma unquote_outside s : forallb id_char s = true -> unquote L s = s.
Proof. intros Hs. unfold unquote. now rewrite mem_outside. Qed.

Lemma short_link_normalized vid :
  forallb id_char vid = true ->
  extract_video_id L ("https://youtu.be/" ++ vid) = Ok vid
  /\ extract_video_id L ("http://youtu.be/" ++ vid) = Ok vid.
Proof.
  intros Hvid. unfold extract_video_id.
  replace (contains "youtu.be" ("https://youtu.be/" ++ vid)) with true by reflexivity.
  replace (contains "youtu.be" ("http://youtu.be/" ++ vid)) with true by reflexivity.
  unfold urlparse, urlsplit.
  split; simpl; outside vid Hvid; simpl; outside vid Hvid; simpl; outside vid Hvid;
    cbn [obind path];
    change (strip "/" (String "/" vid)) with (strip "/" vid);
    now rewrite strip_slash_outside.
Qed.

Lemma canonical_matches vid n :
  String.length vid = n -> forallb id_char vid = true ->
  match_id_chars n vid = Some EmptyString.
Proof.
  revert vid. induction n as [|n IH]; intros [|c vid]; simpl; try discriminate; auto.
  intros [= Hlen] Hvid. apply andb_prop in Hvid as [-> Hvid]. auto.
Qed.

Lemma parse_qs_v vid :
  forallb id_char vid = true -> truthy vid = true ->
  parse_qs L ("v=" ++ vid) = [("v", [vid])].
Proof.
  intros Hvid Hne. unfold parse_qs, parse_qsl.
  cbn [String.append truthy split Ascii.eqb Bool.eqb].
  rewrite (split_outside "&" vid Hvid eq_refl).
  cbn [filter_map]. unfold parse_field.
  cbn [partition Ascii.eqb Bool.eqb]. rewrite Hne.
  rewrite (replace_char_outside "+" " " vid Hvid eq_refl).
  rewrite (unquote_outside vid Hvid).
  reflexivity.
Qed.

Lemma standard_link_normalized host vid :
  In host Spec.standard_prefixes ->
  forallb id_char vid = true -> truthy vid = true ->
  extract_video_id L (host ++ "/watch?v=" ++ vid) = Ok vid.
Proof.
  intros Hhost Hvid Hne. unfold extract_video_id.
  assert (Hno : contains "youtu.be" vid = false) by now apply contains_outside.
  pose proof (parse_qs_v vid Hvid Hne) as Hqs. simpl in Hqs.
  unfold Spec.standard_prefixes in Hhost. simpl in Hhost.
  repeat (destruct Hhost as [<-|Hhost]; [|]); try contradiction;
    simpl; rewrite Hno; unfold urlparse, urlsplit;
    simpl; outside vid Hvid; simpl; outside vid Hvid; simpl; outside vid Hvid;
    now rewrite Hqs.
Qed.

Lemma id_char_not_c0 c : id_char c = true -> c0_control_or_space c = false.
Proof.
  destruct c as [[] [] [] [] [] [] [] []]; vm_compute; congruence.
Qed.

Lemma startswith_slashes_outside s :
  forallb id_char s = true -> startswith "//" s = false.
Proof.
  destruct s as [|c s]; [reflexivity|]. cbn [forallb]. intros Hs.
  apply andb_prop in Hs as [Hc _].
  unfold startswith. cbn [String.prefix].
  destruct (ascii_dec "/" c) as [<-|]; [discriminate|reflexivity].
Qed.

Lemma bare_id_normalized vid :
  String.length vid = 11%nat -> forallb id_char vid = true ->
  extract_video_id L vid = Ok vid.
Proof.
  intros Hlen Hvid. unfold extract_video_id.
  rewrite (contains_outside "youtu.be" vid Hvid eq_refl).
  unfold urlparse, urlsplit.
  rewrite (lstrip_outside c0_control_or_space vid Hvid id_char_not_c0).
  outside vid Hvid.
  unfold split_scheme. outside vid Hvid.
  rewrite (startswith_slashes_outside vid Hvid).
  cbn [obind]. outside vid Hvid.
  cbn [obind checknetloc truthy negb orb sr_scheme sr_path sr_netloc sr_query sr_fragment].
  outside vid Hvid. rewrite andb_false_r.
  cbn [obind netloc existsb main_site_hosts String.eqb orb].
  unfold re_match_video_id. now rewrite (canonical_matches vid Hlen Hvid).
Qed.

(** X14.  The short links, the standard links and the bare identifier
    all normalize to the identifier they carry. *)
Theorem identifier_normalization vid :
  Spec.canonical_id vid = true ->
  extract_video_id L ("https://youtu.be/" ++ vid) = Ok vid
  /\ extract_video_id L ("http://youtu.be/" ++ vid) = Ok vid
  /\ (forall host, In host Spec.standard_prefixes ->
                   extract_video_id L (host ++ "/watch?v=" ++ vid) = Ok vid)
  /\ extract_video_id L vid = Ok vid.
Proof.
  unfold Spec.canonical_id. intros Hvid.
  apply andb_prop in Hvid as [Hlen Hvid]. apply Nat.eqb_eq in Hlen.
  assert (Hne : truthy vid = true) by (destruct vid; [discriminate|reflexivity]).
  destruct (short_link_normalized vid Hvid) as [Hs Hp].
  repeat split; try assumption.
  - intros host Hhost. now apply standard_link_normalized.
  - now apply bare_id_normalized.
Qed.

End Normalization.

(** An instance of C10: the bare short link. *)
Lemma short_link_branch_witness :
  PyStr.contains "youtu.be" "https://youtu.be/" = true
  /\ extract_video_id Demo.lib "https://youtu.be/"
     = omap (fun r => PyStr.strip "/" (path r)) (UrlParse.urlparse Demo.lib "https://youtu.be/").
Proof.
  split; [reflexivity|].
  exact (proj1 (short_link_branch Demo.lib "https://youtu.be/" eq_refl)).
Defined.

(** C10 as stated fails: these references contain "youtu.be" and the
    short-link branch raises, for a square bracket without the other and
    for a character that NFKC turns into a delimiter. *)
Lemma short_link_branch_counterexample :
  PyStr.contains "youtu.be" "https://[youtu.be/" = true
  /\ extract_video_id Demo.lib "https://[youtu.be/" = Raise ValueError "Invalid IPv6 URL"
  /\ PyStr.contains "youtu.be" ("https://youtu.be" ++ Demo.account_of ++ "/x") = true
  /\ extract_video_id Demo.nfkc_lib ("https://youtu.be" ++ Demo.account_of ++ "/x")
     = Raise ValueError
         ("netloc 'youtu.be" ++ Demo.account_of
          ++ "' contains invalid characters under NFKC normalization").
Proof. repeat split; reflexivity. Qed.

(** An instance of C5: a watch URL whose [v] is empty. *)
Lemma main_site_without_v_witness :
  extract_video_id Demo.lib "https://www.youtube.com/watch?t=30&v=" = Ok EmptyString.
Proof.
  refine (main_site_without_v Demo.lib "https://www.youtube.com/watch?t=30&v="
            (parsed_url := {| scheme := "https"; netloc := "www.youtube.com";
                              path := "/watch"; params := EmptyString;
                              query := "t=30&v="; fragment := EmptyString |})
            _ _ _ _); reflexivity.
Defined.

(** C5 as stated fails: the host is a main-site hostname, [v] is absent,
    and the extractor returns the empty identifier without failing. *)
Lemma main_site_without_v_counterexample :
  omap netloc (UrlParse.urlparse Demo.lib "https://www.youtube.com/watch")
  = Ok "www.youtube.com"
  /\ UrlParse.parse_qs Demo.lib EmptyString = []
  /\ extract_video_id Demo.lib "https://www.youtube.com/watch" = Ok EmptyString.
Proof. repeat split; reflexivity. Qed.

(* ================================================================== *)
(** * Timestamps: theorems *)

Module FormatFacts.
Import Format Spec AppendFacts.

(** The loop of the formatter, from any text accumulated so far. *)
Lemma fold_entries acc l :
  fold_left (fun a entry => a ++ format_entry entry) l acc
  = acc ++ format_entries l.
Proof.
  unfold format_entries. revert acc.
  induction l as [|e l IH]; intros acc; cbn [fold_left].
  - now rewrite append_empty.
  - rewrite (IH (acc ++ format_entry e)), (IH (EmptyString ++ format_entry e)).
    cbn [String.append]. apply append_assoc.
Qed.

Lemma decimal_two_chars n :
  (10 <= n)%Z -> exists a b rest, decimal n = String a (String b rest).
Proof.
  intros Hn. unfold decimal.
  pose proof (DecimalZ.of_to n) as Hround.
  destruct (Z.to_int n) as [d|d].
  - destruct d as [|d|d|d|d|d|d|d|d|d|d];
      try (destruct d; [vm_compute in Hround; lia | simpl; do 3 eexists; reflexivity ..]).
    vm_compute in Hround. lia.
  - exfalso. unfold Z.of_int, Z.of_uint in Hround.
    pose proof (N2Z.is_nonneg (Pos.of_uint d)). lia.
Qed.

Lemma zero_padded_small n :
  (0 <= n < 100)%Z -> zero_padded 2 n = two_digits n.
Proof.
  intros Hn. replace n with (Z.of_nat (Z.to_nat n)) by lia.
  assert (Hk : (Z.to_nat n < 100)%nat) by lia.
  generalize dependent (Z.to_nat n). clear n Hn. intros k Hk.
  do 100 (destruct k as [|k]; [vm_compute; reflexivity|]).
  lia.
Qed.

Lemma zero_padded_large n :
  (10 <= n)%Z -> zero_padded 2 n = decimal n.
Proof.
  intros Hn. unfold zero_padded.
  replace (n <? 0)%Z with false by (symmetry; apply Z.ltb_ge; lia).
  rewrite Z.abs_eq by lia.
  destruct (decimal_two_chars Hn) as (a & b & rest & ->).
  reflexivity.
Qed.

Section Offsets.
Variable start : Q.
Hypothesis start_nonneg : 0 <= start.

Let x := start / 60.

Lemma start_split : start == 60 * x.
Proof. unfold x. rewrite Qmult_div_r; [reflexivity | discriminate]. Qed.

Lemma quotient_nonneg : 0 <= x.
Proof. pose proof start_split. lra. Qed.

Lemma minutes_nonneg : (0 <= minutes_of start)%Z.
Proof.
  unfold minutes_of. fold x.
  change 0%Z with (Qfloor 0). apply Qfloor_resp_le, quotient_nonneg.
Qed.

Lemma remainder_bounds :
  0 <= start - 60 * inject_Z (Qfloor x) /\ start - 60 * inject_Z (Qfloor x) < 60.
Proof.
  pose proof start_split as Hs.
  pose proof (Qfloor_le x) as Hlo.
  pose proof (Qlt_floor x) as Hhi.
  rewrite inject_Z_plus in Hhi.
  change (inject_Z 1) with 1 in Hhi.
  split; lra.
Qed.

Lemma seconds_bounds : (0 <= seconds_of start < 60)%Z.
Proof.
  unfold seconds_of. fold x.
  destruct remainder_bounds as [Hlo Hhi].
  split.
  - change 0%Z with (Qfloor 0). now apply Qfloor_resp_le.
  - rewrite Zlt_Qlt.
    eapply Qle_lt_trans; [apply Qfloor_le | exact Hhi].
Qed.

Lemma int_floordiv : int (floordiv start 60) = minutes_of start.
Proof.
  unfold int, floordiv, minutes_of.
  replace (Qle_bool 0 (inject_Z (Qfloor (start / 60)))) with true.
  - apply Qfloor_Z.
  - symmetry. apply Qle_bool_iff.
    change 0 with (inject_Z 0). rewrite <- Zle_Qle. apply minutes_nonneg.
Qed.

Lemma int_modulo : int (modulo start 60) = seconds_of start.
Proof.
  unfold int, modulo, seconds_of.
  replace (Qle_bool 0 (start - 60 * inject_Z (Qfloor (start / 60)))) with true;
    [reflexivity|].
  symmetry. apply Qle_bool_iff. apply remainder_bounds.
Qed.

End Offsets.
End FormatFacts.

Module Binary64Facts.
Import Format Binary64.

Lemma int_comp x y : x == y -> int x = int y.
Proof.
  intros Hxy. unfold int.
  assert (Hb : Qle_bool 0 x = Qle_bool 0 y).
  { destruct (Qle_bool 0 x) eqn:Hx, (Qle_bool 0 y) eqn:Hy; try reflexivity.
    - apply Qle_bool_iff in Hx. rewrite Hxy in Hx. apply Qle_bool_iff in Hx. congruence.
    - apply Qle_bool_iff in Hy. rewrite <- Hxy in Hy. apply Qle_bool_iff in Hy. congruence. }
  rewrite Hb. destruct (Qle_bool 0 y).
  - now apply Qfloor_comp.
  - unfold Qceiling. f_equal. apply Qfloor_comp. now rewrite Hxy.
Qed.

Section Offsets.
Variable rnd : Q -> Q.
Hypothesis rnd_exact : exact_on_integers rnd.
Variable x : Q.
Hypothesis x_nonneg : 0 <= x.
Hypothesis x_small : x < inject_Z (2 ^ 53).

Let k := Qfloor (x / 60).

Lemma fmod_modulo : fmod x 60 = modulo x 60.
Proof.
  unfold fmod, modulo, int.
  replace (Qle_bool 0 (x / 60)) with true; [reflexivity|].
  symmetry. apply Qle_bool_iff. now apply FormatFacts.quotient_nonneg.
Qed.

Lemma k_bounds : (0 <= k)%Z /\ inject_Z (60 * k) <= x.
Proof.
  split; [exact (FormatFacts.minutes_nonneg x_nonneg)|].
  destruct (FormatFacts.remainder_bounds x) as [Hlo _].
  rewrite inject_Z_mult. change (inject_Z 60) with 60. fold k in Hlo. lra.
Qed.

Lemma float_rem_exact : float_rem rnd x 60 == modulo x 60.
Proof.
  unfold float_rem. rewrite fmod_modulo.
  destruct (FormatFacts.remainder_bounds x) as [Hlo Hhi].
  fold (modulo x 60) in Hlo, Hhi.
  destruct (Qeq_bool (modulo x 60) 0) eqn:Hz; cbn [negb].
  - apply Qeq_bool_iff in Hz. now rewrite Hz.
  - replace (Qlt_bool 60 0) with false by reflexivity.
    replace (Qlt_bool (modulo x 60) 0) with false; [reflexivity|].
    symmetry. unfold Qlt_bool. apply negb_false_iff. now apply Qle_bool_iff.
Qed.

Lemma difference_rounds : rnd (x - fmod x 60) == inject_Z (60 * k).
Proof.
  destruct k_bounds as [Hk Hle].
  apply rnd_exact.
  - rewrite fmod_modulo. unfold modulo. fold k.
    rewrite inject_Z_mult. change (inject_Z 60) with 60. ring.
  - rewrite Z.abs_eq by lia.
    apply Z.lt_le_incl. rewrite Zlt_Qlt. lra.
Qed.

Lemma quotient_rounds : rnd (rnd (x - fmod x 60) / 60) == inject_Z k.
Proof.
  destruct k_bounds as [Hk Hle].
  apply rnd_exact.
  - rewrite difference_rounds, inject_Z_mult. change (inject_Z 60) with 60.
    field.
  - rewrite Z.abs_eq by lia.
    apply Z.lt_le_incl. rewrite Zlt_Qlt.
    rewrite inject_Z_mult in Hle. change (inject_Z 60) with 60 in Hle.
    assert (0 <= inject_Z k) by (change 0 with (inject_Z 0); now rewrite <- Zle_Qle).
    lra.
Qed.

Lemma float_floor_div_exact : float_floor_div rnd x 60 == floordiv x 60.
Proof.
  unfold float_floor_div, floordiv. fold k.
  pose proof quotient_rounds as Hdiv.
  destruct (FormatFacts.remainder_bounds x) as [Hlo Hhi].
  replace (negb (Qeq_bool (fmod x 60) 0)
           && xorb (Qlt_bool 60 0) (Qlt_bool (fmod x 60) 0)) with false.
  2:{ symmetry. apply andb_false_iff. right.
      replace (Qlt_bool 60 0) with false by reflexivity.
      rewrite fmod_modulo. unfold Qlt_bool, modulo.
      cbn [xorb]. apply negb_false_iff. now apply Qle_bool_iff. }
  set (div := rnd (rnd (x - fmod x 60) / 60)) in *.
  destruct (Qeq_bool div 0) eqn:Hz; cbn [negb].
  - apply Qeq_bool_iff in Hz. now rewrite <- Hdiv, Hz.
  - assert (Hfloor : Qfloor div = k).
    { rewrite (Qfloor_comp _ _ Hdiv). apply Qfloor_Z. }
    rewrite Hfloor.
    replace (Qlt_bool (1 # 2) (rnd (div - inject_Z k))) with false; [reflexivity|].
    symmetry. unfold Qlt_bool. apply negb_false_iff, Qle_bool_iff.
    rewrite (rnd_exact (q := div - inject_Z k) (n := 0%Z)).
    + discriminate.
    + rewrite Hdiv. change (inject_Z 0) with 0. ring.
    + simpl. lia.
Qed.

(** For an offset below [2^53] seconds the timestamp computed with
    rounded arithmetic is the timestamp of the exact model. *)
Theorem timestamp_rounded_exact : timestamp_rounded rnd x = timestamp x.
Proof.
  unfold timestamp_rounded, timestamp.
  now rewrite (int_comp float_floor_div_exact), (int_comp float_rem_exact).
Qed.

End Offsets.
End Binary64Facts.

(** The timestamp of an offset that is not negative. *)
Lemma timestamp_stamp (start : Q) :
  0 <= start -> Format.timestamp start = Spec.stamp start.
Proof.
  intros Hstart.
  pose proof (@FormatFacts.minutes_nonneg start Hstart) as Hmm.
  pose proof (FormatFacts.seconds_bounds start) as Hss.
  unfold Format.timestamp, Spec.stamp.
  rewrite (@FormatFacts.int_floordiv start Hstart), (FormatFacts.int_modulo start).
  rewrite (FormatFacts.zero_padded_small (n := Spec.seconds_of start)) by lia.
  destruct (Spec.minutes_of start <? 100)%Z eqn:Hlt.
  - apply Z.ltb_lt in Hlt.
    now rewrite (FormatFacts.zero_padded_small (n := Spec.minutes_of start)) by lia.
  - apply Z.ltb_ge in Hlt.
    now rewrite (FormatFacts.zero_padded_large (n := Spec.minutes_of start)) by lia.
Qed.

(** The text of the formatter: the lines of the segments. *)
Lemma format_entries_lines (segments : list Entry) :
  Forall (fun entry => 0 <= entry_start entry) segments ->
  Format.format_entries segments = Spec.lines segments.
Proof.
  induction 1 as [|entry rest Hstart _ IH]; [reflexivity|].
  unfold Format.format_entries. cbn [fold_left Spec.lines].
  rewrite FormatFacts.fold_entries, IH. cbn [String.append].
  unfold Format.format_entry, Spec.line. now rewrite (timestamp_stamp Hstart).
Qed.

(** C4.  The formatter renders every caption segment whose start offset
    is not negative as its timestamp, a space, its text and a line feed,
    the segments in their order; the timestamp is ["[MM:SS]"] with [MM]
    the floor of the offset over 60 and [SS] the floor of the offset
    modulo 60, each written with two digits (the minutes with more
    digits from one hundred minutes on); the seconds lie between 0 and
    59.  Offsets 75.9, 0 and 599.99 give [01:15], [00:00] and [09:59],
    also when taken as the nearest binary64 numbers. *)
Theorem timestamp_minutes_seconds (start : Q) :
  0 <= start ->
  let mm := Spec.minutes_of start in
  let ss := Spec.seconds_of start in
  (0 <= mm)%Z /\ (0 <= ss < 60)%Z
  /\ Format.timestamp start
     = "[" ++ (if (mm <? 100)%Z then Spec.two_digits mm else Format.decimal mm)
           ++ ":" ++ Spec.two_digits ss ++ "]"
  /\ Format.timestamp 75.9 = "[01:15]"
  /\ Format.timestamp 0 = "[00:00]"
  /\ Format.timestamp 599.99 = "[09:59]"
  /\ Format.timestamp (2670493841542349 # 35184372088832) = "[01:15]"
  /\ Format.timestamp (2638783926197289 # 4398046511104) = "[09:59]"
  /\ (forall text,
        Format.format_entry {| entry_start := start; entry_text := text |}
        = "[" ++ (if (mm <? 100)%Z then Spec.two_digits mm else Format.decimal mm)
              ++ ":" ++ Spec.two_digits ss ++ "] " ++ text
              ++ String PyStr.LF EmptyString)
  /\ (forall segments,
        Forall (fun entry => 0 <= entry_start entry) segments ->
        Format.format_entries segments = Spec.lines segments)
  /\ Format.format_entries
       [{| entry_start := 75.9; entry_text := "Hello" |};
        {| entry_start := 0; entry_text := "and" |};
        {| entry_start := 599.99; entry_text := "goodbye" |}]
     = "[01:15] Hello" ++ String PyStr.LF
         ("[00:00] and" ++ String PyStr.LF
            ("[09:59] goodbye" ++ String PyStr.LF EmptyString)).
Proof.
  intros Hstart mm ss.
  pose proof (@FormatFacts.minutes_nonneg start Hstart) as Hmm.
  pose proof (FormatFacts.seconds_bounds start) as Hss.
  pose proof (timestamp_stamp Hstart) as Hstamp.
  unfold Spec.stamp in Hstamp. fold mm ss in Hstamp.
  split; [exact Hmm|]. split; [exact Hss|]. split; [exact Hstamp|].
  do 5 (split; [vm_compute; reflexivity|]).
  split; [|split; [exact format_entries_lines | vm_compute; reflexivity]].
  intros text. unfold Format.format_entry. cbn [entry_start entry_text].
  rewrite Hstamp. now rewrite !AppendFacts.append_assoc.
Qed.

(** An instance of C4: the line of a segment at one minute and a
    quarter. *)
Lemma timestamp_minutes_seconds_witness :
  Format.timestamp 75.9 = "[" ++ Spec.two_digits 1 ++ ":" ++ Spec.two_digits 15 ++ "]"
  /\ Format.format_entry {| entry_start := 75.9; entry_text := "Hello" |}
     = "[01:15] Hello" ++ String PyStr.LF EmptyString.
Proof.
  assert (H : 0 <= 75.9) by (vm_compute; discriminate).
  pose proof (timestamp_minutes_seconds H)
    as (_ & _ & Hstamp & _ & _ & _ & _ & _ & Hline & _).
  split; [exact Hstamp | exact (Hline "Hello")].
Defined.

(* ================================================================== *)
(** * The cache store: theorems *)

(** Unfolding of the monad operations. *)
Ltac run :=
  unfold bind, ret, raise, lift, try_except, ctx_info, ctx_error,
    TranscriptCache.set_transcripts, TranscriptCache.set_disk in *;
  cbn [fst snd transcripts disk api_calls http_calls ctx_log] in *.

Module CacheFacts.
Import PyStr TranscriptCache.

Section WithHost.
Variable H : Host.

Lemma write_file_frame name content w :
  let w' := snd (write_file H name content w) in
  transcripts w' = transcripts w /\ api_calls w' = api_calls w
  /\ http_calls w' = http_calls w /\ ctx_log w' = ctx_log w.
Proof.
  unfold write_file. destruct (open_error H name); run; auto.
Qed.

Lemma write_file_ok name content w :
  open_error H name = None ->
  fst (write_file H name content w) = Ok tt
  /\ disk (snd (write_file H name content w))
     = PosixFile.file_set (place_of H name) content (disk w).
Proof. unfold write_file. intros ->. run. auto. Qed.

Lemma write_file_raises name content w msg :
  open_error H name = Some msg ->
  write_file H name content w = (Raise OSError msg, w).
Proof. unfold write_file. now intros ->. Qed.

Lemma save_frame info w :
  let w' := snd (_save_to_disk H info w) in
  transcripts w' = transcripts w /\ api_calls w' = api_calls w
  /\ http_calls w' = http_calls w /\ ctx_log w' = ctx_log w.
Proof.
  unfold _save_to_disk.
  destruct (text info) as [t|]; [|run; auto].
  destruct (truthy t); [|run; auto].
  unfold bind. cbn zeta.
  pose proof (write_file_frame (cache_path (video_id info ++ ".txt")) t w) as Hw1.
  unfold cache_path in *.
  destruct (write_file H _ t w) as [[[]|c m] w1];
    cbn [fst snd] in *; [|exact Hw1].
  destruct (video_info info) as [vi|].
  - pose proof (write_file_frame (cache_path (video_id info ++ "_meta.json"))
                  (json_dump H [("title", title vi); ("channel", channel vi)]) w1) as Hw2.
    unfold cache_path in *. cbn zeta in *. intuition congruence.
  - run. exact Hw1.
Qed.

Lemma add_frame info w :
  let w' := snd (add H info w) in
  transcripts w' = dict_set (video_id info) info (transcripts w)
  /\ api_calls w' = api_calls w /\ http_calls w' = http_calls w
  /\ ctx_log w' = ctx_log w.
Proof.
  unfold add, bind, set_transcripts.
  match goal with |- context [_save_to_disk H info ?w1] =>
    pose proof (save_frame info w1) as Hs end.
  cbn [fst snd transcripts api_calls http_calls ctx_log] in *.
  exact Hs.
Qed.

End WithHost.
End CacheFacts.

Module PipelineFacts.
Import PyStr.

Section WithHost.
Variable H : Host.

Lemma meta_get_frame meta key default w :
  snd (TranscriptCache.meta_get meta key default w) = w.
Proof. destruct meta; reflexivity. Qed.

Lemma get_video_info_frame video_id w :
  let w' := snd (get_video_info H video_id w) in
  transcripts w' = transcripts w /\ disk w' = disk w
  /\ api_calls w' = api_calls w /\ ctx_log w' = ctx_log w.
Proof.
  unfold get_video_info, client_get, bind.
  destruct (http_get H (http_calls w) _) as [msg|status body]; [run; auto|].
  destruct (Nat.eqb status 200); [|run; auto].
  destruct (json_load H body) as [c m|members|]; run; auto.
Qed.

(** A transport error of the metadata request leaves [get_video_info]
    by an exception. *)
Lemma get_video_info_transport_error video_id w msg :
  http_get H (http_calls w) (oembed_url video_id) = HttpRaises msg ->
  fst (get_video_info H video_id w) = Raise TransportError msg.
Proof. unfold get_video_info, client_get, bind. now intros ->. Qed.

(** A status other than 200 gives the placeholders. *)
Lemma get_video_info_bad_status video_id w status body :
  http_get H (http_calls w) (oembed_url video_id) = HttpResponse status body ->
  status <> 200%nat ->
  fst (get_video_info H video_id w)
  = Ok {| vi_video_id := video_id; title := "Unknown"; channel := "Unknown" |}.
Proof.
  unfold get_video_info, client_get, bind. intros -> Hne.
  apply Nat.eqb_neq in Hne. now rewrite Hne.
Qed.

Lemma header_truthy vi video_id rest :
  truthy (Format.header vi video_id ++ rest) = true.
Proof. reflexivity. Qed.

Lemma download_and_cache_api_calls video_id w :
  api_calls (snd (download_and_cache H video_id w)) = S (api_calls w).
Proof.
  unfold download_and_cache, fetch_transcript, bind.
  destruct (youtube_get_transcript H (api_calls w) video_id) as [segs|c m];
    [|reflexivity].
  match goal with |- context [get_video_info H video_id ?w1] =>
    pose proof (get_video_info_frame video_id w1) as Hvi;
    destruct (get_video_info H video_id w1) as [[vi|c m] w2] end;
    cbn [fst snd api_calls] in *; [|intuition congruence].
  match goal with |- context [TranscriptCache.add H ?info w2] =>
    pose proof (CacheFacts.add_frame H info w2) as Hadd;
    destruct (TranscriptCache.add H info w2) as [[[]|c m] w3] end;
    cbn [fst snd ret api_calls] in *; intuition congruence.
Qed.

Lemma download_and_cache_provider_raises video_id w c m :
  youtube_get_transcript H (api_calls w) video_id = Raise c m ->
  let r := download_and_cache H video_id w in
  fst r = Raise c m /\ transcripts (snd r) = transcripts w
  /\ disk (snd r) = disk w /\ ctx_log (snd r) = ctx_log w.
Proof.
  unfold download_and_cache, fetch_transcript, bind. intros ->. cbn. auto.
Qed.

Lemma download_and_cache_metadata_raises video_id w segs c m :
  youtube_get_transcript H (api_calls w) video_id = Ok segs ->
  (forall w1, http_calls w1 = http_calls w ->
              fst (get_video_info H video_id w1) = Raise c m) ->
  let r := download_and_cache H video_id w in
  fst r = Raise c m /\ transcripts (snd r) = transcripts w
  /\ disk (snd r) = disk w /\ ctx_log (snd r) = ctx_log w.
Proof.
  unfold download_and_cache, fetch_transcript, bind. intros -> Hvi.
  match goal with |- context [get_video_info H video_id ?w1] =>
    pose proof (get_video_info_frame video_id w1) as Hfr;
    pose proof (Hvi w1 eq_refl) as Hr;
    destruct (get_video_info H video_id w1) as [[vi|c' m'] w2] end;
    cbn [fst snd transcripts disk ctx_log] in *; [discriminate|].
  injection Hr as -> ->. intuition.
Qed.

(** What a successful [try] block leaves behind. *)
Lemma download_and_cache_ok vid w t w' :
  download_and_cache H vid w = (Ok t, w') ->
  Spec.formatted t
  /\ exists vi,
       dict_get vid (transcripts w')
       = Some {| video_id := vid; video_info := Some vi; text := Some t |}.
Proof.
  unfold download_and_cache, fetch_transcript, bind.
  destruct (youtube_get_transcript H (api_calls w) vid) as [segs|c m];
    [|discriminate].
  match goal with |- context [get_video_info H vid ?w1] =>
    destruct (get_video_info H vid w1) as [[vi|c m] w2] end; [|discriminate].
  match goal with |- context [TranscriptCache.add H ?info w2] =>
    pose proof (CacheFacts.add_frame H info w2) as Hadd;
    destruct (TranscriptCache.add H info w2) as [[[]|c m] w3] end; [|discriminate].
  cbn [fst snd ret video_id] in *. intros [= <- <-].
  split; [now exists vi, vid, segs|].
  exists vi. destruct Hadd as [-> _]. apply dict_get_set_same.
Qed.

Lemma get_video_info_state vid w :
  snd (get_video_info H vid w)
  = {| transcripts := transcripts w; disk := disk w; api_calls := api_calls w;
       http_calls := S (http_calls w); ctx_log := ctx_log w |}.
Proof.
  unfold get_video_info, client_get, bind.
  destruct (http_get H (http_calls w) _) as [msg|status body]; [reflexivity|].
  destruct (Nat.eqb status 200); [|reflexivity].
  destruct (json_load H body) as [c m|members|]; reflexivity.
Qed.

Lemma get_video_info_calls vid w :
  http_calls (snd (get_video_info H vid w)) = S (http_calls w).
Proof. now rewrite get_video_info_state. Qed.

(** The answer of [get_video_info] depends on the state through the
    number of requests made only. *)
Lemma get_video_info_outcome vid w w1 :
  http_calls w1 = http_calls w ->
  fst (get_video_info H vid w1) = fst (get_video_info H vid w).
Proof.
  intros Hc. unfold get_video_info, client_get, bind. rewrite Hc.
  destruct (http_get H (http_calls w) _) as [msg|status body]; [reflexivity|].
  destruct (Nat.eqb status 200); [|reflexivity].
  destruct (json_load H body) as [c m|members|]; reflexivity.
Qed.

(** The [try] block when the provider and the metadata request answer:
    what remains is the insert. *)
Lemma download_and_cache_fetched vid segs vi w :
  youtube_get_transcript H (api_calls w) vid = Ok segs ->
  fst (get_video_info H vid w) = Ok vi ->
  let t := Format.header vi vid ++ Format.format_entries segs in
  download_and_cache H vid w
  = (TranscriptCache.add H
       {| video_id := vid; video_info := Some vi; text := Some t |} ;;; ret t)
      {| transcripts := transcripts w; disk := disk w;
         api_calls := S (api_calls w); http_calls := S (http_calls w);
         ctx_log := ctx_log w |}.
Proof.
  intros Hp Hvi t. unfold download_and_cache, fetch_transcript, bind.
  rewrite Hp.
  match goal with |- context [get_video_info H vid ?w1] =>
    pose proof (get_video_info_outcome vid w w1 eq_refl) as Ho;
    pose proof (get_video_info_state vid w1) as Hst;
    destruct (get_video_info H vid w1) as [[vi'|c m] w2] end;
    cbn [fst snd transcripts disk api_calls http_calls ctx_log] in *;
    [|congruence].
  assert (vi' = vi) as -> by congruence. subst w2. reflexivity.
Qed.

End WithHost.
End PipelineFacts.

(* ================================================================== *)
(** * The pipeline: theorems *)

Section PipelineTheorems.
Import PyStr.
Variable L : UrlLib.
Variable H : Host.

Lemma get_transcript_hit vid w t :
  servable (dict_get vid (transcripts w)) = Some t ->
  get_transcript H vid w
  = (Ok t, snd (ctx_info ("Returning cached transcript for video " ++ vid) w)).
Proof.
  intros Hs. unfold get_transcript, bind, TranscriptCache.get. now rewrite Hs.
Qed.

Lemma get_transcript_miss vid w :
  servable (dict_get vid (transcripts w)) = None ->
  get_transcript H vid w
  = try_except (download_and_cache H vid) (fun _ => true)
      (fun e => ctx_error ("Error retrieving transcript: " ++ e) ;;;
                ret ("Error retrieving transcript: " ++ e))
      (snd (ctx_info ("Downloading transcript for video " ++ vid) w)).
Proof.
  intros Hs. unfold get_transcript, bind, TranscriptCache.get. now rewrite Hs.
Qed.

(** [get_transcript] raises nothing. *)
Lemma get_transcript_total vid w : exists t, fst (get_transcript H vid w) = Ok t.
Proof.
  destruct (servable (dict_get vid (transcripts w))) as [t|] eqn:Hs.
  - rewrite (get_transcript_hit _ _ Hs). now exists t.
  - rewrite (get_transcript_miss _ _ Hs). unfold try_except.
    destruct (download_and_cache H vid _) as [[t|c m] w']; run; eauto.
Qed.

(** A miss calls the transcript provider exactly once. *)
Lemma get_transcript_miss_api_calls vid w :
  servable (dict_get vid (transcripts w)) = None ->
  api_calls (snd (get_transcript H vid w)) = S (api_calls w).
Proof.
  intros Hs. rewrite (get_transcript_miss _ _ Hs). unfold try_except.
  match goal with |- context [download_and_cache H vid ?w1] =>
    pose proof (PipelineFacts.download_and_cache_api_calls H vid w1) as Hc;
    destruct (download_and_cache H vid w1) as [[t|c m] w'] end;
    run; exact Hc.
Qed.

Lemma download_transcript_valid url vid w :
  extract_video_id L url = Ok vid ->
  download_transcript L H url w = get_transcript H vid w.
Proof.
  intros He. unfold download_transcript, try_except, bind, lift. rewrite He.
  destruct (get_transcript_total vid w) as [t Ht].
  destruct (get_transcript H vid w) as [[t'|c m] w']; [reflexivity|discriminate].
Qed.

Lemma download_transcript_invalid url c m w :
  extract_video_id L url = Raise c m ->
  download_transcript L H url w
  = (Ok ("Error: " ++ m), snd (ctx_error ("Invalid YouTube URL: " ++ m) w)).
Proof.
  intros He. unfold download_transcript, try_except, bind, lift. rewrite He.
  now rewrite (extract_video_id_raises L url He).
Qed.

(** C9.  When the transcript fetch fails on a cache miss,
    [get_transcript] returns the error message, the in-memory map and the
    files on disk are as before, and the next call for the same identifier
    calls the provider again. *)
Theorem failed_fetch_leaves_cache vid w c m :
  servable (dict_get vid (transcripts w)) = None ->
  youtube_get_transcript H (api_calls w) vid = Raise c m ->
  let r := get_transcript H vid w in
  fst r = Ok ("Error retrieving transcript: " ++ m)
  /\ transcripts (snd r) = transcripts w
  /\ disk (snd r) = disk w
  /\ api_calls (snd r) = S (api_calls w)
  /\ api_calls (snd (get_transcript H vid (snd r))) = S (S (api_calls w)).
Proof.
  intros Hs Hraise r.
  assert (Hr : fst r = Ok ("Error retrieving transcript: " ++ m)
               /\ transcripts (snd r) = transcripts w /\ disk (snd r) = disk w).
  { subst r. rewrite (get_transcript_miss _ _ Hs). unfold try_except.
    match goal with |- context [download_and_cache H vid ?w1] =>
      pose proof (@PipelineFacts.download_and_cache_provider_raises H vid w1 c m Hraise) as Hd;
      destruct (download_and_cache H vid w1) as [[t|c' m'] w'] end;
      cbn [fst snd] in Hd; destruct Hd as (Hf & Ht & Hd & _); [discriminate|].
    injection Hf as -> ->. run. auto. }
  destruct Hr as (Hf & Ht & Hd).
  assert (Hc : api_calls (snd r) = S (api_calls w))
    by (apply get_transcript_miss_api_calls, Hs).
  repeat split; try assumption.
  rewrite get_transcript_miss_api_calls; [now rewrite Hc|].
  now rewrite Ht.
Qed.

(** C3, the failing input.  When the transcript provider answers and the
    metadata request fails in transport, [get_video_info] raises, and
    [get_transcript] returns an error message: the transcript is not
    delivered and nothing is cached.  With an error status the adapter
    does return the placeholders. *)
Theorem metadata_transport_error_blocks_transcript vid w segs msg :
  servable (dict_get vid (transcripts w)) = None ->
  youtube_get_transcript H (api_calls w) vid = Ok segs ->
  http_get H (http_calls w) (oembed_url vid) = HttpRaises msg ->
  let r := get_transcript H vid w in
  fst (get_video_info H vid w) = Raise TransportError msg
  /\ fst r = Ok ("Error retrieving transcript: " ++ msg)
  /\ transcripts (snd r) = transcripts w
  /\ disk (snd r) = disk w.
Proof.
  intros Hs Hsegs Hhttp r.
  split; [now apply PipelineFacts.get_video_info_transport_error|].
  subst r. rewrite (get_transcript_miss _ _ Hs). unfold try_except.
  match goal with |- context [download_and_cache H vid ?w1] =>
    pose proof (@PipelineFacts.download_and_cache_metadata_raises H vid w1 segs
                  TransportError msg Hsegs) as Hd;
    destruct (download_and_cache H vid w1) as [[t|c' m'] w'] end;
    cbn [fst snd http_calls ctx_info] in Hd.
  - destruct Hd as (Hf & _); [|discriminate].
    intros w1 Hw1. apply PipelineFacts.get_video_info_transport_error.
    now rewrite Hw1.
  - destruct Hd as (Hf & Ht & Hd & _).
    + intros w1 Hw1. apply PipelineFacts.get_video_info_transport_error.
      now rewrite Hw1.
    + injection Hf as -> ->. run. auto.
Qed.

(** C1 (amended).  When the first call does not end in a fetch-stage
    error (the reference is invalid, or the record is cached, or the
    [try] block of [get_transcript] raises nothing), the second call for
    the same reference returns the same text without calling the
    transcript provider, which is called at most once over the two
    calls. *)
Theorem second_call_served_from_cache url w :
  (forall vid, extract_video_id L url = Ok vid ->
               Spec.fetch_stage_raises H vid w = false) ->
  let r1 := download_transcript L H url w in
  let r2 := download_transcript L H url (snd r1) in
  fst r2 = fst r1
  /\ api_calls (snd r2) = api_calls (snd r1)
  /\ (api_calls (snd r1) <= S (api_calls w))%nat.
Proof.
  intros Hok.
  destruct (extract_video_id L url) as [vid|c m] eqn:He; cbn zeta.
  - rewrite !(download_transcript_valid _ _ He).
    specialize (Hok vid eq_refl). unfold Spec.fetch_stage_raises in Hok.
    destruct (servable (dict_get vid (transcripts w))) as [t|] eqn:Hs.
    + rewrite (get_transcript_hit _ _ Hs). cbn [fst snd].
      rewrite get_transcript_hit with (t := t); [run; auto|exact Hs].
    + pose proof (get_transcript_miss_api_calls _ _ Hs) as Hcalls.
      rewrite (get_transcript_miss _ _ Hs) in *. unfold try_except in *.
      destruct (download_and_cache H vid _) as [[t|c m] w'] eqn:Hd;
        cbn [fst snd] in *; [|discriminate].
      destruct (PipelineFacts.download_and_cache_ok _ _ _ Hd)
        as [(vi0 & vid0 & segs & Hfmt) [vi Hget]].
      rewrite get_transcript_hit with (t := t).
      * cbn [fst snd ctx_info api_calls]. rewrite Hcalls. auto.
      * rewrite Hget. cbn [servable text]. rewrite Hfmt.
        now rewrite PipelineFacts.header_truthy.
  - rewrite !(download_transcript_invalid _ _ He). run. auto.
Qed.



End PipelineTheorems.

(* ================================================================== *)
(** * Insert and rehydration: theorems *)

Module SuffixFacts.
Import PyStr.

Lemma append_inj_l s a b : s ++ a = s ++ b -> a = b.
Proof. induction s as [|c s IH]; simpl; [auto|]. intros [= Heq]. auto. Qed.

Lemma endswith_refl s : endswith s s = true.
Proof. destruct s; cbn [endswith]; now rewrite String.eqb_refl. Qed.

Lemma endswith_append suffix tail s :
  endswith suffix s = true -> endswith (suffix ++ tail) (s ++ tail) = true.
Proof.
  induction s as [|c s IH]; cbn [endswith String.append].
  - rewrite orb_false_r. intros Heq. apply String.eqb_eq in Heq. subst suffix.
    apply endswith_refl.
  - intros Hs. apply orb_prop in Hs as [Heq|Hs].
    + apply String.eqb_eq in Heq. subst suffix.
      cbn [String.append]. now rewrite String.eqb_refl.
    + rewrite (IH Hs). apply orb_true_r.
Qed.

Lemma length_append a b :
  String.length (a ++ b) = (String.length a + String.length b)%nat.
Proof. induction a as [|c a IH]; simpl; [reflexivity | now rewrite IH]. Qed.

Lemma endswith_empty s : endswith EmptyString s = true.
Proof.
  induction s as [|c s IH]; [reflexivity|].
  cbn [endswith]. rewrite IH. apply orb_true_r.
Qed.

Lemma endswith_txt s : endswith ".txt" (s ++ ".txt") = true.
Proof. exact (endswith_append EmptyString ".txt" s (endswith_empty s)). Qed.

Lemma endswith_length suffix s :
  endswith suffix s = true -> (String.length suffix <= String.length s)%nat.
Proof.
  induction s as [|c s IH]; cbn [endswith].
  - rewrite orb_false_r. intros Heq. apply String.eqb_eq in Heq. now subst.
  - intros Hs. apply orb_prop in Hs as [Heq|Hs].
    + apply String.eqb_eq in Heq. now subst.
    + specialize (IH Hs). simpl. lia.
Qed.

Lemma append_inj_r a b x : a ++ x = b ++ x -> a = b.
Proof.
  revert b. induction a as [|c a IH]; intros [|d b] Heq; simpl in Heq.
  - reflexivity.
  - apply (f_equal String.length) in Heq. simpl in Heq.
    rewrite length_append in Heq. lia.
  - apply (f_equal String.length) in Heq. simpl in Heq.
    rewrite length_append in Heq. lia.
  - injection Heq as -> Heq. f_equal. now apply IH.
Qed.

Lemma endswith_cancel suffix tail s :
  endswith (suffix ++ tail) (s ++ tail) = true -> endswith suffix s = true.
Proof.
  induction s as [|c s IH]; cbn [endswith String.append].
  - intros Hs. apply endswith_length in Hs.
    rewrite length_append in Hs.
    destruct suffix; [reflexivity | simpl in Hs; lia].
  - intros Hs. apply orb_prop in Hs as [Heq|Hs].
    + apply String.eqb_eq in Heq.
      change (String c (s ++ tail)) with (String c s ++ tail) in Heq.
      apply append_inj_r in Heq. subst suffix. now rewrite String.eqb_refl.
    + rewrite (IH Hs). apply orb_true_r.
Qed.

Lemma endswith_meta_txt s :
  endswith "_meta" s = false -> endswith "_meta.txt" (s ++ ".txt") = false.
Proof.
  intros Hs. destruct (endswith "_meta.txt" (s ++ ".txt")) eqn:E; [|reflexivity].
  apply (endswith_cancel "_meta" ".txt" s) in E. congruence.
Qed.

(** A name that ends in ["_meta.json"] does not end in [".txt"]. *)
Lemma endswith_txt_json s : endswith ".txt" (s ++ "_meta.json") = false.
Proof.
  induction s as [|c s IH]; [reflexivity|].
  cbn [endswith String.append]. rewrite IH, orb_false_r.
  destruct (String.eqb (String c (s ++ "_meta.json")) ".txt") eqn:E; [|reflexivity].
  apply String.eqb_eq in E. apply (f_equal String.length) in E.
  simpl in E. rewrite length_append in E. simpl in E. lia.
Qed.

Lemma replace_txt s : mem "." s = false -> replace ".txt" "" (s ++ ".txt") = s.
Proof.
  unfold replace. induction s as [|c s IH]; [reflexivity|].
  cbn [mem]. intros Hs. apply orb_false_elim in Hs as [Hc Hs].
  cbn [String.append replace_from String.prefix].
  destruct (ascii_dec "." c) as [<-|_]; [discriminate|].
  now rewrite (IH Hs).
Qed.

Lemma names_differ s : String.eqb (s ++ ".txt") (s ++ "_meta.json") = false.
Proof.
  destruct (String.eqb (s ++ ".txt") (s ++ "_meta.json")) eqn:E; [|reflexivity].
  apply String.eqb_eq, append_inj_l in E. discriminate.
Qed.

End SuffixFacts.

(** Places, files and listings. *)
Module PosixFileFacts.
Import PyStr PosixFile.

Lemma place_eqb_eq p : forall q, place_eqb p q = true <-> p = q.
Proof.
  induction p as [|a p IH]; intros [|b q]; cbn [place_eqb]; split;
    try discriminate; try reflexivity.
  - intros Hab. apply andb_prop in Hab as [Ha Hp].
    apply String.eqb_eq in Ha. apply IH in Hp. now subst.
  - intros [= -> ->]. rewrite String.eqb_refl. now apply IH.
Qed.

Lemma place_eqb_refl p : place_eqb p p = true.
Proof. now apply place_eqb_eq. Qed.

Lemma place_eqb_neq p q : p <> q -> place_eqb p q = false.
Proof.
  intros Hne. destruct (place_eqb p q) eqn:E; [|reflexivity].
  now apply place_eqb_eq in E.
Qed.

Lemma place_eqb_tail (dir : place) a b :
  place_eqb (dir ++ [a])%list (dir ++ [b])%list = String.eqb a b.
Proof.
  induction dir as [|d dir IH]; cbn [app place_eqb].
  - apply andb_true_r.
  - now rewrite String.eqb_refl, IH.
Qed.

Lemma file_get_set p q content d :
  file_get p (file_set q content d)
  = if place_eqb q p then Some content else file_get p d.
Proof.
  induction d as [|[r c] d IH]; cbn [file_set file_get].
  - reflexivity.
  - destruct (place_eqb r q) eqn:Erq; cbn [file_get].
    + apply place_eqb_eq in Erq. subst r. now destruct (place_eqb q p).
    + destruct (place_eqb r p) eqn:Erp; [|exact IH].
      apply place_eqb_eq in Erp. subst r.
      destruct (place_eqb q p) eqn:Eqp; [|reflexivity].
      apply place_eqb_eq in Eqp. subst q.
      rewrite place_eqb_refl in Erq. discriminate.
Qed.

Lemma file_get_set_same p content d : file_get p (file_set p content d) = Some content.
Proof. now rewrite file_get_set, place_eqb_refl. Qed.

Lemma file_get_set_other p q content d :
  q <> p -> file_get p (file_set q content d) = file_get p d.
Proof.
  intros Hne. rewrite file_get_set.
  now rewrite (@place_eqb_neq q p Hne).
Qed.

(** ** Components *)

Lemma split_plain c s : mem c s = false -> split c s = [s].
Proof.
  induction s as [|d s IH]; cbn [mem split]; [reflexivity|].
  intros Hm. apply orb_false_elim in Hm as [Hd Hs].
  rewrite Ascii.eqb_sym, Hd, (IH Hs). reflexivity.
Qed.

Lemma split_nonempty c s : split c s <> [].
Proof.
  destruct s as [|d s]; cbn [split]; [discriminate|].
  destruct (Ascii.eqb d c); [discriminate|].
  destruct (split c s); discriminate.
Qed.

Lemma split_at c a b :
  mem c a = false -> split c (a ++ String c b) = a :: split c b.
Proof.
  induction a as [|d a IH]; cbn [mem split String.append].
  - intros _. now rewrite Ascii.eqb_refl.
  - intros Hm. apply orb_false_elim in Hm as [Hd Ha].
    rewrite Ascii.eqb_sym, Hd, (IH Ha). reflexivity.
Qed.

(** A suffix without separator goes to the last component. *)
Lemma split_suffix c sfx : mem c sfx = false -> forall x,
  split c (x ++ sfx)
  = (removelast (split c x) ++ [(last (split c x) EmptyString ++ sfx)%string])%list.
Proof.
  intros Hsfx. induction x as [|d x IH]; cbn [String.append].
  - now rewrite (split_plain c sfx Hsfx).
  - cbn [split]. destruct (Ascii.eqb d c).
    + rewrite IH. pose proof (split_nonempty c x) as Hne.
      destruct (split c x) as [|h t]; [contradiction|]. reflexivity.
    + rewrite IH. pose proof (split_nonempty c x) as Hne.
      destruct (split c x) as [|h [|h' t]]; [contradiction| |]; reflexivity.
Qed.

(** A name of three characters or more is followed downwards. *)
Lemma step_name dir name :
  (3 <= String.length name)%nat -> step dir name = (dir ++ [name])%list.
Proof.
  intros Hlen. unfold step.
  destruct name as [|a [|b [|c name]]]; simpl in Hlen; try lia.
  cbn [String.eqb orb].
  destruct (Ascii.eqb a "."), (Ascii.eqb b "."); reflexivity.
Qed.

Lemma step_suffixed dir l sfx :
  (3 <= String.length sfx)%nat ->
  step dir (l ++ sfx) = (dir ++ [(l ++ sfx)%string])%list.
Proof. intros Hlen. apply step_name. rewrite SuffixFacts.length_append. lia. Qed.

Lemma walk_snoc dir cs c : walk dir (cs ++ [c]) = step (walk dir cs) c.
Proof. unfold walk. now rewrite fold_left_app. Qed.

Lemma resolve_suffix cwd sfx :
  mem "/" sfx = false -> (3 <= String.length sfx)%nat -> forall x,
  resolve cwd (x ++ sfx)
  = (walk (if startswith "/" (x ++ sfx) then [] else cwd)
       (removelast (split "/" x))
     ++ [(last (split "/" x) EmptyString ++ sfx)%string])%list.
Proof.
  intros Hsfx Hlen x. unfold resolve.
  rewrite (split_suffix "/" sfx Hsfx), walk_snoc. now apply step_suffixed.
Qed.

Lemma startswith_plain n : mem "/" n = false -> startswith "/" n = false.
Proof.
  destruct n as [|c n]; [reflexivity|]. cbn [mem]. intros Hm.
  apply orb_false_elim in Hm as [Hc _]. unfold startswith. cbn [String.prefix].
  destruct (ascii_dec "/" c) as [<-|_]; [discriminate|reflexivity].
Qed.

Lemma startswith_append c x sfx :
  mem c sfx = false ->
  startswith (String c EmptyString) (x ++ sfx) = startswith (String c EmptyString) x.
Proof.
  intros Hsfx. destruct x as [|d x]; cbn [String.append].
  - unfold startswith. destruct sfx as [|e sfx]; [reflexivity|].
    cbn [mem] in Hsfx. apply orb_false_elim in Hsfx as [He _].
    cbn [String.prefix]. destruct (ascii_dec c e) as [->|_]; [|reflexivity].
    now rewrite Ascii.eqb_refl in He.
  - unfold startswith. cbn [String.prefix].
    destruct (ascii_dec c d); [|reflexivity]. now destruct x, sfx.
Qed.

(** ** The files of the cache directory *)

Section WithHost.
Variable H : Host.

Lemma cache_dir_place :
  cache_dir H = (resolve [] (cwd H) ++ [TRANSCRIPT_CACHE_DIR])%list.
Proof. reflexivity. Qed.

Lemma cache_path_relative n :
  startswith "/" n = false -> cache_path n = "transcript_cache/" ++ n.
Proof. unfold cache_path, join. now intros ->. Qed.

(** A name without ["/"] is an entry of the cache directory. *)
Lemma cache_file_plain n :
  mem "/" n = false -> (3 <= String.length n)%nat ->
  cache_file H n = (cache_dir H ++ [n])%list.
Proof.
  intros Hn Hlen. unfold cache_file, place_of.
  rewrite (cache_path_relative n (startswith_plain n Hn)).
  unfold resolve at 1.
  change ("transcript_cache/" ++ n) with ("transcript_cache" ++ String "/" n).
  rewrite (split_at "/" "transcript_cache" n eq_refl), (split_plain "/" n Hn).
  cbn [startswith String.prefix String.append]. cbn [walk fold_left].
  rewrite (@step_name _ n Hlen). reflexivity.
Qed.

(** The place of the file of an identifier, whatever the identifier:
    the suffix goes to the name of the file. *)
Lemma cache_file_suffix vid :
  exists (dir : place) (l : string), forall sfx,
    mem "/" sfx = false -> (3 <= String.length sfx)%nat ->
    cache_file H (vid ++ sfx) = (dir ++ [(l ++ sfx)%string])%list.
Proof.
  set (x := if startswith "/" vid then vid else "transcript_cache/" ++ vid).
  exists (walk (if startswith "/" x then [] else resolve [] (cwd H))
            (removelast (split "/" x))),
         (last (split "/" x) EmptyString).
  intros sfx Hsfx Hlen.
  assert (Hpath : cache_path (vid ++ sfx) = x ++ sfx).
  { unfold cache_path, join, x. rewrite (startswith_append "/" vid sfx Hsfx).
    destruct (startswith "/" vid); [reflexivity|].
    cbn [truthy negb orb endswith String.eqb TRANSCRIPT_CACHE_DIR].
    reflexivity. }
  unfold cache_file, place_of. rewrite Hpath.
  rewrite (@resolve_suffix _ sfx Hsfx Hlen x).
  now rewrite (startswith_append "/" x sfx Hsfx).
Qed.

(** The text file and the metadata file of an identifier are two
    files. *)
Lemma cache_files_differ vid :
  cache_file H (vid ++ "_meta.json") <> cache_file H (vid ++ ".txt").
Proof.
  destruct (cache_file_suffix vid) as (dir & l & Hplace).
  rewrite (Hplace "_meta.json"), (Hplace ".txt") by (reflexivity || (simpl; lia)).
  intros Heq. apply app_inj_tail in Heq as [_ Heq].
  apply SuffixFacts.append_inj_l in Heq. discriminate.
Qed.

End WithHost.

(** ** Reading in text mode *)

Lemma universal_newlines_plain s :
  mem CR s = false -> universal_newlines s = s.
Proof.
  induction s as [|c s IH]; cbn [mem universal_newlines]; [reflexivity|].
  intros Hm. apply orb_false_elim in Hm as [Hc Hs].
  rewrite Ascii.eqb_sym, Hc, (IH Hs). reflexivity.
Qed.

(** A text that was read in text mode holds no carriage return. *)
Lemma universal_newlines_no_cr s : mem CR (universal_newlines s) = false.
Proof.
  assert (Hall : forall n s, (String.length s <= n)%nat ->
                             mem CR (universal_newlines s) = false).
  { intros n. induction n as [|n IH]; intros [|c r] Hlen; simpl in Hlen;
      try reflexivity; try lia.
    cbn [universal_newlines]. destruct (Ascii.eqb c CR) eqn:Hc.
    - destruct r as [|d r]; [reflexivity|].
      destruct (Ascii.eqb d LF); cbn [mem]; rewrite IH;
        reflexivity || (simpl in *; lia).
    - cbn [mem]. rewrite Ascii.eqb_sym, Hc. apply IH. lia. }
  now apply (Hall (String.length s)).
Qed.

(** Reading returns the text of the file as it is exactly when the text
    holds no carriage return. *)
Lemma universal_newlines_fixed s :
  universal_newlines s = s <-> mem CR s = false.
Proof.
  split; [|apply universal_newlines_plain].
  intros Heq. rewrite <- Heq. apply universal_newlines_no_cr.
Qed.

Lemma universal_newlines_truthy s : truthy (universal_newlines s) = truthy s.
Proof.
  destruct s as [|c s]; [reflexivity|]. cbn [universal_newlines].
  destruct (Ascii.eqb c CR); [|reflexivity].
  destruct s as [|d s]; [reflexivity|]. now destruct (Ascii.eqb d LF).
Qed.

(** ** Listings *)

Lemma child_of_entry (dir : place) c rest : child_of dir (dir ++ c :: rest)%list = Some c.
Proof.
  induction dir as [|d dir IH]; cbn [app child_of]; [reflexivity|].
  now rewrite String.eqb_refl.
Qed.

Lemma child_of_sibling (dir : place) a b :
  child_of (dir ++ [a])%list (dir ++ [b])%list = None.
Proof.
  induction dir as [|d dir IH]; cbn [app child_of].
  - now destruct (String.eqb a b).
  - now rewrite String.eqb_refl.
Qed.

Lemma add_name_In c names x : In x (add_name c names) <-> x = c \/ In x names.
Proof.
  unfold add_name. destruct (existsb (String.eqb c) names) eqn:E.
  - split; [now right|]. intros [->|Hin]; [|exact Hin].
    apply existsb_exists in E as (y & Hy & Heq).
    apply String.eqb_eq in Heq. now subst.
  - rewrite in_app_iff. cbn [In]. intuition.
Qed.

Lemma In_children_from dir (d : files) : forall names x,
  In x (fold_left (fun names kv =>
                     match child_of dir (fst kv) with
                     | Some c => add_name c names
                     | None => names
                     end) d names)
  <-> In x names \/ exists p c, In (p, c) d /\ child_of dir p = Some x.
Proof.
  induction d as [|[q content] d IH]; intros names x; cbn [fold_left fst].
  - split; [now left|]. intros [Hin|(p & c & [] & _)]. exact Hin.
  - rewrite IH. split.
    + intros [Hin|(p & c & Hin & Hc)].
      * destruct (child_of dir q) as [y|] eqn:Hq; [|now left].
        apply add_name_In in Hin as [->|Hin]; [|now left].
        right. exists q, content. split; [now left|exact Hq].
      * right. exists p, c. split; [now right|exact Hc].
    + intros [Hin|(p & c & [[= <- <-]|Hin] & Hc)].
      * left. destruct (child_of dir q); [|exact Hin].
        apply add_name_In. now right.
      * left. rewrite Hc. apply add_name_In. now left.
      * right. now exists p, c.
Qed.

(** The names of a listing are those of the entries that lead to a
    file. *)
Lemma In_children dir (d : files) x :
  In x (children dir d) <-> exists p c, In (p, c) d /\ child_of dir p = Some x.
Proof.
  unfold children. rewrite In_children_from. cbn [In]. tauto.
Qed.

Lemma file_get_In p (d : files) content : file_get p d = Some content -> In (p, content) d.
Proof.
  induction d as [|[q c] d IH]; cbn [file_get]; [discriminate|].
  destruct (place_eqb q p) eqn:E.
  - intros [= ->]. apply place_eqb_eq in E. subst. now left.
  - intros Hget. right. now apply IH.
Qed.

Lemma child_of_below (dir : place) n : forall q x,
  child_of (dir ++ [n])%list q = Some x -> child_of dir q = Some n.
Proof.
  induction dir as [|d dir IH]; intros [|y q] x; cbn [app child_of];
    try discriminate.
  - destruct (String.eqb n y) eqn:E; [|discriminate].
    apply String.eqb_eq in E. now subst.
  - destruct (String.eqb d y); [apply IH|discriminate].
Qed.

(** A file is listed under the name of its entry. *)
Lemma file_listed (dir : place) n d content :
  file_get (dir ++ [n])%list d = Some content -> In n (children dir d).
Proof.
  intros Hget. apply In_children. exists (dir ++ [n])%list, content.
  split; [now apply file_get_In | apply child_of_entry].
Qed.

(** So is whatever exists. *)
Lemma exists_listed (dir : place) n d :
  exists_at (dir ++ [n])%list d = true -> In n (children dir d).
Proof.
  unfold exists_at. intros Hex. apply existsb_exists in Hex as ([q c] & Hin & Hq).
  cbn [fst] in Hq. apply In_children. exists q, c. split; [exact Hin|].
  apply orb_prop in Hq as [Heq|Hbelow].
  - apply place_eqb_eq in Heq. subst q. apply child_of_entry.
  - destruct (child_of (dir ++ [n])%list q) as [x|] eqn:Hc; [|discriminate].
    exact (child_of_below dir n q Hc).
Qed.

Lemma file_exists p d content : file_get p d = Some content -> exists_at p d = true.
Proof.
  intros Hget. unfold exists_at. apply existsb_exists.
  exists (p, content). split; [now apply file_get_In|].
  cbn [fst]. now rewrite place_eqb_refl.
Qed.

Lemma unlisted_file (dir : place) n d :
  ~ In n (children dir d) -> file_get (dir ++ [n])%list d = None.
Proof.
  intros Hnot. destruct (file_get (dir ++ [n])%list d) as [c|] eqn:E; [|reflexivity].
  now apply file_listed in E.
Qed.

Lemma unlisted_exists (dir : place) n d :
  ~ In n (children dir d) -> exists_at (dir ++ [n])%list d = false.
Proof.
  intros Hnot. destruct (exists_at (dir ++ [n])%list d) eqn:E; [|reflexivity].
  now apply exists_listed in E.
Qed.

Lemma file_set_absent p content d :
  file_get p d = None -> file_set p content d = (d ++ [(p, content)])%list.
Proof.
  induction d as [|[q c] d IH]; cbn [file_get file_set app]; [reflexivity|].
  destruct (place_eqb q p); [discriminate|]. intros Hget. now rewrite IH.
Qed.

Lemma children_snoc dir (d : files) p content :
  children dir (d ++ [(p, content)])%list
  = match child_of dir p with
    | Some c => add_name c (children dir d)
    | None => children dir d
    end.
Proof. unfold children. now rewrite fold_left_app. Qed.

(** A new entry of a directory goes last in its listing. *)
Lemma children_new_entry (dir : place) n content d :
  ~ In n (children dir d) ->
  children dir (file_set (dir ++ [n])%list content d)
  = (children dir d ++ [n])%list.
Proof.
  intros Hnot. rewrite (file_set_absent _ _ _ (unlisted_file dir n d Hnot)).
  rewrite children_snoc, child_of_entry. unfold add_name.
  destruct (existsb (String.eqb n) (children dir d)) eqn:E; [|reflexivity].
  apply existsb_exists in E as (y & Hy & Heq).
  apply String.eqb_eq in Heq. now subst.
Qed.

End PosixFileFacts.

Section CacheTheorems.
Import PyStr TranscriptCache.
Variable H : Host.

(** C8 (amended).  [add] puts the record in the in-memory map under its
    identifier and then, the two files being writable, writes to disk: the
    text artifact when the text is present and not empty, and then the
    metadata artifact when a [VideoInfo] is present too; for a record
    without text it writes nothing. *)
Theorem add_updates_map_then_persists info w :
  open_error H (cache_path (video_id info ++ ".txt")) = None ->
  open_error H (cache_path (video_id info ++ "_meta.json")) = None ->
  let r := add H info w in
  fst r = Ok tt
  /\ transcripts (snd r) = dict_set (video_id info) info (transcripts w)
  /\ (if text_truthy info
      then PosixFile.file_get (cache_file H (video_id info ++ ".txt")) (disk (snd r))
           = text info
           /\ match video_info info with
              | Some vi =>
                  PosixFile.file_get (cache_file H (video_id info ++ "_meta.json"))
                    (disk (snd r))
                  = Some (json_dump H [("title", title vi); ("channel", channel vi)])
              | None =>
                  PosixFile.file_get (cache_file H (video_id info ++ "_meta.json"))
                    (disk (snd r))
                  = PosixFile.file_get (cache_file H (video_id info ++ "_meta.json"))
                      (disk w)
              end
      else disk (snd r) = disk w).
Proof.
  intros Htxt Hmeta.
  pose proof (PosixFileFacts.cache_files_differ H (video_id info)) as Hne.
  unfold cache_file, cache_path in *.
  unfold add, _save_to_disk, text_truthy, bind, write_file.
  destruct (text info) as [t|]; [|run; auto].
  destruct (truthy t); [|run; auto].
  run. rewrite Htxt. run.
  destruct (video_info info) as [vi|]; run.
  - rewrite Hmeta. run. repeat split.
    + rewrite PosixFileFacts.file_get_set_other by exact Hne.
      apply PosixFileFacts.file_get_set_same.
    + apply PosixFileFacts.file_get_set_same.
  - repeat split.
    + apply PosixFileFacts.file_get_set_same.
    + apply PosixFileFacts.file_get_set_other. congruence.
Qed.

(** C2, the failing input.  A text artifact whose name ends in
    ["_meta.txt"] is skipped by the rehydration, so the record of an
    identifier that ends in ["_meta"] is written by [add] and never read
    back; the identifier ["abcdefghijk"] does come back with its text. *)
Theorem meta_suffix_never_rehydrated vid w :
  endswith "_meta" vid = true ->
  load_one H (vid ++ ".txt") w = (Ok tt, w)
  /\ (let info := {| video_id := "abcdef_meta"; video_info := None;
                     text := Some "Title: T" |} in
      let w1 := snd (add Demo.host info Demo.empty_world) in
      PosixFile.file_get (cache_file Demo.host "abcdef_meta.txt") (disk w1)
      = Some "Title: T"
      /\ app_lifespan Demo.host w1 = (Ok tt, fresh_cache w1)
      /\ transcripts (fresh_cache w1) = [])
  /\ (let info := {| video_id := "abcdefghijk"; video_info := None;
                     text := Some "Title: T" |} in
      let w1 := snd (add Demo.host info Demo.empty_world) in
      dict_get "abcdefghijk" (transcripts (snd (app_lifespan Demo.host w1)))
      = Some info).
Proof.
  intros Hmeta. split; [|split; [repeat split|]; reflexivity].
  unfold load_one.
  pose proof (SuffixFacts.endswith_append "_meta" ".txt" vid Hmeta) as Hskip.
  change ("_meta" ++ ".txt") with "_meta.txt" in Hskip.
  rewrite Hskip. now rewrite andb_false_r.
Qed.

End CacheTheorems.

Section Rehydration.
Import PyStr TranscriptCache SuffixFacts PosixFile PosixFileFacts.
Variable H : Host.

Lemma load_metadata_any vid path content w :
  file_get (place_of H path) (disk w) = Some content ->
  load_metadata H vid path w
  = (Spec.metadata_of vid (json_load H (universal_newlines content)), w).
Proof.
  intros Hread. unfold load_metadata, try_except, bind, read_file.
  rewrite Hread.
  destruct (json_load H (universal_newlines content)) as [c msg|members|];
    try reflexivity.
  destruct c; reflexivity.
Qed.

Lemma load_metadata_unreadable vid path w :
  file_get (place_of H path) (disk w) = None ->
  load_metadata H vid path w
  = (Raise OSError ("No such file or directory: " ++ path), w).
Proof.
  intros Hread. unfold load_metadata, try_except, bind, read_file.
  now rewrite Hread.
Qed.

(** One turn of the loop of [load_from_disk]. *)
Lemma load_one_record filename w :
  load_one H filename w
  = match record_of H (disk w) filename with
    | Ok (Some kv) => (Ok tt, Spec.loaded w (put (transcripts w) kv))
    | Ok None => (Ok tt, w)
    | Raise c msg => (Raise c msg, w)
    end.
Proof.
  unfold load_one, record_of, cache_file, cache_path.
  destruct (endswith ".txt" filename && negb (endswith "_meta.txt" filename));
    [|reflexivity].
  cbn zeta. unfold bind at 1. unfold read_file.
  destruct (file_get (place_of H (join TRANSCRIPT_CACHE_DIR filename)) (disk w))
    as [t|]; [|reflexivity].
  unfold bind at 1. unfold bind at 1. unfold path_exists.
  destruct (exists_at _ (disk w)); [|reflexivity].
  destruct (file_get
              (place_of H (join TRANSCRIPT_CACHE_DIR
                             (replace ".txt" "" filename ++ "_meta.json")))
              (disk w)) as [content|] eqn:Hm.
  - rewrite (load_metadata_any _ _ w Hm).
    destruct (Spec.metadata_of _ (json_load H _)); reflexivity.
  - rewrite (load_metadata_unreadable _ _ w Hm). reflexivity.
Qed.

Lemma load_from_disk_for_each w :
  load_from_disk H w
  = for_each (children (cache_dir H) (disk w)) (load_one H) w.
Proof. reflexivity. Qed.

Lemma text_name_length vid : (3 <= String.length (vid ++ ".txt"))%nat.
Proof. rewrite length_append. simpl. lia. Qed.

Lemma metadata_name_length vid : (3 <= String.length (vid ++ "_meta.json"))%nat.
Proof. rewrite length_append. simpl. lia. Qed.

Lemma mem_append c a b : mem c (a ++ b) = mem c a || mem c b.
Proof.
  induction a as [|d a IH]; cbn [String.append mem]; [reflexivity|].
  now rewrite IH, orb_assoc.
Qed.

(** The two files of an identifier that is a file name are entries of
    the cache directory. *)
Lemma cache_file_text vid :
  mem "/" vid = false ->
  cache_file H (vid ++ ".txt") = (cache_dir H ++ [(vid ++ ".txt")%string])%list.
Proof.
  intros Hvid. apply cache_file_plain; [|apply text_name_length].
  now rewrite mem_append, Hvid.
Qed.

Lemma cache_file_metadata vid :
  mem "/" vid = false ->
  cache_file H (vid ++ "_meta.json")
  = (cache_dir H ++ [(vid ++ "_meta.json")%string])%list.
Proof.
  intros Hvid. apply cache_file_plain; [|apply metadata_name_length].
  now rewrite mem_append, Hvid.
Qed.

Lemma record_of_listed vid t meta d :
  (meta = None -> mem "/" vid = false) ->
  mem "." vid = false -> endswith "_meta" vid = false ->
  Spec.cache_holds H d (Spec.files_of vid t meta) ->
  record_of H d (vid ++ ".txt")
  = omap (fun vi => Some (vid, {| video_id := vid; video_info := vi;
                                  text := Some (universal_newlines t) |}))
      match meta with
      | Some content =>
          Spec.metadata_of vid (json_load H (universal_newlines content))
      | None => Ok None
      end.
Proof.
  intros Hslash Hdot Hmeta [Hlist Hfiles]. unfold record_of.
  rewrite endswith_txt, (endswith_meta_txt vid Hmeta), (replace_txt vid Hdot).
  cbn [andb negb].
  rewrite (Hfiles (vid ++ ".txt") t) by now left.
  destruct meta as [content|].
  - assert (Hget : file_get (cache_file H (vid ++ "_meta.json")) d = Some content)
      by (apply Hfiles; right; now left).
    now rewrite (file_exists _ _ Hget), Hget.
  - rewrite (cache_file_metadata vid (Hslash eq_refl)).
    rewrite unlisted_exists; [reflexivity|].
    rewrite Hlist. cbn [Spec.files_of map fst In]. intros [Heq|[]].
    apply append_inj_l in Heq. discriminate.
Qed.

Lemma record_of_metadata vid d : record_of H d (vid ++ "_meta.json") = Ok None.
Proof. unfold record_of. now rewrite endswith_txt_json. Qed.

Lemma load_directory vid t meta w :
  (meta = None -> mem "/" vid = false) ->
  mem "." vid = false -> endswith "_meta" vid = false ->
  Spec.cache_holds H (disk w) (Spec.files_of vid t meta) ->
  app_lifespan H w
  = match match meta with
          | Some content =>
              Spec.metadata_of vid (json_load H (universal_newlines content))
          | None => Ok None
          end with
    | Ok vi =>
        (Ok tt,
         Spec.loaded w [(vid, {| video_id := vid; video_info := vi;
                                 text := Some (universal_newlines t) |})])
    | Raise c msg => (Raise c msg, Spec.loaded w [])
    end.
Proof.
  intros Hslash Hdot Hmeta Hholds.
  unfold app_lifespan. rewrite load_from_disk_for_each.
  cbn [fresh_cache disk]. rewrite (proj1 Hholds).
  cbn [Spec.files_of map fst for_each]. unfold bind at 1. rewrite load_one_record.
  cbn [fresh_cache disk].
  rewrite (@record_of_listed vid t meta (disk w) Hslash Hdot Hmeta Hholds).
  destruct meta as [content|].
  - destruct (Spec.metadata_of vid (json_load H (universal_newlines content)))
      as [vi|c msg]; cbn [omap obind]; [|reflexivity].
    cbn [map fst for_each]. unfold bind at 1. rewrite load_one_record.
    rewrite record_of_metadata. reflexivity.
  - reflexivity.
Qed.

Lemma add_disk info w :
  open_error H (cache_path (video_id info ++ ".txt")) = None ->
  open_error H (cache_path (video_id info ++ "_meta.json")) = None ->
  disk (snd (add H info w))
  = match text info with
    | Some t =>
        if truthy t then
          let d := file_set (cache_file H (video_id info ++ ".txt")) t (disk w) in
          match video_info info with
          | Some vi =>
              file_set (cache_file H (video_id info ++ "_meta.json"))
                (json_dump H [("title", title vi); ("channel", channel vi)]) d
          | None => d
          end
        else disk w
    | None => disk w
    end.
Proof.
  intros Htxt Hmeta. unfold cache_file, cache_path in *.
  unfold add, _save_to_disk, bind, write_file.
  destruct (text info) as [t|]; [|reflexivity].
  destruct (truthy t); [|reflexivity].
  run. rewrite Htxt. run.
  destruct (video_info info) as [vi|]; run; [|reflexivity].
  rewrite Hmeta. reflexivity.
Qed.

(** What two writes leave in an empty cache directory. *)
Lemma files_written vid t meta d :
  mem "/" vid = false ->
  Spec.cache_holds H d [] ->
  Spec.cache_holds H
    (let d1 := file_set (cache_file H (vid ++ ".txt")) t d in
     match meta with
     | Some content => file_set (cache_file H (vid ++ "_meta.json")) content d1
     | None => d1
     end)
    (Spec.files_of vid t meta).
Proof.
  intros Hslash [Hlist _]. cbn [map] in Hlist. cbn zeta.
  pose proof (cache_file_text vid Hslash) as Hplace_txt.
  pose proof (cache_file_metadata vid Hslash) as Hplace_json.
  set (txt := vid ++ ".txt") in *. set (json := vid ++ "_meta.json") in *.
  set (dir := cache_dir H) in *.
  set (d1 := file_set (cache_file H txt) t d).
  assert (Hne : json <> txt).
  { subst json txt. intros Heq. apply append_inj_l in Heq. discriminate. }
  assert (Hlist1 : children dir d1 = [txt]).
  { unfold d1. rewrite Hplace_txt.
    rewrite children_new_entry; rewrite Hlist; [reflexivity|tauto]. }
  assert (Htxt1 : file_get (cache_file H txt) d1 = Some t)
    by apply file_get_set_same.
  destruct meta as [content|]; split; cbn [Spec.files_of map fst].
  - rewrite Hplace_json. rewrite children_new_entry; rewrite Hlist1; [reflexivity|].
    cbn [In]. intuition.
  - fold txt json. intros name c [[= <- <-]|[[= <- <-]|[]]].
    + rewrite file_get_set_other; [exact Htxt1|].
      exact (cache_files_differ H vid).
    + apply file_get_set_same.
  - exact Hlist1.
  - fold txt. intros name c [[= <- <-]|[]]. exact Htxt1.
Qed.

(** What [add] leaves in an empty cache directory. *)
Lemma add_into_empty vid vi t w :
  mem "/" vid = false ->
  truthy t = true ->
  Spec.cache_holds H (disk w) [] ->
  open_error H (cache_path (vid ++ ".txt")) = None ->
  open_error H (cache_path (vid ++ "_meta.json")) = None ->
  Spec.cache_holds H
    (disk (snd (add H {| video_id := vid; video_info := vi; text := Some t |} w)))
    (Spec.files_of vid t
       (option_map (fun v => json_dump H [("title", title v); ("channel", channel v)])
          vi)).
Proof.
  intros Hslash Ht Hempty Htxt Hjson.
  rewrite (@add_disk {| video_id := vid; video_info := vi; text := Some t |}
             w Htxt Hjson).
  cbn [text video_id video_info]. rewrite Ht.
  pose proof (@files_written vid t
                (option_map
                   (fun v => json_dump H [("title", title v); ("channel", channel v)])
                   vi) (disk w) Hslash Hempty) as Hw.
  now destruct vi.
Qed.

(** Insert into an empty cache directory, tear down, rehydrate: for an
    identifier that is a file name, without a dot and not ending in
    ["_meta"], the record comes back with its text as text mode reads
    it, and with its title and channel when [json.load] reads back what
    [json.dump] wrote. *)
Theorem round_trip vid vi t w :
  mem "/" vid = false ->
  mem "." vid = false -> endswith "_meta" vid = false ->
  truthy t = true ->
  Spec.cache_holds H (disk w) [] ->
  open_error H (cache_path (vid ++ ".txt")) = None ->
  open_error H (cache_path (vid ++ "_meta.json")) = None ->
  (forall members,
      json_load H (universal_newlines (json_dump H members)) = JsonObject members) ->
  let info := {| video_id := vid; video_info := vi; text := Some t |} in
  let r := app_lifespan H (snd (add H info w)) in
  fst r = Ok tt
  /\ transcripts (snd r)
     = [(vid, {| video_id := vid;
                 video_info :=
                   option_map (fun v => {| vi_video_id := vid; title := title v;
                                           channel := channel v |}) vi;
                 text := Some (universal_newlines t) |})].
Proof.
  intros Hslash Hdot Hmeta Ht Hempty Htxt Hjson Hload info r.
  pose proof (@add_into_empty vid vi t w Hslash Ht Hempty Htxt Hjson) as Hdisk.
  subst r info.
  rewrite (@load_directory vid t _ _ (fun _ => Hslash) Hdot Hmeta Hdisk).
  destruct vi as [v|]; cbn [option_map]; [|split; reflexivity].
  rewrite Hload. cbn [Spec.metadata_of]. split; reflexivity.
Qed.



End Rehydration.

(* ================================================================== *)
(** * Instances and counterexamples *)

(** An instance of C1: both providers answer. *)
Lemma second_call_served_from_cache_witness :
  let r1 := download_transcript Demo.lib Demo.host Demo.short_link Demo.empty_world in
  let r2 := download_transcript Demo.lib Demo.host Demo.short_link (snd r1) in
  fst r2 = fst r1
  /\ api_calls (snd r2) = api_calls (snd r1)
  /\ (api_calls (snd r1) <= 1)%nat.
Proof.
  apply (second_call_served_from_cache Demo.lib Demo.host Demo.short_link Demo.empty_world).
  intros vid Hvid. vm_compute in Hvid. injection Hvid as <-. reflexivity.
Defined.

(** C1 as stated fails: the provider fails on the first call, the two
    calls return different texts and the provider is called twice. *)
Lemma second_call_counterexample :
  let r1 := download_transcript Demo.lib Demo.flaky Demo.short_link Demo.empty_world in
  let r2 := download_transcript Demo.lib Demo.flaky Demo.short_link (snd r1) in
  fst r1 = Ok "Error retrieving transcript: connection reset"
  /\ fst r2 <> fst r1
  /\ api_calls (snd r2) = 2%nat.
Proof. vm_compute. repeat split. discriminate. Qed.

(** An instance of C2: an identifier of eleven characters. *)
Lemma meta_suffix_never_rehydrated_witness :
  TranscriptCache.load_one Demo.host "abcdef_meta.txt" Demo.empty_world
  = (Ok tt, Demo.empty_world).
Proof.
  exact (proj1 (meta_suffix_never_rehydrated Demo.host "abcdef_meta" Demo.empty_world
                  eq_refl)).
Defined.

(** An instance of C3: the metadata request cannot reach the network. *)
Lemma metadata_transport_error_witness :
  fst (get_transcript Demo.offline_metadata "dQw4w9WgXcQ" Demo.empty_world)
  = Ok "Error retrieving transcript: connection refused".
Proof.
  exact (proj1 (proj2 (metadata_transport_error_blocks_transcript
                         Demo.offline_metadata "dQw4w9WgXcQ" Demo.empty_world
                         (segs := Demo.segments) (msg := "connection refused")
                         eq_refl eq_refl eq_refl))).
Defined.


(** An instance of C8: a record with text and [VideoInfo]. *)
Lemma add_updates_map_then_persists_witness :
  let info := {| video_id := "dQw4w9WgXcQ";
                 video_info := Some {| vi_video_id := "dQw4w9WgXcQ"; title := "T";
                                       channel := "C" |};
                 text := Some "Title: T" |} in
  let r := TranscriptCache.add Demo.host info Demo.empty_world in
  fst r = Ok tt
  /\ transcripts (snd r) = [("dQw4w9WgXcQ", info)]
  /\ PosixFile.file_get (cache_file Demo.host "dQw4w9WgXcQ.txt") (disk (snd r))
     = Some "Title: T"
  /\ PosixFile.file_get (cache_file Demo.host "dQw4w9WgXcQ_meta.json") (disk (snd r))
     = Some (Demo.dump [("title", "T"); ("channel", "C")]).
Proof.
  cbn zeta.
  apply (add_updates_map_then_persists Demo.host
           {| video_id := "dQw4w9WgXcQ";
              video_info := Some {| vi_video_id := "dQw4w9WgXcQ"; title := "T";
                                    channel := "C" |};
              text := Some "Title: T" |} Demo.empty_world); reflexivity.
Defined.

(** C8 as stated fails: a record with a [VideoInfo] and no text is put in
    the map and nothing is written, neither text nor metadata. *)
Lemma add_counterexample :
  let info := {| video_id := "dQw4w9WgXcQ";
                 video_info := Some {| vi_video_id := "dQw4w9WgXcQ"; title := "T";
                                       channel := "C" |};
                 text := None |} in
  let r := TranscriptCache.add Demo.host info Demo.empty_world in
  video_info info <> None
  /\ transcripts (snd r) = [("dQw4w9WgXcQ", info)]
  /\ disk (snd r) = [].
Proof. cbn zeta. split; [discriminate|]. split; reflexivity. Qed.

(** An instance of C9: a video without captions. *)
Lemma failed_fetch_leaves_cache_witness :
  let r := get_transcript Demo.no_captions "dQw4w9WgXcQ" Demo.empty_world in
  fst r = Ok "Error retrieving transcript: no captions"
  /\ transcripts (snd r) = []
  /\ disk (snd r) = []
  /\ api_calls (snd r) = 1%nat
  /\ api_calls (snd (get_transcript Demo.no_captions "dQw4w9WgXcQ" (snd r))) = 2%nat.
Proof.
  exact (failed_fetch_leaves_cache Demo.no_captions "dQw4w9WgXcQ" Demo.empty_world
           (c := ProviderError) (m := "no captions") eq_refl eq_refl).
Defined.

(* ================================================================== *)
(** * The cache store: lookup, order and partial writes *)

Section DictOrder.
Context {V : Type}.
Implicit Types (d : list (string * V)) (k : string) (v : V).

Lemma dict_get_set k k' v d :
  dict_get k (dict_set k' v d) = if String.eqb k' k then Some v else dict_get k d.
Proof.
  destruct (String.eqb k' k) eqn:E.
  - apply String.eqb_eq in E. subst. apply dict_get_set_same.
  - apply dict_get_set_other. intros ->. now rewrite String.eqb_refl in E.
Qed.

(** A new key goes to the end. *)
Lemma dict_set_absent k v d :
  dict_get k d = None -> dict_set k v d = (d ++ [(k, v)])%list.
Proof.
  induction d as [|[k' v'] d IH]; simpl; [reflexivity|].
  destruct (String.eqb k' k); [discriminate|]. intros Hd. now rewrite IH.
Qed.

(** A key that is present keeps its place. *)
Lemma dict_set_present_keys k v v0 d :
  dict_get k d = Some v0 -> map fst (dict_set k v d) = map fst d.
Proof.
  induction d as [|[k' v'] d IH]; simpl; [discriminate|].
  destruct (String.eqb k' k) eqn:E.
  - apply String.eqb_eq in E. now subst.
  - intros Hd. simpl. now rewrite IH.
Qed.

Lemma dict_get_In k d : dict_get k d = None -> ~ In k (map fst d).
Proof.
  induction d as [|[k' v'] d IH]; simpl; [tauto|].
  destruct (String.eqb k' k) eqn:E; [discriminate|].
  intros Hd [Heq|Hin]; [subst; now rewrite String.eqb_refl in E | now apply IH].
Qed.

Lemma dict_get_absent k d : ~ In k (map fst d) -> dict_get k d = None.
Proof.
  induction d as [|[k' v'] d IH]; simpl; [reflexivity|].
  intros Hnot. destruct (String.eqb k' k) eqn:E.
  - apply String.eqb_eq in E. tauto.
  - apply IH. tauto.
Qed.

Lemma dict_set_NoDup k v d : NoDup (map fst d) -> NoDup (map fst (dict_set k v d)).
Proof.
  intros Hd. destruct (dict_get k d) as [v0|] eqn:Hk.
  - now rewrite (dict_set_present_keys k v d Hk).
  - rewrite (dict_set_absent k v d Hk), map_app. simpl.
    apply NoDup_app; [exact Hd | repeat constructor; simpl; tauto |].
    intros a Ha [<-|[]]. now apply (dict_get_In k d Hk).
Qed.

(** Two dicts with the same keys in the same order and the same values
    are the same dict. *)
Lemma dict_ext d : forall e,
  map fst d = map fst e -> NoDup (map fst d) ->
  (forall k, dict_get k d = dict_get k e) -> d = e.
Proof.
  induction d as [|[k v] d IH]; intros [|[k' v'] e]; simpl; try discriminate; auto.
  intros [= <- Hkeys] Hnd Hget. inversion Hnd as [|? ? Hnotin Hnd']; subst.
  pose proof (Hget k) as Hk. rewrite String.eqb_refl in Hk. injection Hk as <-.
  f_equal. apply IH; [exact Hkeys | exact Hnd' |].
  intros k0. specialize (Hget k0).
  destruct (String.eqb k k0) eqn:E; [|exact Hget].
  apply String.eqb_eq in E. subst k0.
  rewrite (dict_get_absent k d Hnotin).
  rewrite Hkeys in Hnotin. now rewrite (dict_get_absent k e Hnotin).
Qed.

(** ** Sequences of assignments *)

Implicit Types (l : list (string * V)).

Lemma fold_put_present l : forall d k,
  dict_get k d <> None -> dict_get k (fold_left put l d) <> None.
Proof.
  induction l as [|[k' v'] l IH]; intros d k Hk; cbn [fold_left]; [exact Hk|].
  apply IH. unfold put. cbn [fst snd]. rewrite dict_get_set.
  destruct (String.eqb k' k); [discriminate|exact Hk].
Qed.

Lemma fold_put_member l : forall d k v,
  In (k, v) l -> dict_get k (fold_left put l d) <> None.
Proof.
  induction l as [|[k' v'] l IH]; intros d k v Hin; cbn [fold_left]; [destruct Hin|].
  destruct Hin as [[= -> ->]|Hin]; [|eauto].
  apply fold_put_present. unfold put. cbn [fst snd].
  rewrite dict_get_set_same. discriminate.
Qed.

Lemma fold_put_keys l : forall d,
  (forall k v, In (k, v) l -> dict_get k d <> None) ->
  map fst (fold_left put l d) = map fst d.
Proof.
  induction l as [|[k' v'] l IH]; intros d Hall; cbn [fold_left]; [reflexivity|].
  assert (Hk' : dict_get k' d <> None) by (apply (Hall k' v'); now left).
  destruct (dict_get k' d) as [v0|] eqn:E; [|contradiction].
  rewrite IH.
  - unfold put. cbn [fst snd]. apply (dict_set_present_keys _ _ _ E).
  - intros k v Hin. unfold put. cbn [fst snd]. rewrite dict_get_set.
    destruct (String.eqb k' k); [discriminate|]. apply (Hall k v). now right.
Qed.

Lemma fold_put_NoDup l : forall d,
  NoDup (map fst d) -> NoDup (map fst (fold_left put l d)).
Proof.
  induction l as [|kv l IH]; intros d Hd; cbn [fold_left]; [exact Hd|].
  apply IH. now apply dict_set_NoDup.
Qed.

(** The value of a key after the assignments: the last one assigned,
    or the one it had. *)
Lemma fold_put_get l : forall d k,
  dict_get k (fold_left put l d)
  = match last_value l k with
    | Some v => Some v
    | None => dict_get k d
    end.
Proof.
  induction l as [|[k' v'] l IH]; intros d k; cbn [fold_left last_value]; [reflexivity|].
  rewrite IH. unfold put. cbn [fst snd]. rewrite dict_get_set.
  destruct (last_value l k); [reflexivity|].
  now destruct (String.eqb k' k).
Qed.

(** Making the same assignments a second time changes nothing. *)
Lemma fold_put_twice l d :
  NoDup (map fst d) ->
  fold_left put l (fold_left put l d) = fold_left put l d.
Proof.
  intros Hd. apply dict_ext.
  - apply fold_put_keys. intros k v Hin. now apply fold_put_member with (v := v).
  - now apply fold_put_NoDup, fold_put_NoDup.
  - intros k. rewrite !fold_put_get. destruct (last_value l k); reflexivity.
Qed.

End DictOrder.

Section CacheProperties.
Import PyStr TranscriptCache.
Variable H : Host.

(** X1.  Insert, then look up: [get] returns the record just added under
    its own identifier, whether or not the write to disk succeeded, and
    what the cache held before under every other identifier. *)
Theorem lookup_after_add info k w :
  fst (get k (snd (add H info w)))
  = Ok (if String.eqb (video_id info) k then Some info
        else dict_get k (transcripts w)).
Proof.
  unfold get. cbn [fst snd].
  destruct (CacheFacts.add_frame H info w) as [-> _].
  now rewrite dict_get_set.
Qed.

(** X2.  The order of the cache: [add] for an identifier that is cached
    keeps the identifiers in their order, [add] for a new identifier puts
    it last, so that [list_all] returns the earlier records followed by
    the new one. *)
Theorem keys_after_add info w :
  map fst (transcripts (snd (add H info w)))
  = match dict_get (video_id info) (transcripts w) with
    | Some _ => map fst (transcripts w)
    | None => (map fst (transcripts w) ++ [video_id info])%list
    end
  /\ (dict_get (video_id info) (transcripts w) = None ->
      fst (list_all (snd (add H info w)))
      = Ok (map snd (transcripts w) ++ [info])%list).
Proof.
  destruct (CacheFacts.add_frame H info w) as [Ht _].
  unfold list_all. cbn [fst snd]. rewrite Ht.
  destruct (dict_get (video_id info) (transcripts w)) as [old|] eqn:Hk; split.
  - apply (dict_set_present_keys _ _ _ Hk).
  - discriminate.
  - rewrite (dict_set_absent _ _ _ Hk), map_app. reflexivity.
  - intros _. rewrite (dict_set_absent _ _ _ Hk), map_app. reflexivity.
Qed.

(** X3.  [add] writes to the two files of its record only: a file at
    any other place, in the cache directory or elsewhere, is as before,
    whatever the identifier is (an identifier with ["/"] or [".."] may
    lead to a file of another name, or out of the cache directory). *)
Theorem add_leaves_other_files info p w :
  p <> cache_file H (video_id info ++ ".txt") ->
  p <> cache_file H (video_id info ++ "_meta.json") ->
  PosixFile.file_get p (disk (snd (add H info w))) = PosixFile.file_get p (disk w).
Proof.
  intros Htxt Hmeta. unfold cache_file, cache_path in *.
  unfold add, _save_to_disk, bind, write_file.
  destruct (text info) as [t|]; [|reflexivity].
  destruct (truthy t); [|reflexivity].
  run. destruct (open_error H _); run; [reflexivity|].
  destruct (video_info info) as [vi|]; run.
  - destruct (open_error H _); run.
    + apply PosixFileFacts.file_get_set_other. congruence.
    + rewrite !PosixFileFacts.file_get_set_other by congruence. reflexivity.
  - apply PosixFileFacts.file_get_set_other. congruence.
Qed.

(** X4.  When the text file cannot be opened, [add] raises the [OSError]
    after the map was updated: the record is in the cache and nothing
    is on disk. *)
Theorem add_keeps_record_when_write_fails info t msg w :
  text info = Some t -> truthy t = true ->
  open_error H (cache_path (video_id info ++ ".txt")) = Some msg ->
  let r := add H info w in
  fst r = Raise OSError msg
  /\ fst (get (video_id info) (snd r)) = Ok (Some info)
  /\ disk (snd r) = disk w.
Proof.
  intros Ht Htruthy Hopen. unfold cache_path in Hopen.
  unfold add, _save_to_disk, bind, write_file, get.
  rewrite Ht, Htruthy. run. rewrite Hopen. run.
  repeat split. now rewrite dict_get_set_same.
Qed.

(** X5.  When the metadata file cannot be opened, [add] raises the
    [OSError] with the text file written and the metadata file as it
    was. *)
Theorem metadata_write_failure_leaves_text info t vi msg w :
  text info = Some t -> truthy t = true -> video_info info = Some vi ->
  open_error H (cache_path (video_id info ++ ".txt")) = None ->
  open_error H (cache_path (video_id info ++ "_meta.json")) = Some msg ->
  let r := add H info w in
  fst r = Raise OSError msg
  /\ PosixFile.file_get (cache_file H (video_id info ++ ".txt")) (disk (snd r))
     = Some t
  /\ PosixFile.file_get (cache_file H (video_id info ++ "_meta.json")) (disk (snd r))
     = PosixFile.file_get (cache_file H (video_id info ++ "_meta.json")) (disk w).
Proof.
  intros Ht Htruthy Hvi Htxt Hmeta.
  pose proof (PosixFileFacts.cache_files_differ H (video_id info)) as Hne.
  unfold cache_file, cache_path in *.
  unfold add, _save_to_disk, bind, write_file.
  rewrite Ht, Htruthy, Hvi. run. rewrite Htxt. run. rewrite Hmeta. run.
  repeat split.
  - apply PosixFileFacts.file_get_set_same.
  - apply PosixFileFacts.file_get_set_other. congruence.
Qed.

End CacheProperties.

(** An instance of X3: the identifier ["./dQw4w9WgXcQ"], and a file of
    another video. *)
Lemma add_leaves_other_files_witness :
  let info := {| video_id := "./dQw4w9WgXcQ"; video_info := None;
                 text := Some "Title: T" |} in
  PosixFile.file_get (cache_file Demo.host "other.txt")
    (disk (snd (TranscriptCache.add Demo.host info
                  (Demo.directory [("other.txt", "kept")]))))
  = Some "kept".
Proof.
  apply (@add_leaves_other_files Demo.host
           {| video_id := "./dQw4w9WgXcQ"; video_info := None;
              text := Some "Title: T" |}
           (cache_file Demo.host "other.txt")
           (Demo.directory [("other.txt", "kept")]));
    intros Heq; vm_compute in Heq; discriminate.
Defined.

(** Identifiers that are no file names: ["./b"] and ["b"] have one text
    file, the text files of ["../b"] and of ["/tmp/b"] lie out of the
    cache directory, and the listing of the cache directory does not show
    them. *)
Lemma identifiers_with_separators :
  cache_file Demo.host ("./b" ++ ".txt") = cache_file Demo.host ("b" ++ ".txt")
  /\ cache_file Demo.host ("../b" ++ ".txt") = ["srv"; "app"; "b.txt"]
  /\ cache_file Demo.host ("/tmp/b" ++ ".txt") = ["tmp"; "b.txt"]
  /\ PosixFile.children (cache_dir Demo.host)
       (disk (snd (TranscriptCache.add Demo.host
                     {| video_id := "../b"; video_info := None;
                        text := Some "Title: T" |}
                     Demo.empty_world)))
     = [].
Proof. repeat split; reflexivity. Qed.

(** An instance of X4: a cache directory that cannot be written. *)
Lemma add_keeps_record_when_write_fails_witness :
  let r := TranscriptCache.add Demo.read_only Demo.record Demo.empty_world in
  fst r = Raise OSError "Read-only file system"
  /\ fst (TranscriptCache.get "dQw4w9WgXcQ" (snd r)) = Ok (Some Demo.record)
  /\ disk (snd r) = [].
Proof.
  exact (@add_keeps_record_when_write_fails Demo.read_only Demo.record
           "Title: T" "Read-only file system" Demo.empty_world
           eq_refl eq_refl eq_refl).
Defined.

(** An instance of X5: the metadata file cannot be written. *)
Lemma metadata_write_failure_leaves_text_witness :
  let r := TranscriptCache.add Demo.metadata_read_only Demo.record Demo.empty_world in
  fst r = Raise OSError "Permission denied"
  /\ PosixFile.file_get (cache_file Demo.metadata_read_only "dQw4w9WgXcQ.txt")
       (disk (snd r)) = Some "Title: T"
  /\ PosixFile.file_get (cache_file Demo.metadata_read_only "dQw4w9WgXcQ_meta.json")
       (disk (snd r)) = None.
Proof.
  exact (@metadata_write_failure_leaves_text Demo.metadata_read_only Demo.record
           "Title: T"
           {| vi_video_id := "dQw4w9WgXcQ"; title := "T"; channel := "C" |}
           "Permission denied" Demo.empty_world
           eq_refl eq_refl eq_refl eq_refl eq_refl).
Defined.

(* ================================================================== *)
(** * Listing: theorems *)

Module ListingFacts.
Import AppendFacts.

Lemma listing_from_acc l : forall i acc,
  listing_from i l acc = acc ++ listing_from i l EmptyString.
Proof.
  induction l as [|info l IH]; intros i acc; cbn [listing_from].
  - now rewrite append_empty.
  - rewrite (IH (S i) (acc ++ listing_entry i info)).
    rewrite (IH (S i) (EmptyString ++ listing_entry i info)).
    cbn [String.append]. apply append_assoc.
Qed.

Lemma listing_from_snoc l info : forall i acc,
  listing_from i (l ++ [info]) acc
  = listing_from i l acc ++ listing_entry (i + length l) info.
Proof.
  induction l as [|x l IH]; intros i acc; cbn [listing_from app length].
  - now rewrite Nat.add_0_r.
  - rewrite IH. now rewrite Nat.add_succ_r.
Qed.

End ListingFacts.

Section ListingProperties.
Import TranscriptCache ListingFacts.
Variable H : Host.

(** X12.  [list_available_transcripts] answers with the sentence for an
    empty cache exactly when the cache holds no record, and it leaves
    the state as it is. *)
Theorem empty_listing w :
  (fst (list_available_transcripts w) = Ok "No transcripts have been downloaded yet."
   <-> transcripts w = [])
  /\ snd (list_available_transcripts w) = w.
Proof.
  unfold list_available_transcripts, list_all, bind, ret. cbn [fst snd].
  destruct (transcripts w) as [|[k info] l]; cbn [map snd fst].
  - split; [split; reflexivity | reflexivity].
  - split; [|reflexivity]. split; [|discriminate].
    rewrite listing_from_acc. cbn [String.append]. intros [=].
Qed.

(** X13.  Adding a record under a new identifier to a cache that is not
    empty extends the listing at its end, by the three lines of the new
    record, numbered one more than the number of records before; the
    lines of the earlier records are unchanged. *)
Theorem listing_after_add info w :
  transcripts w <> [] ->
  dict_get (video_id info) (transcripts w) = None ->
  fst (list_available_transcripts (snd (add H info w)))
  = omap (fun listing =>
            listing ++ listing_entry (S (length (transcripts w))) info)
         (fst (list_available_transcripts w)).
Proof.
  intros Hne Habs.
  unfold list_available_transcripts, list_all, bind, ret. cbn [fst snd].
  destruct (CacheFacts.add_frame H info w) as [-> _].
  rewrite (dict_set_absent _ _ _ Habs), map_app. cbn [map snd].
  destruct (transcripts w) as [|[k x] l]; [contradiction|].
  cbn [map snd fst app omap obind].
  change (x :: (map snd l ++ [info])%list) with ((x :: map snd l) ++ [info])%list.
  rewrite listing_from_snoc. cbn [length]. now rewrite length_map.
Qed.

End ListingProperties.

(** An instance of X13: a second record, without [VideoInfo]. *)
Lemma listing_after_add_witness :
  let nl := String PyStr.LF EmptyString in
  let info := {| video_id := "abcdefghijk"; video_info := None; text := Some "x" |} in
  fst (list_available_transcripts
         (snd (TranscriptCache.add Demo.host info Demo.one_record)))
  = Ok ("Available Transcripts:" ++ nl ++ nl
        ++ "1. T" ++ nl ++ "   Channel: C" ++ nl ++ "   ID: dQw4w9WgXcQ" ++ nl
        ++ "2. Unknown Title" ++ nl ++ "   Channel: Unknown Channel" ++ nl
        ++ "   ID: abcdefghijk" ++ nl).
Proof.
  cbn zeta.
  refine (@listing_after_add Demo.host
            {| video_id := "abcdefghijk"; video_info := None; text := Some "x" |}
            Demo.one_record _ eq_refl).
  discriminate.
Defined.

(* ================================================================== *)
(** * Rehydration: what it reads and what it leaves *)

Module RehydrationFacts.
Import PyStr TranscriptCache.

Section WithHost.
Variable H : Host.

(** The loop, when no entry raises. *)
Lemma for_each_records names : forall w,
  for_each names (load_one H) w
  = match records_of H (disk w) names with
    | Ok l => (Ok tt, Spec.loaded w (fold_left put l (transcripts w)))
    | Raise c msg => (Raise c msg, snd (for_each names (load_one H) w))
    end.
Proof.
  induction names as [|f names IH]; intros w; cbn [for_each records_of].
  - destruct w; reflexivity.
  - unfold bind. rewrite load_one_record.
    destruct (record_of H (disk w) f) as [[kv|]|c msg]; cbn [obind omap].
    + rewrite IH. cbn [Spec.loaded disk transcripts].
      destruct (records_of H (disk w) names); reflexivity.
    + rewrite IH. destruct (records_of H (disk w) names); reflexivity.
    + reflexivity.
Qed.

(** The loop in every case: assignments to the map, and nothing else. *)
Lemma for_each_steps names : forall w,
  let w' := snd (for_each names (load_one H) w) in
  (exists l, transcripts w' = fold_left put l (transcripts w))
  /\ disk w' = disk w /\ api_calls w' = api_calls w
  /\ http_calls w' = http_calls w /\ ctx_log w' = ctx_log w.
Proof.
  induction names as [|f names IH]; intros w; cbn [for_each].
  - cbn. split; [now exists []|auto].
  - unfold bind. rewrite load_one_record.
    destruct (record_of H (disk w) f) as [[kv|]|c msg].
    + destruct (IH (Spec.loaded w (put (transcripts w) kv))) as ([l Hl] & Hd & Ha & Hh & Hc).
      split; [now exists (kv :: l)|auto].
    + apply IH.
    + cbn. split; [now exists []|auto].
Qed.

Lemma records_of_skipped d names :
  (forall name, In name names -> endswith ".txt" name = false) ->
  records_of H d names = Ok [].
Proof.
  induction names as [|f names IH]; intros Hall; cbn [records_of]; [reflexivity|].
  unfold record_of. rewrite (Hall f) by now left. cbn [andb obind].
  rewrite IH; [reflexivity|]. intros name Hin. apply Hall. now right.
Qed.

End WithHost.
End RehydrationFacts.

Section RehydrationProperties.
Import PyStr TranscriptCache RehydrationFacts.
Variable H : Host.

(** X6.  [load_from_disk] only reads: whether it ends normally or by an
    exception, the files of the file system are as before, and it
    calls neither the transcript provider nor the metadata service and
    logs nothing. *)
Theorem rehydration_only_reads w :
  let w' := snd (load_from_disk H w) in
  disk w' = disk w /\ api_calls w' = api_calls w
  /\ http_calls w' = http_calls w /\ ctx_log w' = ctx_log w.
Proof.
  rewrite load_from_disk_for_each.
  apply (for_each_steps H (PosixFile.children (cache_dir H) (disk w)) w).
Qed.

(** X7.  A cache directory without an entry named [*.txt] gives an empty
    cache at startup, whatever the other files hold. *)
Theorem directory_without_text_files w :
  (forall name, In name (PosixFile.children (cache_dir H) (disk w)) ->
                endswith ".txt" name = false) ->
  app_lifespan H w = (Ok tt, fresh_cache w).
Proof.
  intros Hall. unfold app_lifespan.
  rewrite load_from_disk_for_each, for_each_records.
  cbn [fresh_cache disk]. now rewrite (records_of_skipped _ _ _ Hall).
Qed.

(** X8.  Rehydration is idempotent: when the startup load ends
    normally, loading from disk once more leaves the cache as the first
    load made it. *)
Theorem rehydration_idempotent w :
  fst (app_lifespan H w) = Ok tt ->
  load_from_disk H (snd (app_lifespan H w)) = app_lifespan H w.
Proof.
  unfold app_lifespan.
  rewrite (load_from_disk_for_each H (fresh_cache w)), for_each_records.
  cbn [fresh_cache disk transcripts].
  destruct (records_of H (disk w) (PosixFile.children (cache_dir H) (disk w)))
    as [l|c msg] eqn:Hrec; [|discriminate].
  intros _. cbn [snd].
  rewrite load_from_disk_for_each, for_each_records.
  cbn [Spec.loaded fresh_cache disk transcripts]. rewrite Hrec.
  unfold Spec.loaded. cbn [fresh_cache disk api_calls http_calls ctx_log transcripts].
  rewrite fold_put_twice by constructor. reflexivity.
Qed.

(** X9.  Insert into an empty cache directory, tear down, rehydrate: for an
    identifier that is a file name (no ["/"]), without a dot and not
    ending in ["_meta"], the record comes back with its title and channel
    (when [json.load] reads the metadata file back as the object that
    [json.dump] wrote) and with its text as text mode reads it: carriage
    returns become line feeds, and the text comes back as it was exactly
    when it holds no carriage return. *)
Theorem insert_then_rehydrate vid vi t w :
  mem "/" vid = false ->
  mem "." vid = false -> endswith "_meta" vid = false ->
  truthy t = true ->
  Spec.cache_holds H (disk w) [] ->
  open_error H (cache_path (vid ++ ".txt")) = None ->
  open_error H (cache_path (vid ++ "_meta.json")) = None ->
  json_load H (PosixFile.universal_newlines
                 (json_dump H [("title", title vi); ("channel", channel vi)]))
  = JsonObject [("title", title vi); ("channel", channel vi)] ->
  let info := {| video_id := vid; video_info := Some vi; text := Some t |} in
  let r := app_lifespan H (snd (add H info w)) in
  fst r = Ok tt
  /\ transcripts (snd r)
     = [(vid, {| video_id := vid;
                 video_info := Some {| vi_video_id := vid; title := title vi;
                                       channel := channel vi |};
                 text := Some (PosixFile.universal_newlines t) |})]
  /\ (PosixFile.universal_newlines t = t <-> mem CR t = false).
Proof.
  intros Hslash Hdot Hmeta Ht Hempty Htxt Hjson Hload info r.
  pose proof (@add_into_empty H vid (Some vi) t w Hslash Ht Hempty Htxt Hjson)
    as Hdisk.
  subst r info.
  rewrite (@load_directory H vid t
             (Some (json_dump H [("title", title vi); ("channel", channel vi)]))
             _ (fun _ => Hslash) Hdot Hmeta Hdisk).
  rewrite Hload. cbn [Spec.metadata_of].
  split; [reflexivity|]. split; [reflexivity|].
  apply PosixFileFacts.universal_newlines_fixed.
Qed.

End RehydrationProperties.

(** The files of an example directory are those that it holds. *)
Ltac holds :=
  split;
  [ reflexivity
  | let Hin := fresh "Hin" in
    intros ? ? Hin;
    repeat (destruct Hin as [Hin|Hin]; [injection Hin as <- <-; reflexivity|]);
    destruct Hin ].

(** An instance of X7: a directory with notes and a stray metadata file. *)
Lemma directory_without_text_files_witness :
  app_lifespan Demo.host
    (Demo.directory [("notes.md", "x"); ("dQw4w9WgXcQ_meta.json", "{}")])
  = (Ok tt, Demo.directory [("notes.md", "x"); ("dQw4w9WgXcQ_meta.json", "{}")]).
Proof.
  apply (@directory_without_text_files Demo.host
           (Demo.directory [("notes.md", "x"); ("dQw4w9WgXcQ_meta.json", "{}")])).
  intros name Hname. vm_compute in Hname.
  destruct Hname as [<-|[<-|[]]]; reflexivity.
Defined.

(** An instance of X8: a directory with one transcript. *)
Lemma rehydration_idempotent_witness :
  let w := Demo.directory [("dQw4w9WgXcQ.txt", "Title: T")] in
  TranscriptCache.load_from_disk Demo.host (snd (app_lifespan Demo.host w))
  = app_lifespan Demo.host w.
Proof.
  exact (@rehydration_idempotent Demo.host
           (Demo.directory [("dQw4w9WgXcQ.txt", "Title: T")]) eq_refl).
Defined.

(** An instance of X9: the record of the examples. *)
Lemma insert_then_rehydrate_witness :
  let r := app_lifespan Demo.host
             (snd (TranscriptCache.add Demo.host Demo.record Demo.empty_world)) in
  fst r = Ok tt /\ transcripts (snd r) = [("dQw4w9WgXcQ", Demo.record)].
Proof.
  assert (Hempty : Spec.cache_holds Demo.host (disk Demo.empty_world) [])
    by holds.
  pose proof (@insert_then_rehydrate Demo.host "dQw4w9WgXcQ"
                {| vi_video_id := "dQw4w9WgXcQ"; title := "T"; channel := "C" |}
                "Title: T" Demo.empty_world
                eq_refl eq_refl eq_refl eq_refl Hempty eq_refl eq_refl eq_refl)
    as (Hr & Hrecord & _).
  split; [exact Hr | exact Hrecord].
Defined.



(* ================================================================== *)
(** * The extractor: other shapes of reference *)

Section ExtractorProperties.
Import PyStr UrlParse IdCharFacts AppendFacts.
Variable L : UrlLib.

Ltac outside_of vid Hvid :=
  repeat match goal with
    | |- context [remove ?d vid] => rewrite (remove_outside d vid Hvid eq_refl)
    | |- context [partition ?d vid] => rewrite (partition_outside d vid Hvid eq_refl)
    | |- context [mem ?d vid] => rewrite (mem_outside d vid Hvid eq_refl)
    | |- context [split ?d vid] => rewrite (split_outside d vid Hvid eq_refl)
    | |- context [replace_char ?d ?e vid] => rewrite (replace_char_outside d e vid Hvid eq_refl)
    | |- context [strip "/" vid] => rewrite (strip_slash_outside vid Hvid)
    end.

Lemma rstrip_slash_after_id prefix vid :
  forallb id_char vid = true -> truthy vid = true ->
  rstrip (fun c => mem c "/") (prefix ++ vid) = prefix ++ vid.
Proof.
  intros Hvid Hne.
  assert (Hp : forall c, id_char c = true -> mem c "/" = false).
  { intros c Hc. simpl. now rewrite (id_char_neq c "/" Hc eq_refl). }
  induction prefix as [|c prefix IH]; cbn [String.append rstrip].
  - now apply rstrip_outside.
  - rewrite IH. destruct (prefix ++ vid) eqn:E; [|reflexivity].
    destruct prefix; [|discriminate]. simpl in E. subst. discriminate.
Qed.

Lemma strip_slash_after_id c prefix vid :
  mem c "/" = false -> forallb id_char vid = true -> truthy vid = true ->
  strip "/" (String c prefix ++ vid) = String c prefix ++ vid.
Proof.
  intros Hc Hvid Hne. unfold strip. cbn [String.append lstrip]. rewrite Hc.
  exact (rstrip_slash_after_id (String c prefix) vid Hvid Hne).
Qed.

Lemma contains_without q needle s :
  forallb q s = true -> forallb q needle = false -> contains needle s = false.
Proof.
  intros Hs Hn. induction s as [|c s IH].
  - simpl. rewrite orb_false_r. destruct needle; [discriminate|reflexivity].
  - cbn [contains].
    destruct (String.prefix needle (String c s)) eqn:Hp.
    + rewrite (prefix_forallb q _ _ Hp Hs) in Hn. discriminate.
    + simpl in Hs. apply andb_prop in Hs as [_ Hs]. now apply IH.
Qed.

Lemma match_id_chars_append vid rest n :
  String.length vid = n -> forallb id_char vid = true ->
  match_id_chars n (vid ++ rest) = Some rest.
Proof.
  revert vid. induction n as [|n IH]; intros [|c vid]; simpl; try discriminate; auto.
  intros [= Hlen] Hvid. apply andb_prop in Hvid as [-> Hvid]. auto.
Qed.

(** [urlsplit] removes the line feed. *)
Lemma urlsplit_trailing_newline vid :
  forallb id_char vid = true -> truthy vid = true ->
  urlsplit L (vid ++ String LF EmptyString) = urlsplit L vid.
Proof.
  intros Hvid Hne. unfold urlsplit.
  assert (Hl : lstrip c0_control_or_space (vid ++ String LF EmptyString)
               = vid ++ String LF EmptyString).
  { destruct vid as [|c vid]; [discriminate|]. cbn [String.append lstrip].
    simpl in Hvid. apply andb_prop in Hvid as [Hc _].
    now rewrite (id_char_not_c0 c Hc). }
  rewrite Hl, (lstrip_outside c0_control_or_space vid Hvid id_char_not_c0).
  rewrite !remove_append.
  rewrite !(remove_outside _ vid Hvid) by reflexivity.
  cbn [remove]. cbn. now rewrite append_empty.
Qed.

Lemma urlparse_bare vid :
  forallb id_char vid = true ->
  urlparse L vid
  = Ok {| scheme := EmptyString; netloc := EmptyString; path := vid;
          params := EmptyString; query := EmptyString; fragment := EmptyString |}.
Proof.
  intros Hvid. unfold urlparse, urlsplit.
  rewrite (lstrip_outside c0_control_or_space vid Hvid id_char_not_c0).
  outside_of vid Hvid.
  unfold split_scheme. outside_of vid Hvid.
  rewrite (startswith_slashes_outside vid Hvid).
  cbn [obind]. outside_of vid Hvid.
  cbn [obind checknetloc truthy negb orb sr_scheme sr_path sr_netloc sr_query sr_fragment].
  outside_of vid Hvid. now rewrite andb_false_r.
Qed.

(** X15.  [extract_video_id] raises nothing but [ValueError], also for
    the references that [urlparse] refuses: every failure is one that
    [download_transcript] catches. *)
Theorem raises_only_value_error url :
  (exists vid, extract_video_id L url = Ok vid)
  \/ (exists msg, extract_video_id L url = Raise ValueError msg).
Proof.
  destruct (extract_video_id L url) as [vid|c msg] eqn:He.
  - left. now exists vid.
  - right. exists msg. now rewrite (extract_video_id_raises L url He).
Qed.

(** X16.  A short link written without its scheme has no host for
    [urlparse]: the whole reference is the path, and the extractor
    returns the reference itself in place of the identifier. *)
Theorem schemeless_short_link vid :
  Spec.canonical_id vid = true ->
  extract_video_id L ("youtu.be/" ++ vid) = Ok ("youtu.be/" ++ vid).
Proof.
  unfold Spec.canonical_id. intros Hvid.
  apply andb_prop in Hvid as [Hlen Hvid]. apply Nat.eqb_eq in Hlen.
  assert (Hne : truthy vid = true) by (destruct vid; [discriminate|reflexivity]).
  unfold extract_video_id.
  replace (contains "youtu.be" ("youtu.be/" ++ vid)) with true by reflexivity.
  unfold urlparse, urlsplit, split_scheme.
  repeat (progress (simpl; outside_of vid Hvid)).
  f_equal. exact (strip_slash_after_id "y" "outu.be/" vid eq_refl Hvid Hne).
Qed.

(** A link of the main site that carries the identifier in its path
    ([/embed/], [/shorts/], [/live/], [/v/]) has no [v] in its query. *)
Lemma other_paths_extract prefix vid :
  In prefix non_watch_prefixes ->
  Spec.canonical_id vid = true ->
  extract_video_id L (prefix ++ vid) = Ok EmptyString.
Proof.
  unfold Spec.canonical_id. intros Hprefix Hvid.
  apply andb_prop in Hvid as [Hlen Hvid].
  assert (Hno : contains "youtu.be" vid = false) by now apply contains_outside.
  unfold extract_video_id, non_watch_prefixes in *. simpl in Hprefix.
  repeat (destruct Hprefix as [<-|Hprefix]; [|]); try contradiction;
    simpl; rewrite Hno; unfold urlparse, urlsplit, split_scheme;
    repeat (progress (simpl; outside_of vid Hvid)); reflexivity.
Qed.

(** X18.  A bare identifier followed by a line feed is accepted, since
    [$] matches before a final line feed, and it is returned with the
    line feed: the result has twelve characters. *)
Theorem bare_id_with_newline vid :
  Spec.canonical_id vid = true ->
  extract_video_id L (vid ++ String LF EmptyString) = Ok (vid ++ String LF EmptyString)
  /\ Spec.canonical_id (vid ++ String LF EmptyString) = false.
Proof.
  unfold Spec.canonical_id. intros Hcan.
  apply andb_prop in Hcan as [Hlen Hvid]. apply Nat.eqb_eq in Hlen.
  assert (Hne : truthy vid = true) by (destruct vid; [discriminate|reflexivity]).
  split.
  - unfold extract_video_id.
    rewrite (contains_without (fun c => negb (Ascii.eqb c ".")) "youtu.be").
    + pose proof (urlparse_bare vid Hvid) as Hbare. unfold urlparse in *.
      rewrite (urlsplit_trailing_newline vid Hvid Hne), Hbare.
      cbn [obind netloc existsb main_site_hosts String.eqb orb].
      unfold re_match_video_id.
      rewrite (match_id_chars_append vid (String LF EmptyString) Hlen Hvid).
      now rewrite String.eqb_refl, orb_true_r.
    + rewrite forallb_append. apply andb_true_intro. split; [|reflexivity].
      apply (PyStrFacts.forallb_weaken id_char); [|exact Hvid].
      intros c Hc. now rewrite (id_char_neq c "." Hc eq_refl).
    + reflexivity.
  - apply andb_false_iff. left. apply Nat.eqb_neq.
    rewrite SuffixFacts.length_append, Hlen. simpl. lia.
Qed.

End ExtractorProperties.

(** An instance of X14: the identifier of the examples. *)
Lemma identifier_normalization_witness :
  extract_video_id Demo.lib "https://youtu.be/dQw4w9WgXcQ" = Ok "dQw4w9WgXcQ"
  /\ extract_video_id Demo.lib "https://www.youtube.com/watch?v=dQw4w9WgXcQ"
     = Ok "dQw4w9WgXcQ"
  /\ extract_video_id Demo.lib "dQw4w9WgXcQ" = Ok "dQw4w9WgXcQ".
Proof.
  pose proof (@identifier_normalization Demo.lib "dQw4w9WgXcQ" eq_refl)
    as (Hshort & _ & Hstandard & Hbare).
  split; [exact Hshort|]. split; [|exact Hbare].
  apply (Hstandard "https://www.youtube.com"). now left.
Defined.

(** An instance of X16. *)
Lemma schemeless_short_link_witness :
  extract_video_id Demo.lib "youtu.be/dQw4w9WgXcQ" = Ok "youtu.be/dQw4w9WgXcQ".
Proof. exact (@schemeless_short_link Demo.lib "dQw4w9WgXcQ" eq_refl). Defined.

(** An instance of X18. *)
Lemma bare_id_with_newline_witness :
  extract_video_id Demo.lib ("dQw4w9WgXcQ" ++ String PyStr.LF EmptyString)
  = Ok ("dQw4w9WgXcQ" ++ String PyStr.LF EmptyString).
Proof. exact (proj1 (@bare_id_with_newline Demo.lib "dQw4w9WgXcQ" eq_refl)). Defined.

(* ================================================================== *)
(** * The pipeline: calls, invariants and write-through *)

Module StepFacts.
Import PyStr PipelineFacts.

Section WithHost.
Variable H : Host.

(** What the [try] block does to the two counters and to the map. *)

Lemma download_and_cache_steps vid w :
  let w' := snd (download_and_cache H vid w) in
  (exists l, transcripts w' = fold_left put l (transcripts w))
  /\ api_calls w' = S (api_calls w)
  /\ (http_calls w <= http_calls w' <= S (http_calls w))%nat.
Proof.
  intros w'. split; [|split; [apply PipelineFacts.download_and_cache_api_calls|]];
    subst w'; unfold download_and_cache, fetch_transcript, bind.
  - destruct (youtube_get_transcript H (api_calls w) vid) as [segs|c m];
      [|now exists []].
    match goal with |- context [get_video_info H vid ?w1] =>
      pose proof (PipelineFacts.get_video_info_frame H vid w1) as Hvi;
      destruct (get_video_info H vid w1) as [[vi|c m] w2] end;
      cbn [fst snd transcripts] in *; [|exists []; now destruct Hvi as [-> _]].
    match goal with |- context [TranscriptCache.add H ?info w2] =>
      pose proof (CacheFacts.add_frame H info w2) as Hadd;
      destruct (TranscriptCache.add H info w2) as [[[]|c m] w3] end;
      cbn [fst snd ret transcripts video_id] in *;
      destruct Hadd as [-> _]; destruct Hvi as [-> _];
      match goal with |- context [dict_set vid ?info _] => now exists [(vid, info)] end.
  - destruct (youtube_get_transcript H (api_calls w) vid) as [segs|c m];
      cbn [snd http_calls]; [|lia].
    match goal with |- context [get_video_info H vid ?w1] =>
      pose proof (get_video_info_calls H vid w1) as Hvi;
      destruct (get_video_info H vid w1) as [[vi|c m] w2] end;
      cbn [fst snd http_calls] in *; [|lia].
    match goal with |- context [TranscriptCache.add H ?info w2] =>
      pose proof (CacheFacts.add_frame H info w2) as Hadd;
      destruct (TranscriptCache.add H info w2) as [[[]|c m] w3] end;
      cbn [fst snd ret http_calls] in *; destruct Hadd as (_ & _ & -> & _); lia.
Qed.

Lemma get_transcript_steps vid w :
  let w' := snd (get_transcript H vid w) in
  (exists l, transcripts w' = fold_left put l (transcripts w))
  /\ (api_calls w <= api_calls w' <= S (api_calls w))%nat
  /\ (http_calls w <= http_calls w' <= S (http_calls w))%nat.
Proof.
  destruct (servable (dict_get vid (transcripts w))) as [t|] eqn:Hs.
  - rewrite (get_transcript_hit H vid w Hs). cbn.
    split; [now exists []|lia].
  - rewrite (get_transcript_miss H vid w Hs). unfold try_except.
    match goal with |- context [download_and_cache H vid ?w1] =>
      pose proof (download_and_cache_steps vid w1) as Hd;
      destruct (download_and_cache H vid w1) as [[t|c m] w'] end;
      run; cbn [transcripts api_calls http_calls] in *;
      destruct Hd as (Hl & Ha & Hh); (split; [exact Hl|lia]).
Qed.

Lemma download_transcript_steps L url w :
  let w' := snd (download_transcript L H url w) in
  (exists l, transcripts w' = fold_left put l (transcripts w))
  /\ (api_calls w <= api_calls w' <= S (api_calls w))%nat
  /\ (http_calls w <= http_calls w' <= S (http_calls w))%nat.
Proof.
  destruct (extract_video_id L url) as [vid|c m] eqn:He.
  - rewrite (download_transcript_valid L H url w He). apply get_transcript_steps.
  - rewrite (download_transcript_invalid L H url w He). cbn.
    split; [now exists []|lia].
Qed.

(** A miss where both services answer and both files can be written. *)
Lemma get_transcript_fetched vid segs vi w :
  servable (dict_get vid (transcripts w)) = None ->
  youtube_get_transcript H (api_calls w) vid = Ok segs ->
  fst (get_video_info H vid w) = Ok vi ->
  open_error H (cache_path (vid ++ ".txt")) = None ->
  open_error H (cache_path (vid ++ "_meta.json")) = None ->
  let t := Format.header vi vid ++ Format.format_entries segs in
  get_transcript H vid w
  = (Ok t,
     {| transcripts :=
          dict_set vid {| video_id := vid; video_info := Some vi; text := Some t |}
            (transcripts w);
        disk :=
          PosixFile.file_set (cache_file H (vid ++ "_meta.json"))
            (json_dump H [("title", title vi); ("channel", channel vi)])
            (PosixFile.file_set (cache_file H (vid ++ ".txt")) t (disk w));
        api_calls := S (api_calls w); http_calls := S (http_calls w);
        ctx_log := (ctx_log w
                    ++ [(INFO, ("Downloading transcript for video " ++ vid)%string)])%list |}).
Proof.
  intros Hs Hp Hvi Htxt Hmeta t. unfold cache_file, cache_path in *.
  rewrite (get_transcript_miss H vid w Hs). unfold try_except.
  rewrite (@download_and_cache_fetched H vid segs vi
             (snd (ctx_info ("Downloading transcript for video " ++ vid) w)) Hp)
    by (rewrite <- Hvi; now apply get_video_info_outcome).
  unfold TranscriptCache.add, TranscriptCache._save_to_disk,
    TranscriptCache.write_file, TranscriptCache.set_transcripts,
    TranscriptCache.set_disk, bind, ret.
  cbn [text video_id video_info fst snd transcripts disk api_calls http_calls
       ctx_info ctx_log].
  rewrite (PipelineFacts.header_truthy vi vid (Format.format_entries segs)).
  cbn [fst snd transcripts disk api_calls http_calls ctx_log].
  rewrite Htxt. cbn [fst snd transcripts disk api_calls http_calls ctx_log].
  rewrite Hmeta. reflexivity.
Qed.

End WithHost.
End StepFacts.

Section PipelineProperties.
Import PyStr PipelineFacts StepFacts.
Variable L : UrlLib.
Variable H : Host.

(** X17.  A link of the main site that carries the identifier in its
    path ([/embed/], [/shorts/], [/live/], [/v/]) is not refused: the
    extractor returns the empty string, and [download_transcript] goes on
    with the empty identifier, calling the transcript provider for it
    unless a record is cached under the empty identifier. *)
Theorem main_site_other_paths prefix vid w :
  In prefix non_watch_prefixes ->
  Spec.canonical_id vid = true ->
  extract_video_id L (prefix ++ vid) = Ok EmptyString
  /\ download_transcript L H (prefix ++ vid) w = get_transcript H EmptyString w
  /\ api_calls (snd (download_transcript L H (prefix ++ vid) w))
     = match servable (dict_get EmptyString (transcripts w)) with
       | Some _ => api_calls w
       | None => S (api_calls w)
       end.
Proof.
  intros Hprefix Hvid.
  pose proof (@other_paths_extract L prefix vid Hprefix Hvid) as He.
  split; [exact He|].
  rewrite (download_transcript_valid L H _ w He). split; [reflexivity|].
  destruct (servable (dict_get EmptyString (transcripts w))) as [t|] eqn:Hs.
  - now rewrite (get_transcript_hit H _ w Hs).
  - now apply get_transcript_miss_api_calls.
Qed.

(** X19.  A reference whose identifier has a servable record is answered
    from the cache: the text of the record is returned, neither service is
    called, and the map and the disk are as before. *)
Theorem hit_serves_without_calls url vid t w :
  extract_video_id L url = Ok vid ->
  servable (dict_get vid (transcripts w)) = Some t ->
  let r := download_transcript L H url w in
  fst r = Ok t
  /\ transcripts (snd r) = transcripts w /\ disk (snd r) = disk w
  /\ api_calls (snd r) = api_calls w /\ http_calls (snd r) = http_calls w.
Proof.
  intros He Hs. cbn zeta.
  rewrite (download_transcript_valid L H url w He), (get_transcript_hit H vid w Hs).
  cbn. auto.
Qed.

(** X20.  One call of [get_transcript] or of [download_transcript] calls
    the transcript provider at most once and the metadata service at most
    once, whatever the reference, the cache and the answers. *)
Theorem provider_calls_bounded url vid w :
  (let w' := snd (get_transcript H vid w) in
   (api_calls w <= api_calls w' <= S (api_calls w))%nat
   /\ (http_calls w <= http_calls w' <= S (http_calls w))%nat)
  /\ (let w' := snd (download_transcript L H url w) in
      (api_calls w <= api_calls w' <= S (api_calls w))%nat
      /\ (http_calls w <= http_calls w' <= S (http_calls w))%nat).
Proof.
  split.
  - destruct (get_transcript_steps H vid w) as (_ & Ha & Hh). cbn zeta. lia.
  - destruct (download_transcript_steps H L url w) as (_ & Ha & Hh). cbn zeta. lia.
Qed.

(** X21.  A reference that the extractor refuses costs nothing:
    [download_transcript] returns ["Error: "] and the reason, logs one
    error, calls neither service and leaves the cache and the disk as
    they are. *)
Theorem invalid_reference_no_calls url c m w :
  extract_video_id L url = Raise c m ->
  let r := download_transcript L H url w in
  fst r = Ok ("Error: " ++ m)
  /\ transcripts (snd r) = transcripts w /\ disk (snd r) = disk w
  /\ api_calls (snd r) = api_calls w /\ http_calls (snd r) = http_calls w
  /\ ctx_log (snd r)
     = (ctx_log w ++ [(ERROR, ("Invalid YouTube URL: " ++ m)%string)])%list.
Proof.
  intros He. cbn zeta. rewrite (download_transcript_invalid L H url w He).
  cbn. repeat split; reflexivity.
Qed.

(** X22.  The tool and the resource agree: for a canonical identifier,
    [download_transcript] on its short link, on its standard links and on
    the bare identifier is [get_transcript_resource] on the identifier,
    in result and in effect. *)
Theorem forms_agree_with_resource vid w :
  Spec.canonical_id vid = true ->
  download_transcript L H ("https://youtu.be/" ++ vid) w = get_transcript_resource H vid w
  /\ (forall host, In host Spec.standard_prefixes ->
        download_transcript L H (host ++ "/watch?v=" ++ vid) w
        = get_transcript_resource H vid w)
  /\ download_transcript L H vid w = get_transcript_resource H vid w.
Proof.
  unfold Spec.canonical_id, get_transcript_resource. intros Hvid.
  apply andb_prop in Hvid as [Hlen Hvid]. apply Nat.eqb_eq in Hlen.
  assert (Hne : truthy vid = true) by (destruct vid; [discriminate|reflexivity]).
  repeat split.
  - apply download_transcript_valid. apply (short_link_normalized L vid Hvid).
  - intros host Hhost. apply download_transcript_valid.
    now apply standard_link_normalized.
  - apply download_transcript_valid. now apply bare_id_normalized.
Qed.

(** X23.  The identifiers of the cache stay distinct: [add],
    [load_from_disk], [get_transcript] and [download_transcript] keep a
    map without two records under one identifier. *)
Theorem keys_stay_unique info url vid w :
  NoDup (map fst (transcripts w)) ->
  NoDup (map fst (transcripts (snd (TranscriptCache.add H info w))))
  /\ NoDup (map fst (transcripts (snd (TranscriptCache.load_from_disk H w))))
  /\ NoDup (map fst (transcripts (snd (get_transcript H vid w))))
  /\ NoDup (map fst (transcripts (snd (download_transcript L H url w)))).
Proof.
  intros Hnd. repeat split.
  - destruct (CacheFacts.add_frame H info w) as [-> _]. now apply dict_set_NoDup.
  - destruct (RehydrationFacts.for_each_steps H
                (PosixFile.children (cache_dir H) (disk w)) w) as ([l Hl] & _).
    rewrite load_from_disk_for_each.
    rewrite Hl. now apply fold_put_NoDup.
  - destruct (get_transcript_steps H vid w) as ([l Hl] & _).
    rewrite Hl. now apply fold_put_NoDup.
  - destruct (download_transcript_steps H L url w) as ([l Hl] & _).
    rewrite Hl. now apply fold_put_NoDup.
Qed.

(** X24.  Nothing is evicted: an identifier that has a record keeps one
    through [add], [load_from_disk], [get_transcript] and
    [download_transcript], for whatever record, identifier or
    reference. *)
Theorem records_never_removed info url vid k w :
  dict_get k (transcripts w) <> None ->
  dict_get k (transcripts (snd (TranscriptCache.add H info w))) <> None
  /\ dict_get k (transcripts (snd (TranscriptCache.load_from_disk H w))) <> None
  /\ dict_get k (transcripts (snd (get_transcript H vid w))) <> None
  /\ dict_get k (transcripts (snd (download_transcript L H url w))) <> None.
Proof.
  intros Hk. repeat split.
  - destruct (CacheFacts.add_frame H info w) as [-> _]. rewrite dict_get_set.
    destruct (String.eqb (video_id info) k); [discriminate|exact Hk].
  - destruct (RehydrationFacts.for_each_steps H
                (PosixFile.children (cache_dir H) (disk w)) w) as ([l Hl] & _).
    rewrite load_from_disk_for_each.
    rewrite Hl. now apply fold_put_present.
  - destruct (get_transcript_steps H vid w) as ([l Hl] & _).
    rewrite Hl. now apply fold_put_present.
  - destruct (download_transcript_steps H L url w) as ([l Hl] & _).
    rewrite Hl. now apply fold_put_present.
Qed.

(** X25.  Write-through on a miss: when both services answer and both
    files can be written, [get_transcript] returns the header followed by
    the formatted segments, the same text is in the cache under the
    identifier and in the text file, the metadata file holds the title
    and the channel, and each service was called once. *)
Theorem fresh_fetch_write_through vid segs vi w :
  servable (dict_get vid (transcripts w)) = None ->
  youtube_get_transcript H (api_calls w) vid = Ok segs ->
  fst (get_video_info H vid w) = Ok vi ->
  open_error H (cache_path (vid ++ ".txt")) = None ->
  open_error H (cache_path (vid ++ "_meta.json")) = None ->
  let t := Format.header vi vid ++ Format.format_entries segs in
  let r := get_transcript H vid w in
  fst r = Ok t
  /\ dict_get vid (transcripts (snd r))
     = Some {| video_id := vid; video_info := Some vi; text := Some t |}
  /\ PosixFile.file_get (cache_file H (vid ++ ".txt")) (disk (snd r)) = Some t
  /\ PosixFile.file_get (cache_file H (vid ++ "_meta.json")) (disk (snd r))
     = Some (json_dump H [("title", title vi); ("channel", channel vi)])
  /\ api_calls (snd r) = S (api_calls w)
  /\ http_calls (snd r) = S (http_calls w).
Proof.
  intros Hs Hp Hvi Htxt Hmeta t r. subst r.
  rewrite (get_transcript_fetched H vid w Hs Hp Hvi Htxt Hmeta).
  cbn [fst snd transcripts disk api_calls http_calls].
  repeat split.
  - apply dict_get_set_same.
  - rewrite PosixFileFacts.file_get_set_other
      by apply PosixFileFacts.cache_files_differ.
    apply PosixFileFacts.file_get_set_same.
  - apply PosixFileFacts.file_get_set_same.
Qed.

(** X26.  When the transcript was fetched and the text file cannot be
    written, [get_transcript] answers with the error of the write and
    nothing is on disk, but the record stays in the cache: the next call
    returns the formatted transcript from memory, without a call of the
    provider. *)
Theorem write_failure_then_served vid segs vi msg w :
  servable (dict_get vid (transcripts w)) = None ->
  youtube_get_transcript H (api_calls w) vid = Ok segs ->
  fst (get_video_info H vid w) = Ok vi ->
  open_error H (cache_path (vid ++ ".txt")) = Some msg ->
  let r1 := get_transcript H vid w in
  let r2 := get_transcript H vid (snd r1) in
  fst r1 = Ok ("Error retrieving transcript: " ++ msg)
  /\ disk (snd r1) = disk w
  /\ fst r2 = Ok (Format.header vi vid ++ Format.format_entries segs)
  /\ api_calls (snd r2) = S (api_calls w)
  /\ disk (snd r2) = disk w.
Proof.
  intros Hs Hp Hvi Htxt r1 r2. unfold cache_path in Htxt.
  assert (Hr1 : fst r1 = Ok ("Error retrieving transcript: " ++ msg)
                /\ disk (snd r1) = disk w
                /\ api_calls (snd r1) = S (api_calls w)
                /\ dict_get vid (transcripts (snd r1))
                   = Some {| video_id := vid; video_info := Some vi;
                             text := Some (Format.header vi vid
                                           ++ Format.format_entries segs) |}).
  { subst r1 r2. rewrite (get_transcript_miss H vid w Hs). unfold try_except.
    rewrite (@download_and_cache_fetched H vid segs vi
               (snd (ctx_info ("Downloading transcript for video " ++ vid) w)) Hp)
      by (rewrite <- Hvi; now apply get_video_info_outcome).
    unfold TranscriptCache.add, TranscriptCache._save_to_disk,
      TranscriptCache.write_file, TranscriptCache.set_transcripts,
      TranscriptCache.set_disk, bind, ret.
    cbn [text video_id video_info fst snd transcripts disk api_calls http_calls
         ctx_info ctx_log].
    rewrite (PipelineFacts.header_truthy vi vid (Format.format_entries segs)).
    cbn [fst snd transcripts disk api_calls http_calls ctx_log].
    rewrite Htxt. cbn. repeat split. apply dict_get_set_same. }
  destruct Hr1 as (Hf & Hd & Ha & Hrec).
  assert (Hserve : servable (dict_get vid (transcripts (snd r1)))
                   = Some (Format.header vi vid ++ Format.format_entries segs)).
  { rewrite Hrec. unfold servable. cbn [text].
    now rewrite (PipelineFacts.header_truthy vi vid (Format.format_entries segs)). }
  subst r2. rewrite (get_transcript_hit H vid (snd r1) Hserve).
  cbn [fst snd ctx_info api_calls disk]. auto.
Qed.

(** X27.  When the metadata service answers with a status other than
    200, the transcript is delivered with the title and the channel
    ["Unknown"], and these placeholders are what is written to the
    metadata file. *)
Theorem metadata_unavailable_uses_placeholders vid segs status body w :
  servable (dict_get vid (transcripts w)) = None ->
  youtube_get_transcript H (api_calls w) vid = Ok segs ->
  http_get H (http_calls w) (oembed_url vid) = HttpResponse status body ->
  status <> 200%nat ->
  open_error H (cache_path (vid ++ ".txt")) = None ->
  open_error H (cache_path (vid ++ "_meta.json")) = None ->
  let unknown := {| vi_video_id := vid; title := "Unknown"; channel := "Unknown" |} in
  let r := get_transcript H vid w in
  fst r = Ok (Format.header unknown vid ++ Format.format_entries segs)
  /\ PosixFile.file_get (cache_file H (vid ++ "_meta.json")) (disk (snd r))
     = Some (json_dump H [("title", "Unknown"); ("channel", "Unknown")]).
Proof.
  intros Hs Hp Hreply Hstatus Htxt Hmeta unknown r. subst r.
  pose proof (PipelineFacts.get_video_info_bad_status H vid w Hreply Hstatus) as Hvi.
  rewrite (get_transcript_fetched H vid w Hs Hp Hvi Htxt Hmeta).
  cbn [fst snd disk]. split; [reflexivity|].
  apply PosixFileFacts.file_get_set_same.
Qed.

(** X28.  A transcript fetched in one session is served from disk in the
    next: after a fetch into an empty cache directory, a teardown and the
    startup load, [get_transcript] returns the text of the first call as
    text mode reads it (carriage returns become line feeds; the same text
    exactly when it holds no carriage return) without calling the
    transcript provider or the metadata service, for an identifier that
    is a file name (no ["/"]), without a dot and not ending in ["_meta"],
    and a metadata file that [json.load] reads back as the object
    written. *)
Theorem served_across_sessions vid segs vi w :
  mem "/" vid = false ->
  mem "." vid = false -> endswith "_meta" vid = false ->
  Spec.cache_holds H (disk w) [] ->
  servable (dict_get vid (transcripts w)) = None ->
  youtube_get_transcript H (api_calls w) vid = Ok segs ->
  fst (get_video_info H vid w) = Ok vi ->
  open_error H (cache_path (vid ++ ".txt")) = None ->
  open_error H (cache_path (vid ++ "_meta.json")) = None ->
  json_load H (PosixFile.universal_newlines
                 (json_dump H [("title", title vi); ("channel", channel vi)]))
  = JsonObject [("title", title vi); ("channel", channel vi)] ->
  let t := Format.header vi vid ++ Format.format_entries segs in
  let r1 := get_transcript H vid w in
  let restarted := app_lifespan H (snd r1) in
  let r2 := get_transcript H vid (snd restarted) in
  fst r1 = Ok t
  /\ fst restarted = Ok tt
  /\ fst r2 = Ok (PosixFile.universal_newlines t)
  /\ (PosixFile.universal_newlines t = t <-> mem CR t = false)
  /\ api_calls (snd r2) = api_calls (snd r1)
  /\ http_calls (snd r2) = http_calls (snd r1).
Proof.
  intros Hslash Hdot Hsuffix Hempty Hs Hp Hvi Htxt Hmeta Hload t r1 restarted r2.
  subst r1 restarted r2.
  rewrite (get_transcript_fetched H vid w Hs Hp Hvi Htxt Hmeta).
  cbn [fst snd]. fold t. split; [reflexivity|].
  match goal with |- context [app_lifespan H ?w1] =>
    rewrite (@load_directory H vid t
               (Some (json_dump H [("title", title vi); ("channel", channel vi)]))
               w1 (fun _ => Hslash) Hdot Hsuffix)
  end.
  - rewrite Hload. cbn [Spec.metadata_of fst snd].
    split; [reflexivity|].
    match goal with |- context [get_transcript H vid ?w2] =>
      rewrite (get_transcript_hit H vid w2 (t := PosixFile.universal_newlines t)) end.
    + split; [reflexivity|].
      split; [apply PosixFileFacts.universal_newlines_fixed|].
      cbn [fst snd ctx_info api_calls http_calls Spec.loaded]. auto.
    + cbn [Spec.loaded transcripts dict_get]. rewrite String.eqb_refl.
      unfold servable. cbn [text].
      rewrite PosixFileFacts.universal_newlines_truthy. subst t.
      now rewrite (PipelineFacts.header_truthy vi vid (Format.format_entries segs)).
  - cbn [disk].
    exact (@files_written H vid t
             (Some (json_dump H [("title", title vi); ("channel", channel vi)]))
             (disk w) Hslash Hempty).
Qed.

End PipelineProperties.

(** An instance of X17: an embed link, on an empty cache. *)
Lemma main_site_other_paths_witness :
  let url := "https://www.youtube.com/embed/dQw4w9WgXcQ" in
  extract_video_id Demo.lib url = Ok EmptyString
  /\ download_transcript Demo.lib Demo.host url Demo.empty_world
     = get_transcript Demo.host EmptyString Demo.empty_world
  /\ api_calls (snd (download_transcript Demo.lib Demo.host url Demo.empty_world)) = 1%nat.
Proof.
  apply (@main_site_other_paths Demo.lib Demo.host "https://www.youtube.com/embed/"
           "dQw4w9WgXcQ" Demo.empty_world); [now left | reflexivity].
Defined.

(** An instance of X19: the record is cached and the provider has no
    captions. *)
Lemma hit_serves_without_calls_witness :
  let r := download_transcript Demo.lib Demo.no_captions Demo.short_link Demo.one_record in
  fst r = Ok "Title: T"
  /\ transcripts (snd r) = transcripts Demo.one_record /\ disk (snd r) = []
  /\ api_calls (snd r) = 0%nat /\ http_calls (snd r) = 0%nat.
Proof.
  exact (@hit_serves_without_calls Demo.lib Demo.no_captions Demo.short_link
           "dQw4w9WgXcQ" "Title: T" Demo.one_record eq_refl eq_refl).
Defined.

(** An instance of X21: a text that is no reference. *)
Lemma invalid_reference_no_calls_witness :
  let r := download_transcript Demo.lib Demo.host "not a url" Demo.empty_world in
  fst r = Ok "Error: Could not extract YouTube video ID from not a url"
  /\ transcripts (snd r) = [] /\ disk (snd r) = []
  /\ api_calls (snd r) = 0%nat /\ http_calls (snd r) = 0%nat
  /\ ctx_log (snd r)
     = [(ERROR,
         "Invalid YouTube URL: Could not extract YouTube video ID from not a url")].
Proof.
  exact (@invalid_reference_no_calls Demo.lib Demo.host "not a url" ValueError
           "Could not extract YouTube video ID from not a url" Demo.empty_world
           eq_refl).
Defined.

(** An instance of X22: the identifier of the examples. *)
Lemma forms_agree_with_resource_witness :
  download_transcript Demo.lib Demo.host "https://youtu.be/dQw4w9WgXcQ" Demo.empty_world
  = get_transcript_resource Demo.host "dQw4w9WgXcQ" Demo.empty_world
  /\ download_transcript Demo.lib Demo.host "dQw4w9WgXcQ" Demo.empty_world
     = get_transcript_resource Demo.host "dQw4w9WgXcQ" Demo.empty_world.
Proof.
  pose proof (@forms_agree_with_resource Demo.lib Demo.host "dQw4w9WgXcQ"
                Demo.empty_world eq_refl) as (Hshort & _ & Hbare).
  split; [exact Hshort | exact Hbare].
Defined.

(** An instance of X23: fetching a second video into a cache of one. *)
Lemma keys_stay_unique_witness :
  NoDup (map fst (transcripts
                    (snd (get_transcript Demo.host "abcdefghijk" Demo.one_record)))).
Proof.
  refine (proj1 (proj2 (proj2
            (@keys_stay_unique Demo.lib Demo.host Demo.record "abcdefghijk"
               "abcdefghijk" Demo.one_record _)))).
  repeat constructor. simpl. tauto.
Defined.

(** An instance of X24: the cached record, while another video is
    fetched. *)
Lemma records_never_removed_witness :
  dict_get "dQw4w9WgXcQ"
    (transcripts (snd (get_transcript Demo.host "abcdefghijk" Demo.one_record)))
  <> None.
Proof.
  refine (proj1 (proj2 (proj2
            (@records_never_removed Demo.lib Demo.host Demo.record "abcdefghijk"
               "abcdefghijk" "dQw4w9WgXcQ" Demo.one_record _)))).
  discriminate.
Defined.

(** An instance of X25: both services answer. *)
Lemma fresh_fetch_write_through_witness :
  let nl := String PyStr.LF EmptyString in
  let t := "Title: Some Video" ++ nl ++ "Channel: Some Channel" ++ nl
           ++ "Video ID: dQw4w9WgXcQ" ++ nl ++ nl ++ "TRANSCRIPT:" ++ nl
           ++ "[00:00] Hello" ++ nl ++ "[01:05] World" ++ nl in
  let r := get_transcript Demo.host "dQw4w9WgXcQ" Demo.empty_world in
  fst r = Ok t
  /\ PosixFile.file_get (cache_file Demo.host "dQw4w9WgXcQ.txt") (disk (snd r))
     = Some t
  /\ api_calls (snd r) = 1%nat /\ http_calls (snd r) = 1%nat.
Proof.
  pose proof (@fresh_fetch_write_through Demo.host "dQw4w9WgXcQ" Demo.segments
                {| vi_video_id := "dQw4w9WgXcQ"; title := "Some Video";
                   channel := "Some Channel" |}
                Demo.empty_world eq_refl eq_refl eq_refl eq_refl eq_refl)
    as (Hr & _ & Hfile & _ & Ha & Hh).
  cbn zeta. split; [exact Hr|]. split; [exact Hfile|]. split; [exact Ha | exact Hh].
Defined.

(** An instance of X26: a cache directory that cannot be written. *)
Lemma write_failure_then_served_witness :
  let r1 := get_transcript Demo.read_only "dQw4w9WgXcQ" Demo.empty_world in
  let r2 := get_transcript Demo.read_only "dQw4w9WgXcQ" (snd r1) in
  fst r1 = Ok "Error retrieving transcript: Read-only file system"
  /\ PyStr.startswith "Title: Some Video" (match fst r2 with Ok t => t | _ => "" end)
     = true
  /\ api_calls (snd r2) = 1%nat.
Proof.
  pose proof (@write_failure_then_served Demo.read_only "dQw4w9WgXcQ" Demo.segments
                {| vi_video_id := "dQw4w9WgXcQ"; title := "Some Video";
                   channel := "Some Channel" |}
                "Read-only file system" Demo.empty_world
                eq_refl eq_refl eq_refl eq_refl)
    as (Hr1 & _ & Hr2 & Ha & _).
  cbn zeta in *. split; [exact Hr1|]. split; [now rewrite Hr2 | exact Ha].
Defined.

(** An instance of X27: the metadata service answers 404. *)
Lemma metadata_unavailable_uses_placeholders_witness :
  let r := get_transcript Demo.metadata_404 "dQw4w9WgXcQ" Demo.empty_world in
  PyStr.startswith "Title: Unknown" (match fst r with Ok t => t | _ => "" end) = true
  /\ PosixFile.file_get (cache_file Demo.metadata_404 "dQw4w9WgXcQ_meta.json")
       (disk (snd r))
     = Some (Demo.dump [("title", "Unknown"); ("channel", "Unknown")]).
Proof.
  assert (Hstatus : 404%nat <> 200%nat) by discriminate.
  pose proof (@metadata_unavailable_uses_placeholders Demo.metadata_404 "dQw4w9WgXcQ"
                Demo.segments 404%nat "Not Found" Demo.empty_world
                eq_refl eq_refl eq_refl Hstatus eq_refl eq_refl)
    as (Hr & Hfile).
  cbn zeta in *. split; [now rewrite Hr | exact Hfile].
Defined.

(** An instance of X28: a fetch, a restart, and the same request. *)
Lemma served_across_sessions_witness :
  let r1 := get_transcript Demo.host "dQw4w9WgXcQ" Demo.empty_world in
  let restarted := app_lifespan Demo.host (snd r1) in
  let r2 := get_transcript Demo.host "dQw4w9WgXcQ" (snd restarted) in
  fst restarted = Ok tt
  /\ fst r2 = fst r1
  /\ api_calls (snd r2) = 1%nat
  /\ http_calls (snd r2) = 1%nat.
Proof.
  assert (Hempty : Spec.cache_holds Demo.host (disk Demo.empty_world) [])
    by holds.
  pose proof (@served_across_sessions Demo.host "dQw4w9WgXcQ" Demo.segments
                {| vi_video_id := "dQw4w9WgXcQ"; title := "Some Video";
                   channel := "Some Channel" |}
                Demo.empty_world
                eq_refl eq_refl eq_refl Hempty eq_refl eq_refl eq_refl eq_refl
                eq_refl eq_refl)
    as (Hr1 & Hstart & Hr2 & _ & Ha & Hh).
  cbn zeta. split; [exact Hstart|]. split; [now rewrite Hr1, Hr2|].
  split; [exact Ha | exact Hh].
Defined.

(** Captions with a carriage return: the text served in the next session
    is the text of the first call with a line feed in its place. *)
Lemma carriage_return_across_sessions :
  let r1 := get_transcript Demo.carriage_return "dQw4w9WgXcQ" Demo.empty_world in
  let restarted := app_lifespan Demo.carriage_return (snd r1) in
  let r2 := get_transcript Demo.carriage_return "dQw4w9WgXcQ" (snd restarted) in
  fst r2 <> fst r1
  /\ fst r2 = omap PosixFile.universal_newlines (fst r1)
  /\ api_calls (snd r2) = 1%nat.
Proof. vm_compute. split; [discriminate|split; reflexivity]. Qed.

(* ================================================================== *)
(** * The formatter: lines and whole seconds *)

Module LineFacts.
Import Format AppendFacts.

(** The floor of a rational is the one integer at most one below it. *)
Lemma Qfloor_unique x z :
  inject_Z z <= x -> x < inject_Z (z + 1) -> Qfloor x = z.
Proof.
  intros Hlo Hhi.
  pose proof (Qfloor_le x) as Hfl. pose proof (Qlt_floor x) as Hfh.
  assert (H1 : (z < Qfloor x + 1)%Z).
  { rewrite Zlt_Qlt. eapply Qle_lt_trans; [exact Hlo | exact Hfh]. }
  assert (H2 : (Qfloor x < z + 1)%Z).
  { rewrite Zlt_Qlt. eapply Qle_lt_trans; [exact Hfl | exact Hhi]. }
  lia.
Qed.

Lemma minutes_whole start :
  Spec.minutes_of start = (Qfloor start / 60)%Z.
Proof.
  unfold Spec.minutes_of.
  pose proof (Qfloor_le start) as Hlo. pose proof (Qlt_floor start) as Hhi.
  pose proof (Z.div_mod (Qfloor start) 60 ltac:(lia)) as Hdm.
  pose proof (Z.mod_pos_bound (Qfloor start) 60 ltac:(lia)) as Hm.
  set (n := Qfloor start) in *. set (q := (n / 60)%Z) in *.
  set (r := (n mod 60)%Z) in *.
  assert (Hn : inject_Z n == 60 * inject_Z q + inject_Z r).
  { rewrite Hdm, inject_Z_plus, inject_Z_mult. reflexivity. }
  assert (Hr0 : 0 <= inject_Z r).
  { change 0 with (inject_Z 0). rewrite <- Zle_Qle. lia. }
  assert (Hr1 : inject_Z r + 1 <= 60).
  { change 1 with (inject_Z 1). change 60 with (inject_Z 60).
    rewrite <- inject_Z_plus, <- Zle_Qle. lia. }
  rewrite inject_Z_plus in Hhi. change (inject_Z 1) with 1 in Hhi.
  assert (Hs : start == 60 * (start / 60)).
  { rewrite Qmult_div_r; [reflexivity | discriminate]. }
  apply Qfloor_unique.
  - lra.
  - rewrite inject_Z_plus. change (inject_Z 1) with 1. lra.
Qed.

Lemma seconds_whole start :
  Spec.seconds_of start = (Qfloor start mod 60)%Z.
Proof.
  unfold Spec.seconds_of.
  pose proof (minutes_whole start) as Hq. unfold Spec.minutes_of in Hq.
  rewrite Hq.
  pose proof (Qfloor_le start) as Hlo. pose proof (Qlt_floor start) as Hhi.
  pose proof (Z.div_mod (Qfloor start) 60 ltac:(lia)) as Hdm.
  set (n := Qfloor start) in *. set (q := (n / 60)%Z) in *.
  set (r := (n mod 60)%Z) in *.
  assert (Hn : inject_Z n == 60 * inject_Z q + inject_Z r).
  { rewrite Hdm, inject_Z_plus, inject_Z_mult. reflexivity. }
  rewrite inject_Z_plus in Hhi. change (inject_Z 1) with 1 in Hhi.
  apply Qfloor_unique.
  - lra.
  - rewrite inject_Z_plus. change (inject_Z 1) with 1. lra.
Qed.

End LineFacts.

Section FormatProperties.
Import Format.

(** X29.  The body of a transcript is the lines of its segments, one
    after the other in the order of the segments: the body of no segment
    is empty, a first segment gives the first line, and the body of two
    lists one after the other is the two bodies one after the other. *)
Theorem format_entries_in_order (e : Entry) (a b : list Entry) :
  format_entries [] = EmptyString
  /\ format_entries (e :: b) = format_entry e ++ format_entries b
  /\ format_entries (a ++ b) = format_entries a ++ format_entries b.
Proof.
  split; [reflexivity|]. split.
  - unfold format_entries at 1. cbn [fold_left].
    now rewrite FormatFacts.fold_entries.
  - unfold format_entries at 1. rewrite fold_left_app.
    fold (format_entries a). apply FormatFacts.fold_entries.
Qed.

(** X30.  The timestamp shows the whole seconds of the offset: for an
    offset that is not negative, the minutes are the whole seconds
    divided by 60 and the seconds are their remainder, so that minutes
    and seconds add up to the offset rounded down, and the fraction of a
    second has no effect on the timestamp. *)
Theorem timestamp_whole_seconds (start : Q) :
  0 <= start ->
  int (floordiv start 60) = (Qfloor start / 60)%Z
  /\ int (modulo start 60) = (Qfloor start mod 60)%Z
  /\ (60 * int (floordiv start 60) + int (modulo start 60) = Qfloor start)%Z
  /\ timestamp start = timestamp (inject_Z (Qfloor start)).
Proof.
  intros Hstart.
  assert (Hfl : 0 <= inject_Z (Qfloor start)).
  { change 0 with (inject_Z 0). rewrite <- Zle_Qle.
    change 0%Z with (Qfloor 0). now apply Qfloor_resp_le. }
  assert (Hm : int (floordiv start 60) = (Qfloor start / 60)%Z).
  { rewrite (@FormatFacts.int_floordiv start Hstart). apply LineFacts.minutes_whole. }
  assert (Hs : int (modulo start 60) = (Qfloor start mod 60)%Z).
  { rewrite (FormatFacts.int_modulo start). apply LineFacts.seconds_whole. }
  split; [exact Hm|]. split; [exact Hs|]. split.
  - rewrite Hm, Hs. symmetry. apply Z.div_mod. lia.
  - unfold timestamp. rewrite Hm, Hs.
    rewrite (@FormatFacts.int_floordiv _ Hfl), (FormatFacts.int_modulo _).
    now rewrite LineFacts.minutes_whole, LineFacts.seconds_whole, Qfloor_Z.
Qed.

End FormatProperties.

(** An instance of X30: 75.9 seconds and 75 seconds. *)
Lemma timestamp_whole_seconds_witness :
  Format.timestamp 75.9 = Format.timestamp 75.
Proof.
  assert (H : 0 <= 75.9) by (vm_compute; discriminate).
  exact (proj2 (proj2 (proj2 (@timestamp_whole_seconds 75.9 H)))).
Defined.
